(** * tools/jobserver_pool.py: a GNU Make jobserver token pool

    A shallow embedding of [tools/jobserver_pool.py] and the properties of
    its token pool: the three backends (Win32 semaphore, POSIX pipe, POSIX
    FIFO), the teardown verification and the lifecycle manager [main].

    Python code that touches the operating system is written in a state and
    exception monad over an explicit model of what the script can observe:
    the process environment, the descriptor table, the file system, the
    pipe buffers and the Win32 kernel behind [win32event]. *)

From stdpp Require Import base gmap strings list fin_maps pretty sorting.
From Stdlib Require Import ZArith Strings.Ascii Strings.Byte.

Local Open Scope Z_scope.

(** ** Exceptions and outcomes *)

(** The Python exceptions the script can meet. *)
Inductive exn : Type :=
  | AssertionError (msg : string)
  | FileNotFoundError (path : string)
  | FileExistsError (path : string)
  | IsADirectoryError (path : string)
  | BlockingIOError
  | OSError (errno : string)
  | UnboundLocalError (var : string)
  | SystemExit (code : Z)
  | pywintypes_error (winerror : Z).

(** A call returns a value, raises, or never comes back (a blocking system
    call that nobody wakes up, a child that never exits). *)
Inductive outcome (A : Type) : Type :=
  | Ok (a : A)
  | Exc (e : exn)
  | Hang.
Arguments Ok {A} a.
Arguments Exc {A} e.
Arguments Hang {A}.

(** State and exception monad, generic in the state. *)
Definition M (S A : Type) : Type := S → outcome A * S.

Definition pure {S A} (a : A) : M S A := λ s, (Ok a, s).

Definition raise {S A} (e : exn) : M S A := λ s, (Exc e, s).

Definition bind {S A B} (m : M S A) (k : A → M S B) : M S B :=
  λ s, match m s with
       | (Ok a, s') => k a s'
       | (Exc e, s') => (Exc e, s')
       | (Hang, s') => (Hang, s')
       end.

Notation "'let!' x ':=' m 'in' k" := (bind m (λ x, k))
  (at level 10, x binder, m at level 100, k at level 200,
   format "'[v' 'let!'  x  ':='  m  'in' '/' k ']'").
Notation "m ;; k" := (bind m (λ _, k))
  (at level 100, k at level 200, right associativity).

(** [assert cond, msg] *)
Definition assert {S} (cond : bool) (msg : string) : M S unit :=
  if cond then pure () else raise (AssertionError msg).

(** [try: body finally: fin].  The [finally] clause runs when the body
    returned and when it raised; an exception of the [finally] clause
    replaces the outcome of the body. *)
Definition try_finally {S A} (body : M S A) (fin : M S unit) : M S A :=
  λ s, match body s with
       | (Hang, s') => (Hang, s')
       | (r, s') =>
           match fin s' with
           | (Ok _, s'') => (r, s'')
           | (Exc e, s'') => (Exc e, s'')
           | (Hang, s'') => (Hang, s'')
           end
       end.

(** [try: body except BlockingIOError: handler] *)
Definition except_BlockingIOError {S A} (body : M S A) (handler : M S A) : M S A :=
  λ s, match body s with
       | (Exc BlockingIOError, s') => handler s'
       | r => r
       end.

(** ** The operating system as the script sees it *)

Inductive pipe_end : Type := ReadEnd | WriteEnd.

Global Instance pipe_end_eq_dec : EqDecision pipe_end.
Proof. solve_decision. Defined.

(** A directory entry.  A FIFO names a kernel pipe object. *)
Inductive node : Type :=
  | RegularFile
  | Directory
  | Fifo (p : nat).

Global Instance node_eq_dec : EqDecision node.
Proof. solve_decision. Defined.

(** An open descriptor of this process on one end of a pipe object. *)
Record fd_entry : Type := FdEntry {
  fd_pipe : nat;
  fd_end : pipe_end;
  fd_inheritable : bool;
  fd_blocking : bool
}.

(** The objects shared with other processes: the file system, the bytes
    buffered in each pipe object (one byte is one token) and the Win32
    kernel state behind [win32event] / [win32api]. *)
Record kernel (K : Type) : Type := Kernel {
  fs : gmap string node;
  pipes : gmap nat (list byte);
  win32 : K
}.
Arguments Kernel {K} _ _ _.
Arguments fs {K} _.
Arguments pipes {K} _.
Arguments win32 {K} _.

(** The state of the manager process: [os.environ], the descriptor table,
    what it printed, and the shared kernel objects. *)
Record world (K : Type) : Type := World {
  environ : gmap string string;
  fds : gmap Z fd_entry;
  stdout : list string;
  stderr : list string;
  kern : kernel K
}.
Arguments World {K} _ _ _ _ _.
Arguments environ {K} _.
Arguments fds {K} _.
Arguments stdout {K} _.
Arguments stderr {K} _.
Arguments kern {K} _.

Definition set_fds {K} (t : gmap Z fd_entry) (st : world K) : world K :=
  World (environ st) t (stdout st) (stderr st) (kern st).

Definition set_kern {K} (k : kernel K) (st : world K) : world K :=
  World (environ st) (fds st) (stdout st) (stderr st) k.

Definition set_fs {K} (t : gmap string node) (st : world K) : world K :=
  set_kern (Kernel t (pipes (kern st)) (win32 (kern st))) st.

Definition set_pipes {K} (t : gmap nat (list byte)) (st : world K) : world K :=
  set_kern (Kernel (fs (kern st)) t (win32 (kern st))) st.

(** The bytes waiting in pipe object [p]. *)
Definition pipe_buffer {K} (p : nat) (st : world K) : list byte :=
  default [] (pipes (kern st) !! p).

(** Does this process hold a descriptor on end [e] of pipe object [p]? *)
Definition has_end (e : pipe_end) (p : nat) (t : gmap Z fd_entry) : bool :=
  existsb (λ kv, bool_decide (fd_pipe kv.2 = p) && bool_decide (fd_end kv.2 = e))
          (map_to_list t).

(** The descriptor a call that opens one returns: the lowest number that
    is not in use, as POSIX has it.  The search from [n] upwards ends within
    [size t] steps, since [t] cannot fill more numbers than it has entries. *)
Fixpoint lowest_free (t : gmap Z fd_entry) (steps : nat) (n : Z) : Z :=
  match steps with
  | O => n
  | S steps' => if bool_decide (is_Some (t !! n)) then lowest_free t steps' (n + 1) else n
  end.

Definition new_fd (t : gmap Z fd_entry) : Z := lowest_free t (size t) 0.

Definition new_pipe (t : gmap nat (list byte)) : nat := fresh (dom t).

(** The two reports of the verification, the same f-strings in
    [check_sem_count] and in [check_pipe_tokens]. *)
Definition missing_message (expected_count read_count : Z) : string :=
  "ERROR: " +:+ pretty (expected_count - read_count) +:+
  " were missing from the token pool (got " +:+ pretty read_count +:+
  ", expected " +:+ pretty expected_count +:+ ")".

Definition extra_message (expected_count read_count : Z) : string :=
  "ERROR: " +:+ pretty (read_count - expected_count) +:+
  " extra tokens were released to the token pool (got " +:+ pretty read_count +:+
  ", expected " +:+ pretty expected_count +:+ ")".

(** The capacity of a pipe buffer and the largest write that is atomic,
    in bytes: the defaults of Linux, see pipe(7). *)
Definition PIPE_CAPACITY : Z := 65536.

Definition PIPE_BUF : Z := 4096.

Arguments PIPE_CAPACITY : simpl never.
Arguments PIPE_BUF : simpl never.

(** [os.path.dirname(path)] of [posixpath]: the path up to its last slash,
    without trailing slashes unless it is made of slashes only. *)
Fixpoint has_slash (p : string) : bool :=
  match p with
  | EmptyString => false
  | String c rest => Ascii.eqb c "/"%char || has_slash rest
  end.

Fixpoint upto_last_slash (p : string) : string :=
  match p with
  | EmptyString => EmptyString
  | String c rest =>
      if Ascii.eqb c "/"%char || has_slash rest then String c (upto_last_slash rest)
      else EmptyString
  end.

Fixpoint all_slashes (p : string) : bool :=
  match p with
  | EmptyString => true
  | String c rest => Ascii.eqb c "/"%char && all_slashes rest
  end.

Fixpoint rstrip_slashes (p : string) : string :=
  match p with
  | EmptyString => EmptyString
  | String c rest =>
      let rest' := rstrip_slashes rest in
      if Ascii.eqb c "/"%char && String.eqb rest' "" then EmptyString else String c rest'
  end.

(** Is the last character of [p] a slash? *)
Fixpoint ends_with_slash (p : string) : bool :=
  match p with
  | EmptyString => false
  | String c EmptyString => Ascii.eqb c "/"%char
  | String _ rest => ends_with_slash rest
  end.

Definition dirname (path : string) : string :=
  let head := upto_last_slash path in
  if negb (String.eqb head "") && negb (all_slashes head) then rstrip_slashes head
  else head.

(** Why the kernel cannot create an entry at [path], if it cannot: the
    empty path names nothing, and the directory part of the path has to be
    a directory.  The current directory (an empty directory part) and the
    root are there; any other directory is looked up in the file system,
    whose keys are taken to be normalised paths. *)
Definition parent_error (path : string) (t : gmap string node) : option exn :=
  if String.eqb path "" then Some (FileNotFoundError path)
  else
    let d := dirname path in
    if String.eqb d "" || all_slashes d then None
    else match t !! d with
         | Some Directory => None
         | Some _ => Some (OSError "ENOTDIR")
         | None => Some (FileNotFoundError path)
         end.

(** ** [os] calls of the POSIX branch *)

Section Posix.
Context {K : Type}.

(** [dict(os.environ)] *)
Definition os_environ : M (world K) (gmap string string) :=
  λ st, (Ok (environ st), st).

(** [print(msg, file=sys.stderr)] *)
Definition print_stderr (msg : string) : M (world K) unit :=
  λ st, (Ok (), World (environ st) (fds st) (stdout st) (stderr st ++ [msg]) (kern st)).

(** [print(msg)] *)
Definition print (msg : string) : M (world K) unit :=
  λ st, (Ok (), World (environ st) (fds st) (stdout st ++ [msg]) (stderr st) (kern st)).

(** [os.pipe()]: a new pipe object, empty, and two new descriptors on it,
    not inheritable and blocking. *)
Definition os_pipe : M (world K) (Z * Z) :=
  λ st,
    let p := new_pipe (pipes (kern st)) in
    let r := new_fd (fds st) in
    let t1 := <[r := FdEntry p ReadEnd false true]> (fds st) in
    let w := new_fd t1 in
    let t2 := <[w := FdEntry p WriteEnd false true]> t1 in
    (Ok (r, w), set_fds t2 (set_pipes (<[p := []]> (pipes (kern st))) st)).

(** [os.set_inheritable(fd, inheritable)] *)
Definition os_set_inheritable (fd : Z) (inheritable : bool) : M (world K) unit :=
  λ st, match fds st !! fd with
        | Some d =>
            (Ok (), set_fds (<[fd := FdEntry (fd_pipe d) (fd_end d) inheritable (fd_blocking d)]> (fds st)) st)
        | None => (Exc (OSError "EBADF"), st)
        end.

(** [os.set_blocking(fd, blocking)] *)
Definition os_set_blocking (fd : Z) (blocking : bool) : M (world K) unit :=
  λ st, match fds st !! fd with
        | Some d =>
            (Ok (), set_fds (<[fd := FdEntry (fd_pipe d) (fd_end d) (fd_inheritable d) blocking]> (fds st)) st)
        | None => (Exc (OSError "EBADF"), st)
        end.

(** [os.write(fd, data)] on a pipe, see pipe(7).  A write of no bytes
    returns 0; a pipe without a read end gives [EPIPE].  Bytes that fit
    into the free space of the buffer are appended and their number is
    returned.  When they do not all fit, a blocking descriptor waits for a
    reader to make room, which never happens while this process waits;
    before that, a write of more than [PIPE_BUF] bytes has filled the
    buffer.  A non-blocking descriptor raises [BlockingIOError] when the
    buffer is full or the write is of at most [PIPE_BUF] bytes, and
    otherwise writes the bytes there is room for and returns their
    number.  (Free space is counted in bytes; Linux counts pages, which is
    the same on an empty pipe, the only kind the script writes to.) *)
Definition os_write (fd : Z) (data : list byte) : M (world K) Z :=
  λ st, match fds st !! fd with
        | Some (FdEntry p WriteEnd _ blocking) =>
            let buf := pipe_buffer p st in
            let n := Z.of_nat (length data) in
            let free := PIPE_CAPACITY - Z.of_nat (length buf) in
            let written (k : Z) :=
              set_pipes (<[p := buf ++ take (Z.to_nat k) data]> (pipes (kern st))) st in
            if n =? 0 then (Ok 0, st)
            else if negb (has_end ReadEnd p (fds st)) then (Exc (OSError "EPIPE"), st)
            else if n <=? free then (Ok n, written n)
            else if blocking then
              (Hang, if n <=? PIPE_BUF then st else written free)
            else if (n <=? PIPE_BUF) || (free <=? 0) then (Exc BlockingIOError, st)
            else (Ok free, written free)
        | _ => (Exc (OSError "EBADF"), st)
        end.

(** [os.read(fd, n)]: up to [n] buffered bytes.  On an empty pipe: end of
    file (no bytes) when no write end is open, [BlockingIOError] on a
    non-blocking descriptor, and otherwise the call blocks. *)
Definition os_read (fd : Z) (n : nat) : M (world K) (list byte) :=
  λ st, match fds st !! fd with
        | Some (FdEntry p ReadEnd _ blocking) =>
            match pipe_buffer p st with
            | [] =>
                if negb (has_end WriteEnd p (fds st)) then (Ok [], st)
                else if blocking then (Hang, st)
                else (Exc BlockingIOError, st)
            | buf => (Ok (take n buf), set_pipes (<[p := drop n buf]> (pipes (kern st))) st)
            end
        | _ => (Exc (OSError "EBADF"), st)
        end.

(** [os.close(fd)] *)
Definition os_close (fd : Z) : M (world K) unit :=
  λ st, match fds st !! fd with
        | Some _ => (Ok (), set_fds (delete fd (fds st)) st)
        | None => (Exc (OSError "EBADF"), st)
        end.

(** [os.path.exists(path)] *)
Definition os_path_exists (path : string) : M (world K) bool :=
  λ st, (Ok (bool_decide (is_Some (fs (kern st) !! path))), st).

(** [os.remove(path)] *)
Definition os_remove (path : string) : M (world K) unit :=
  λ st, match fs (kern st) !! path with
        | None => (Exc (FileNotFoundError path), st)
        | Some Directory => (Exc (IsADirectoryError path), st)
        | Some _ => (Ok (), set_fs (delete path (fs (kern st))) st)
        end.

(** [os.mkfifo(path)]: a new, empty pipe object named [path], in a
    directory that exists. *)
Definition os_mkfifo (path : string) : M (world K) unit :=
  λ st, match parent_error path (fs (kern st)) with
        | Some e => (Exc e, st)
        | None =>
            match fs (kern st) !! path with
            | Some _ => (Exc (FileExistsError path), st)
            | None =>
                let p := new_pipe (pipes (kern st)) in
                (Ok (), set_kern (Kernel (<[path := Fifo p]> (fs (kern st)))
                                         (<[p := []]> (pipes (kern st)))
                                         (win32 (kern st))) st)
            end
        end.

Inductive open_flag : Type := O_RDONLY | O_WRONLY | O_NONBLOCK.

Global Instance open_flag_eq_dec : EqDecision open_flag.
Proof. solve_decision. Defined.

(** [os.open(path, flags)] on a FIFO (the only kind of file the script
    opens).  Without [O_NONBLOCK] the call waits for a peer on the other
    end; with it, opening for reading succeeds at once and opening for
    writing fails with [ENXIO] when no read end is open. *)
Definition os_open (path : string) (flags : list open_flag) : M (world K) Z :=
  λ st,
    let e := if bool_decide (O_WRONLY ∈ flags) then WriteEnd else ReadEnd in
    let nonblock := bool_decide (O_NONBLOCK ∈ flags) in
    match fs (kern st) !! path with
    | None => (Exc (FileNotFoundError path), st)
    | Some (Fifo p) =>
        let peer := match e with
                    | ReadEnd => has_end WriteEnd p (fds st)
                    | WriteEnd => has_end ReadEnd p (fds st)
                    end in
        let fd := new_fd (fds st) in
        let opened := (Ok fd, set_fds (<[fd := FdEntry p e false (negb nonblock)]> (fds st)) st) in
        if peer then opened
        else if negb nonblock then (Hang, st)
        else match e with
             | ReadEnd => opened
             | WriteEnd => (Exc (OSError "ENXIO"), st)
             end
    | Some Directory => (Exc (IsADirectoryError path), st)
    | Some RegularFile => (Exc (OSError "ENOTSUP"), st)
    end.

(** ** The pipe and FIFO backends *)

(** [b"x"] *)
Definition token : byte := x78.

(** [create_pipe(job_count)] *)
Definition create_pipe (job_count : Z) : M (world K) (Z * Z * gmap string string) :=
  let! '(read_fd, write_fd) := os_pipe in
  os_set_inheritable read_fd true ;;
  os_set_inheritable write_fd true ;;
  assert (0 <? job_count) "Token count must be strictly positive" ;;
  let! _ := os_write write_fd (replicate (Z.to_nat (job_count - 1)) token) in
  let! env := os_environ in
  let env := <["MAKEFLAGS" :=
                 " -j" +:+ pretty job_count +:+
                 " --jobserver-fds=" +:+ pretty read_fd +:+ "," +:+ pretty write_fd +:+
                 " --jobserver-auth=" +:+ pretty read_fd +:+ "," +:+ pretty write_fd]> env in
  pure (read_fd, write_fd, env).

(** [create_fifo(path, job_count)] *)
Definition create_fifo (path : string) (job_count : Z)
  : M (world K) (Z * Z * gmap string string) :=
  let! stale := os_path_exists path in
  (if stale then os_remove path else pure ()) ;;
  os_mkfifo path ;;
  let! read_fd := os_open path [O_RDONLY; O_NONBLOCK] in
  let! write_fd := os_open path [O_WRONLY; O_NONBLOCK] in
  assert (0 <? job_count) "Token count must be strictly positive" ;;
  let! _ := os_write write_fd (replicate (Z.to_nat (job_count - 1)) token) in
  let! env := os_environ in
  let env := <["MAKEFLAGS" :=
                 (" -j" +:+ pretty job_count +:+ " --jobserver-auth=fifo:") +:+ path]> env in
  pure (read_fd, write_fd, env).

(** The [while True] loop of [check_pipe_tokens]: one [os.read] of one
    byte per turn, until the read returns nothing or raises
    [BlockingIOError].  [None] stands for [break], [Some c] for the next
    turn with [read_count = c]. *)
Definition drain_step (read_fd : Z) (read_count : Z) : M (world K) (option Z) :=
  except_BlockingIOError
    (let! token := os_read read_fd 1 in
     if bool_decide (length token = 0%nat) then pure None
     else pure (Some (read_count + 1)))
    (pure None).

Fixpoint drain_loop (fuel : nat) (read_fd : Z) (read_count : Z) : M (world K) Z :=
  match fuel with
  | O => λ st, (Hang, st)
  | S fuel' =>
      let! next := drain_step read_fd read_count in
      match next with
      | None => pure read_count
      | Some c => drain_loop fuel' read_fd c
      end
  end.

(** Turns the loop can take from a state: every turn but the last removes
    one byte from the buffer behind [read_fd]. *)
Definition drain_fuel (read_fd : Z) (st : world K) : nat :=
  match fds st !! read_fd with
  | Some d => S (length (pipe_buffer (fd_pipe d) st))
  | None => 1
  end.

(** The drain of [check_pipe_tokens]: [os.set_blocking(read_fd, False)],
    [read_count = 0] and the loop; the value is the final [read_count]. *)
Definition drain_and_count (read_fd : Z) : M (world K) Z :=
  os_set_blocking read_fd false ;;
  (λ st, drain_loop (drain_fuel read_fd st) read_fd 0 st).

(** [check_pipe_tokens(read_fd, job_count)] *)
Definition check_pipe_tokens (read_fd : Z) (job_count : Z) : M (world K) Z :=
  if job_count <=? 1 then pure 0
  else
    let expected_count := job_count - 1 in
    let! read_count := drain_and_count read_fd in
    if read_count <? expected_count then
      print_stderr (missing_message expected_count read_count) ;;
      pure 1
    else if expected_count <? read_count then
      print_stderr (extra_message expected_count read_count) ;;
      pure 1
    else pure 0.

End Posix.

(** ** Local variables of a function body

    The [try] block of [main] assigns local variables that its [finally]
    clause reads, so the block runs over the local variables and the world
    together. *)

Definition lift {L W A} (m : M W A) : M (L * W) A :=
  λ '(l, w), let '(r, w') := m w in (r, (l, w')).

(** Reading a local variable that has not been assigned raises. *)
Definition load {L W A} (var : string) (proj : L → option A) : M (L * W) A :=
  λ '(l, w), match proj l with
             | Some a => (Ok a, (l, w))
             | None => (Exc (UnboundLocalError var), (l, w))
             end.

Definition store {L W} (upd : L → L) : M (L * W) unit :=
  λ '(l, w), (Ok (), (upd l, w)).

Definition with_locals {L W A} (l0 : L) (m : M (L * W) A) : M W A :=
  λ w, let '(r, (_, w')) := m (l0, w) in (r, w').

(** ** The Win32 calls of the semaphore backend

    [win32event] and [win32api] belong to pywin32, not to this repository:
    they are an interface over some kernel state [K].  The arguments of
    [CreateSemaphore] are positional and named as pywin32 names them. *)
Class Win32API (K : Type) : Type := {
  CreateSemaphore :
    ∀ (SemaphoreAttributes : option unit) (InitialCount : Z) (MaximumCount : Z)
      (SemaphoreName : string), M K Z;
  (** returns the count before the release *)
  ReleaseSemaphore : ∀ (hSemaphore : Z) (ReleaseCount : Z), M K Z;
  CloseHandle : ∀ (handle : Z), M K unit
}.

(** The parsed command line ([argparse] is outside the model). *)
Record arguments : Type := Namespace {
  name : string;
  pipe : bool;
  fifo : string;
  check : bool;
  help_usage : bool;
  job_count : Z;
  command : list string
}.

(** The local variables of the POSIX branch of [main]; [exit_code] and
    [delete_fifo] are assigned before the [try]. *)
Record locals : Type := Locals {
  var_read_fd : option Z;
  var_write_fd : option Z;
  var_ret : option Z;
  var_exit_code : Z;
  var_delete_fifo : string
}.

Definition _DEFAULT_NAME : string := "jobserver_tokens".

Section Manager.
Context {K : Type} {W32 : Win32API K}.

(** [sys.platform in ("win32", "cygwin")] *)
Variable _IS_WINDOWS : bool.

(** The child command, an external collaborator: given the command line,
    its environment and the descriptors it inherits, it acts on the shared
    kernel objects and exits with a status, or the launch raises, or it
    never exits.  It cannot touch the descriptor table of the manager. *)
Variable child :
  list string → gmap string string → gmap Z fd_entry → kernel K → outcome Z * kernel K.

(** A call into pywin32. *)
Definition win32_call {A} (m : M K A) : M (world K) A :=
  λ st, let '(r, k) := m (win32 (kern st)) in
        (r, set_kern (Kernel (fs (kern st)) (pipes (kern st)) k) st).

(** [subprocess.run(command, env=env, pass_fds=pass_fds).returncode]:
    with [env=None] the child inherits [os.environ]; it inherits the
    standard descriptors and [pass_fds]. *)
Definition subprocess_run (command : list string) (env : option (gmap string string))
    (pass_fds : list Z) : M (world K) Z :=
  λ st,
    let inherited := filter (λ kv, kv.1 ∈ [0; 1; 2] ++ pass_fds) (fds st) in
    let '(r, k) := child command (default (environ st) env) inherited (kern st) in
    (r, set_kern k st).

(** [create_sem(sem_name, job_count)] *)
Definition create_sem (sem_name : string) (job_count : Z)
  : M (world K) (Z * gmap string string) :=
  assert (0 <? job_count) "Token count must be strictly positive" ;;
  let! handle := win32_call (CreateSemaphore None job_count (job_count - 1) sem_name) in
  assert (negb (handle =? 0)) "Error creating Win32 semaphore" ;;
  let! env := os_environ in
  let env := <["MAKEFLAGS" := " -j{job_count} --jobserver-auth=" +:+ sem_name]> env in
  pure (handle, env).

(** [check_sem_count(handle, job_count)] *)
Definition check_sem_count (handle : Z) (job_count : Z) : M (world K) Z :=
  if job_count <=? 1 then pure 0
  else
    let expected_count := job_count - 1 in
    let! read_count := win32_call (ReleaseSemaphore handle 1) in
    if read_count <? expected_count then
      print_stderr (missing_message expected_count read_count) ;;
      pure 1
    else if expected_count <? read_count then
      print_stderr (extra_message expected_count read_count) ;;
      pure 1
    else pure 0.

(** [print_usage()]; the text of the examples is not modelled. *)
Definition print_usage : M (world K) Z :=
  print "Example usage:" ;;
  pure 0.

(** The [try] block of the POSIX branch of [main]. *)
Definition main_posix_try (args : arguments) : M (locals * world K) unit :=
  (if pipe args then
     let! '(read_fd, write_fd, env) := lift (create_pipe (job_count args)) in
     store (λ l, Locals (Some read_fd) (Some write_fd) (var_ret l)
                        (var_exit_code l) (var_delete_fifo l)) ;;
     let! ret := lift (subprocess_run (command args) (Some env) [read_fd; write_fd]) in
     store (λ l, Locals (var_read_fd l) (var_write_fd l) (Some ret)
                        (var_exit_code l) (var_delete_fifo l))
   else if negb (String.eqb (fifo args) "") then
     let! '(read_fd, write_fd, env) := lift (create_fifo (fifo args) (job_count args)) in
     store (λ l, Locals (Some read_fd) (Some write_fd) (var_ret l)
                        (var_exit_code l) (var_delete_fifo l)) ;;
     let! ret := lift (subprocess_run (command args) (Some env) []) in
     store (λ l, Locals (var_read_fd l) (var_write_fd l) (Some ret)
                        (var_exit_code l) (var_delete_fifo l)) ;;
     store (λ l, Locals (var_read_fd l) (var_write_fd l) (var_ret l)
                        (var_exit_code l) (fifo args))
   else pure ()) ;;
  let! ret := load "ret" var_ret in
  store (λ l, Locals (var_read_fd l) (var_write_fd l) (var_ret l) ret (var_delete_fifo l)) ;;
  if (ret =? 0) && check args then
    let! read_fd := load "read_fd" var_read_fd in
    let! exit_code := lift (check_pipe_tokens read_fd (job_count args)) in
    store (λ l, Locals (var_read_fd l) (var_write_fd l) (var_ret l)
                       exit_code (var_delete_fifo l))
  else pure ().

(** Its [finally] clause. *)
Definition main_posix_finally : M (locals * world K) unit :=
  let! read_fd := load "read_fd" var_read_fd in
  lift (os_close read_fd) ;;
  let! write_fd := load "write_fd" var_write_fd in
  lift (os_close write_fd) ;;
  let! delete_fifo := load "delete_fifo" (λ l, Some (var_delete_fifo l)) in
  if negb (String.eqb delete_fifo "") then lift (os_remove delete_fifo)
  else pure ().

(** [main()], from the parsed arguments on. *)
Definition main (args : arguments) : M (world K) Z :=
  if help_usage args then print_usage
  else if bool_decide (command args = []) then raise (SystemExit 2)
  else
    let job_count := job_count args in
    if job_count <=? 0 then
      subprocess_run (command args) None []
    else if _IS_WINDOWS then
      let! '(handle, env) := create_sem (name args) job_count in
      try_finally
        (let! exit_code := subprocess_run (command args) (Some env) [] in
         if (exit_code =? 0) && check args then check_sem_count handle job_count
         else pure exit_code)
        (win32_call (CloseHandle handle))
    else
      with_locals (Locals None None None 0 "")
        (try_finally (main_posix_try args) main_posix_finally ;;
         load "exit_code" (λ l, Some (var_exit_code l))).

End Manager.

(** ** Instances to run the model on *)

(** Win32 semaphores as documented: a named object with a count between 0
    and its maximum.  [CreateSemaphore] rejects a negative initial count, a
    maximum that is not positive and an initial count above the maximum
    (ERROR_INVALID_PARAMETER, 87), and opens the object when the name
    exists; [ReleaseSemaphore] refuses to go over the maximum
    (ERROR_TOO_MANY_POSTS, 298).  With [validate = false] the parameter
    check of [CreateSemaphore] is left out. *)
Record semaphore : Type := Semaphore {
  sem_count : Z;
  sem_maximum : Z
}.

Inductive win32_event : Type :=
  | CreateSemaphore_call (SemaphoreAttributes : option unit) (InitialCount : Z)
      (MaximumCount : Z) (SemaphoreName : string)
  | ReleaseSemaphore_call (hSemaphore : Z) (ReleaseCount : Z)
  | CloseHandle_call (handle : Z).

Record win32_kernel : Type := Win32Kernel {
  semaphores : gmap string semaphore;
  handles : gmap Z string;
  calls : list win32_event
}.

Definition win32_CreateSemaphore (validate : bool) (SemaphoreAttributes : option unit)
    (InitialCount MaximumCount : Z) (SemaphoreName : string) : M win32_kernel Z :=
  λ k,
    let log := calls k ++
      [CreateSemaphore_call SemaphoreAttributes InitialCount MaximumCount SemaphoreName] in
    if validate && ((InitialCount <? 0) || (MaximumCount <=? 0) || (MaximumCount <? InitialCount))
    then (Exc (pywintypes_error 87), Win32Kernel (semaphores k) (handles k) log)
    else
      let h := fresh ({[0]} ∪ dom (handles k)) in
      let sems := match semaphores k !! SemaphoreName with
                  | Some _ => semaphores k
                  | None => <[SemaphoreName := Semaphore InitialCount MaximumCount]> (semaphores k)
                  end in
      (Ok h, Win32Kernel sems (<[h := SemaphoreName]> (handles k)) log).

Definition win32_ReleaseSemaphore (hSemaphore : Z) (ReleaseCount : Z) : M win32_kernel Z :=
  λ k,
    let log := calls k ++ [ReleaseSemaphore_call hSemaphore ReleaseCount] in
    match handles k !! hSemaphore with
    | None => (Exc (pywintypes_error 6), Win32Kernel (semaphores k) (handles k) log)
    | Some n =>
        match semaphores k !! n with
        | None => (Exc (pywintypes_error 6), Win32Kernel (semaphores k) (handles k) log)
        | Some s =>
            if (ReleaseCount <=? 0) || (sem_maximum s <? sem_count s + ReleaseCount)
            then (Exc (pywintypes_error 298), Win32Kernel (semaphores k) (handles k) log)
            else (Ok (sem_count s),
                  Win32Kernel (<[n := Semaphore (sem_count s + ReleaseCount) (sem_maximum s)]>
                                 (semaphores k))
                              (handles k) log)
        end
    end.

Definition win32_CloseHandle (handle : Z) : M win32_kernel unit :=
  λ k,
    let log := calls k ++ [CloseHandle_call handle] in
    match handles k !! handle with
    | None => (Exc (pywintypes_error 6), Win32Kernel (semaphores k) (handles k) log)
    | Some _ => (Ok (), Win32Kernel (semaphores k) (delete handle (handles k)) log)
    end.

Definition win32_documented : Win32API win32_kernel :=
  {| CreateSemaphore := win32_CreateSemaphore true;
     ReleaseSemaphore := win32_ReleaseSemaphore;
     CloseHandle := win32_CloseHandle |}.

Definition win32_unchecked : Win32API win32_kernel :=
  {| CreateSemaphore := win32_CreateSemaphore false;
     ReleaseSemaphore := win32_ReleaseSemaphore;
     CloseHandle := win32_CloseHandle |}.

(** Children. *)

(** Exits with [code] and leaves the token pool alone. *)
Definition child_exit {K} (code : Z) (command : list string) (env : gmap string string)
    (inherited : gmap Z fd_entry) (k : kernel K) : outcome Z * kernel K :=
  (Ok code, k).

(** The command cannot be started: [subprocess.run] raises. *)
Definition child_not_found {K} (command : list string) (env : gmap string string)
    (inherited : gmap Z fd_entry) (k : kernel K) : outcome Z * kernel K :=
  (Exc (FileNotFoundError (default "" (head command))), k).

(** Takes [n] tokens out of every pipe and never gives them back. *)
Definition child_leak {K} (n : nat) (code : Z) (command : list string)
    (env : gmap string string) (inherited : gmap Z fd_entry) (k : kernel K)
  : outcome Z * kernel K :=
  (Ok code, Kernel (fs k) (drop n <$> pipes k) (win32 k)).

(** Writes [n] tokens it never took into every pipe. *)
Definition child_extra {K} (n : nat) (code : Z) (command : list string)
    (env : gmap string string) (inherited : gmap Z fd_entry) (k : kernel K)
  : outcome Z * kernel K :=
  (Ok code, Kernel (fs k) ((λ buf, buf ++ replicate n token) <$> pipes k) (win32 k)).

(** Takes [n] tokens from every semaphore and never gives them back. *)
Definition child_acquires (n : Z) (code : Z) (command : list string)
    (env : gmap string string) (inherited : gmap Z fd_entry) (k : kernel win32_kernel)
  : outcome Z * kernel win32_kernel :=
  (Ok code,
   Kernel (fs k) (pipes k)
     (Win32Kernel ((λ s, Semaphore (sem_count s - n) (sem_maximum s)) <$> semaphores (win32 k))
                  (handles (win32 k)) (calls (win32 k)))).

(** A process started from a shell: the three standard descriptors on a
    terminal (pipe objects 0 and 1 stand for it), a small environment with
    a [MAKEFLAGS] of its own, and an empty build directory [/build]. *)
Definition shell_world {K} (k : K) : world K :=
  World (<["MAKEFLAGS" := "-j2"]> (<["PATH" := "/usr/bin"]> ∅))
        (<[2 := FdEntry 1 WriteEnd true true]>
           (<[1 := FdEntry 1 WriteEnd true true]>
              (<[0 := FdEntry 0 ReadEnd true true]> ∅)))
        [] []
        (Kernel (<["/build" := Directory]> ∅) (<[1%nat := []]> (<[0%nat := []]> ∅)) k).

Definition no_win32 : win32_kernel := Win32Kernel ∅ ∅ [].

(** Command lines: [--check -j4 ninja] on the default FIFO, the same with
    [--pipe], [-j4 ninja] without [--check], and [-j0 ninja]. *)
Definition args_fifo_check : arguments :=
  Namespace _DEFAULT_NAME false "/build/jobserver_tokens" true false 4 ["ninja"].

Definition args_pipe_check : arguments :=
  Namespace _DEFAULT_NAME true "/build/jobserver_tokens" true false 4 ["ninja"].

Definition args_fifo : arguments :=
  Namespace _DEFAULT_NAME false "/build/jobserver_tokens" false false 4 ["ninja"].

Definition args_disabled : arguments :=
  Namespace _DEFAULT_NAME false "/build/jobserver_tokens" true false 0 ["ninja"].

(** A pool at teardown: descriptors 3 and 4 on pipe object 2, which holds
    [tokens] tokens, and handle 1 on a semaphore of count [tokens]. *)
Definition pool_world (tokens : nat) : world win32_kernel :=
  World ∅
        (<[4 := FdEntry 2 WriteEnd true true]> (<[3 := FdEntry 2 ReadEnd true true]> ∅))
        [] []
        (Kernel ∅ (<[2%nat := replicate tokens token]> ∅)
           (Win32Kernel (<[_DEFAULT_NAME := Semaphore (Z.of_nat tokens) 4]> ∅)
                        (<[1 := _DEFAULT_NAME]> ∅) [])).

(** [needle in hay] on strings. *)
Fixpoint is_substring (needle hay : string) : bool :=
  String.prefix needle hay ||
  match hay with
  | EmptyString => false
  | String _ rest => is_substring needle rest
  end.


(** ** Vocabulary of the statements *)

Section Vocabulary.
Context {K : Type}.
Implicit Types (st : world K) (N : Z).

(** What [create_pipe] and [create_fifo] leave behind: descriptor [r] on
    the read end and [w] on the write end of one pipe object [p] holding
    the tokens that were written, [job_count - 1] of them or as many as the
    pipe takes, and nothing else; the rest of the process state is as [st]
    had it. *)
Definition pool_created (N : Z) (st : world K) (r w : Z) (p : nat) (st' : world K) : Prop :=
  r ≠ w ∧
  fds st !! r = None ∧ fds st !! w = None ∧
  (∃ inh blk, fds st' !! r = Some (FdEntry p ReadEnd inh blk)) ∧
  (∃ inh blk, fds st' !! w = Some (FdEntry p WriteEnd inh blk)) ∧
  (∀ fd, fd ≠ r → fd ≠ w → fds st' !! fd = fds st !! fd) ∧
  pipe_buffer p st' = replicate (Z.to_nat (Z.min (N - 1) PIPE_CAPACITY)) token ∧
  environ st' = environ st ∧ stdout st' = stdout st ∧ stderr st' = stderr st ∧
  win32 (kern st') = win32 (kern st).

(** [m] returns from [st]: it does not raise and does not wait for ever. *)
Definition returns {A} (m : M (world K) A) (st : world K) : Prop :=
  ∃ a st', m st = (Ok a, st').

(** A FIFO can be made at [path]: nothing stands in the way of [os.remove]
    and [os.mkfifo], that is, [path] is not a directory and the directory
    it lies in exists. *)
Definition fifo_creatable (path : string) (st : world K) : Prop :=
  fs (kern st) !! path ≠ Some Directory ∧ parent_error path (fs (kern st)) = None.

(** A pool right after its creation: [r] and [w] are the two ends of pipe
    object [p], its buffer is [N - 1] tokens, and a drain counts them. *)
Definition pool_filled (N r w : Z) (p : nat) (st' : world K) : Prop :=
  (∃ inh blk, fds st' !! r = Some (FdEntry p ReadEnd inh blk)) ∧
  (∃ inh blk, fds st' !! w = Some (FdEntry p WriteEnd inh blk)) ∧
  pipe_buffer p st' = replicate (Z.to_nat (N - 1)) token ∧
  ∃ st'', drain_and_count r st' = (Ok (N - 1), st'').

(** [st'] is [st] up to the buffer of pipe object [p]. *)
Definition same_but_pipe (p : nat) (st st' : world K) : Prop :=
  fds st' = fds st ∧ environ st' = environ st ∧
  stdout st' = stdout st ∧ stderr st' = stderr st ∧
  fs (kern st') = fs (kern st) ∧ win32 (kern st') = win32 (kern st) ∧
  ∀ q, q ≠ p → pipes (kern st') !! q = pipes (kern st) !! q.

(** The report a verification with [read_count] tokens read back leaves
    on [stderr]. *)
Definition verification_report (job_count read_count : Z) : list string :=
  if read_count <? job_count - 1 then [missing_message (job_count - 1) read_count]
  else if job_count - 1 <? read_count then [extra_message (job_count - 1) read_count]
  else [].

(** The state [check_sem_count] leaves when [ReleaseSemaphore] returned
    [actual] and left the Win32 kernel in [k']: the report on [stderr]. *)
Definition sem_verified (N actual : Z) (k' : K) (st1 : world K) : world K :=
  World (environ st1) (fds st1) (stdout st1) (stderr st1 ++ verification_report N actual)
        (Kernel (fs (kern st1)) (pipes (kern st1)) k').

(** Both descriptors closed. *)
Definition closed (r w : Z) (st : world K) : world K :=
  set_fds (delete w (delete r (fds st))) st.

(** What the optional verification does to the exit code and the state:
    it runs when the child exited with 0 and [--check] was given, and with
    a pool of more than one slot it drains the pipe behind [r], reports a
    mismatch on [stderr] and turns it into exit code 1. *)
Definition verified (chk : bool) (N c r : Z) (p : nat) (st1 : world K)
    (code : Z) (stV : world K) : Prop :=
  let actual := Z.of_nat (length (pipe_buffer p st1)) in
  if (c =? 0) && chk && (1 <? N) then
    code = (if actual =? N - 1 then 0 else 1) ∧
    stderr stV = stderr st1 ++ verification_report N actual ∧
    (∃ inh, fds stV = <[r := FdEntry p ReadEnd inh false]> (fds st1)) ∧
    fs (kern stV) = fs (kern st1) ∧ win32 (kern stV) = win32 (kern st1) ∧
    pipe_buffer p stV = []
  else code = c ∧ stV = st1.

(** The exit code rule: the code of the child, unless [--check] was
    given, the child exited with 0 and the verification found a mismatch. *)
Definition exit_code_rule (chk : bool) (c : Z) (mismatch : Prop) (code : Z) : Prop :=
  (c ≠ 0 → code = c) ∧
  (chk = false → code = c) ∧
  (c = 0 → chk = true → mismatch → code ≠ 0) ∧
  (c = 0 → chk = true → ¬ mismatch → code = c).

End Vocabulary.

Section RunVocabulary.
Context {K : Type} {W32 : Win32API K}.
Variable _IS_WINDOWS : bool.
Variable child :
  list string → gmap string string → gmap Z fd_entry → kernel K → outcome Z * kernel K.

(** How a run of [main] from [st] that returned [code] and left [st2]
    came to its exit code.  One of four: the pass-through mode, where the
    run is the child alone; or a semaphore, a pipe or a FIFO was created,
    the child was launched on it and exited with some code [c], and [code]
    follows the exit code rule for [c] and the mismatch the verification
    of that backend can find.  With [c] not 0 the state after the child
    was only cleaned up: handle or descriptors closed, FIFO removed. *)
Definition run_accounts_for_exit_code (args : arguments) (st : world K)
    (code : Z) (st2 : world K) : Prop :=
  let N := job_count args in
  (N ≤ 0 ∧ subprocess_run child (command args) None [] st = (Ok code, st2))
  ∨ (0 < N ∧ _IS_WINDOWS = true ∧ ∃ h env st0 c st1,
       create_sem (name args) N st = (Ok (h, env), st0) ∧
       subprocess_run child (command args) (Some env) [] st0 = (Ok c, st1) ∧
       exit_code_rule (check args) c
         (1 < N ∧ ∃ actual k', ReleaseSemaphore h 1 (win32 (kern st1)) = (Ok actual, k') ∧
                               actual ≠ N - 1)
         code ∧
       (c ≠ 0 → win32_call (CloseHandle h) st1 = (Ok (), st2)))
  ∨ (0 < N ∧ _IS_WINDOWS = false ∧ pipe args = true ∧ ∃ r w env st0 c st1 p,
       create_pipe N st = (Ok (r, w, env), st0) ∧
       pool_created N st r w p st0 ∧
       subprocess_run child (command args) (Some env) [r; w] st0 = (Ok c, st1) ∧
       exit_code_rule (check args) c
         (1 < N ∧ Z.of_nat (length (pipe_buffer p st1)) ≠ N - 1) code ∧
       (c ≠ 0 → st2 = closed r w st1))
  ∨ (0 < N ∧ _IS_WINDOWS = false ∧ pipe args = false ∧ fifo args ≠ "" ∧
     ∃ r w env st0 c st1 p,
       create_fifo (fifo args) N st = (Ok (r, w, env), st0) ∧
       pool_created N st r w p st0 ∧
       subprocess_run child (command args) (Some env) [] st0 = (Ok c, st1) ∧
       exit_code_rule (check args) c
         (1 < N ∧ Z.of_nat (length (pipe_buffer p st1)) ≠ N - 1) code ∧
       (c ≠ 0 → os_remove (fifo args) (closed r w st1) = (Ok (), st2))).

(** The runs of [main] that return an exit code, backend by backend:
    once the child has been launched and has exited with [c], [main]
    returns as soon as its cleanup does not raise, and what it returns is
    [c] or the verdict of the verification.  On Windows the verification
    is one [ReleaseSemaphore] call and the cleanup is [CloseHandle]; on a
    pipe nothing can fail; on a FIFO the cleanup removes the file, which
    has to be there still. *)
Definition run_returns_exit_code (args : arguments) (st : world K) : Prop :=
  let N := job_count args in
  (N ≤ 0 →
   main _IS_WINDOWS child args st = subprocess_run child (command args) None [] st)
  ∧ (0 < N → _IS_WINDOWS = true → ∀ h env st0 c st1,
       create_sem (name args) N st = (Ok (h, env), st0) →
       subprocess_run child (command args) (Some env) [] st0 = (Ok c, st1) →
       if (c =? 0) && check args && (1 <? N) then
         ∀ actual k' st2,
           ReleaseSemaphore h 1 (win32 (kern st1)) = (Ok actual, k') →
           win32_call (CloseHandle h) (sem_verified N actual k' st1) = (Ok (), st2) →
           main _IS_WINDOWS child args st = (Ok (if actual =? N - 1 then 0 else 1), st2)
       else
         ∀ st2,
           win32_call (CloseHandle h) st1 = (Ok (), st2) →
           main _IS_WINDOWS child args st = (Ok c, st2))
  ∧ (0 < N → _IS_WINDOWS = false → pipe args = true → ∀ r w env st0 c st1,
       create_pipe N st = (Ok (r, w, env), st0) →
       subprocess_run child (command args) (Some env) [r; w] st0 = (Ok c, st1) →
       ∃ p code stV,
         main _IS_WINDOWS child args st = (Ok code, closed r w stV) ∧
         verified (check args) N c r p st1 code stV)
  ∧ (0 < N → _IS_WINDOWS = false → pipe args = false → fifo args ≠ "" →
     ∀ r w env st0 c st1,
       create_fifo (fifo args) N st = (Ok (r, w, env), st0) →
       subprocess_run child (command args) (Some env) [] st0 = (Ok c, st1) →
       (∃ n, fs (kern st1) !! fifo args = Some n ∧ n ≠ Directory) →
       ∃ p code stV,
         main _IS_WINDOWS child args st =
           (Ok code, set_fs (delete (fifo args) (fs (kern st1))) (closed r w stV)) ∧
         verified (check args) N c r p st1 code stV).

End RunVocabulary.

(** [env] is [parent] with [MAKEFLAGS] set to [value] and nothing else
    changed. *)
Definition only_MAKEFLAGS_set (parent env : gmap string string) (value : string) : Prop :=
  env !! "MAKEFLAGS" = Some value ∧
  ∀ k : string, k ≠ "MAKEFLAGS" → env !! k = parent !! k.

(** The verdict of a verification that read [actual] tokens back from a
    pool of [N] slots: its result [code] and what it printed on [stderr]. *)
Definition classified (N actual code : Z) (report : list string) : Prop :=
  (actual < N - 1 →
   code ≠ 0 ∧
   report = ["ERROR: " +:+ pretty (N - 1 - actual) +:+
             " were missing from the token pool (got " +:+ pretty actual +:+
             ", expected " +:+ pretty (N - 1) +:+ ")"]) ∧
  (N - 1 < actual →
   code ≠ 0 ∧
   report = ["ERROR: " +:+ pretty (actual - (N - 1)) +:+
             " extra tokens were released to the token pool (got " +:+ pretty actual +:+
             ", expected " +:+ pretty (N - 1) +:+ ")"]) ∧
  (actual = N - 1 → code = 0 ∧ report = []).

(** [m] leaves the observation [f] of the state as it is, whatever its
    outcome. *)
Definition keeps {S X A} (f : S → X) (m : M S A) : Prop :=
  ∀ s, f (m s).2 = f s.

(** A child that removes the file at [path] and exits with [code]. *)
Definition child_removes {K} (path : string) (code : Z) (command : list string)
    (env : gmap string string) (inherited : gmap Z fd_entry) (k : kernel K)
  : outcome Z * kernel K :=
  (Ok code, Kernel (delete path (fs k)) (pipes k) (win32 k)).

(** [shell_world] with a directory where the default FIFO would go. *)
Definition dir_world : world win32_kernel :=
  set_kern (Kernel (<["/build/jobserver_tokens" := Directory]> (<["/build" := Directory]> ∅))
                   (<[1%nat := []]> (<[0%nat := []]> ∅)) no_win32)
           (shell_world no_win32).


(** * tools/generate_trace.py: a .ninja_log as about:tracing events *)

(** [class Target]: one command of the log, start and end times in
    milliseconds, and the names of its outputs. *)
Record Target : Type := mkTarget {
  start : Z;
  end_ : Z;
  targets : list string
}.

(** A line of the log that is not a comment, after
    [line.strip().split("\t")] and [int()]: start, end, name and command
    hash (the restat field is ignored).  The header check and the parsing
    of the text are outside the model, and so is a [timestamp_delta] that
    is not a whole number. *)
Record log_line : Type := LogLine {
  line_start : Z;
  line_end : Z;
  line_name : string;
  line_cmdhash : string
}.

(** [targets.setdefault(cmdhash, fresh).targets.append(name)] on a [dict]
    kept in insertion order: the entry of [cmdhash] gets one more name, and
    a new entry, made from [fresh], goes to the end. *)
Fixpoint setdefault_append (cmdhash : string) (fresh : Target) (name : string)
    (d : list (string * Target)) : list (string * Target) :=
  match d with
  | [] => [(cmdhash, mkTarget (start fresh) (end_ fresh) (targets fresh ++ [name]))]
  | (k, t) :: d' =>
      if decide (k = cmdhash)
      then (k, mkTarget (start t) (end_ t) (targets t ++ [name])) :: d'
      else (k, t) :: setdefault_append cmdhash fresh name d'
  end.

(** The [for line in log] loop of [read_targets]. *)
Definition read_targets_dict (lines : list log_line) (timestamp_delta : Z)
  : list (string * Target) :=
  foldl (λ d line,
           let start_ms := line_start line + timestamp_delta in
           let end_ms := line_end line + timestamp_delta in
           setdefault_append (line_cmdhash line) (mkTarget start_ms end_ms [])
             (line_name line) d)
        [] lines.

(** [sorted(..., key=lambda job: job.start)], a stable sort: equal keys
    keep their order. *)
Fixpoint insert_by_start (job : Target) (l : list Target) : list Target :=
  match l with
  | [] => [job]
  | x :: l' => if start job <=? start x then job :: x :: l'
               else x :: insert_by_start job l'
  end.

Definition sorted_by_start (l : list Target) : list Target :=
  foldr insert_by_start [] l.

(** [read_targets(log, timestamp_delta)], from the parsed lines on. *)
Definition read_targets (lines : list log_line) (timestamp_delta : Z) : list Target :=
  sorted_by_start ((read_targets_dict lines timestamp_delta).*2).

(** [Threads.alloc(target)] on [self.workers]: returns the worker and the
    new [workers]. *)
Definition Threads_alloc (workers : list Z) (target : Target) : nat * list Z :=
  match list_find (λ busy, busy ≤ start target) workers with
  | Some (worker, _) => (worker, <[worker := end_ target]> workers)
  | None => (length workers, workers ++ [end_ target])
  end.

(** The dict [log_to_dicts] yields ([args] is always empty). *)
Record trace_event : Type := TraceEvent {
  ev_name : string;
  ev_cat : string;
  ev_ph : string;
  ev_ts : Z;
  ev_dur : Z;
  ev_pid : Z;
  ev_tid : Z
}.

(** The [for target in ...] loop of [log_to_dicts], with the [workers] of
    its [Threads] object. *)
Fixpoint log_to_dicts_loop (pid : Z) (workers : list Z) (sorted_targets : list Target)
  : list trace_event :=
  match sorted_targets with
  | [] => []
  | target :: rest =>
      let '(worker, workers') := Threads_alloc workers target in
      let tid := pid + Z.of_nat worker in
      TraceEvent (String.concat ", " (targets target)) "targets" "X"
                 (start target * 1000) ((end_ target - start target) * 1000) pid tid
        :: log_to_dicts_loop pid workers' rest
  end.

(** [list(log_to_dicts(log, pid, timestamp_delta))] *)
Definition log_to_dicts (lines : list log_line) (pid : Z) (timestamp_delta : Z)
  : list trace_event :=
  let pid := pid * 1000 in
  log_to_dicts_loop pid [] (read_targets lines timestamp_delta).

(** The target [read_targets] makes of the lines [first :: rest] that
    share a command hash. *)
Definition target_of_lines (timestamp_delta : Z) (first : log_line) (rest : list log_line)
  : Target :=
  mkTarget (line_start first + timestamp_delta) (line_end first + timestamp_delta)
           (line_name <$> first :: rest).

(** A log of four commands on two hashes. *)
Definition sample_log : list log_line :=
  [LogLine 0 40 "a.o" "h1"; LogLine 10 30 "b.o" "h2";
   LogLine 35 60 "c.o" "h3"; LogLine 0 40 "a.d" "h1"].

(** * Properties *)

(** ** Descriptors and pipe ends *)

Lemma lowest_free_fresh (t : gmap Z fd_entry) (steps : nat) (n : Z) :
  (size (filter (λ k, (n ≤ k)%Z) (dom t)) ≤ steps)%nat →
  t !! lowest_free t steps n = None.
Proof.
  revert n. induction steps as [|steps IH]; intros n Hsize; cbn [lowest_free].
  - destruct (t !! n) as [d|] eqn:Hn; [| done].
    assert (Hin : n ∈ filter (λ k, n ≤ k) (dom t)).
    { apply elem_of_filter. split; [lia | by apply elem_of_dom]. }
    apply Nat.le_0_r, size_empty_inv in Hsize. set_solver.
  - case_bool_decide as Hn; [| by apply eq_None_not_Some].
    apply IH.
    assert (Hsub : filter (λ k, n + 1 ≤ k) (dom t) ⊂ filter (λ k, n ≤ k) (dom t)).
    { split.
      - intros k. rewrite !elem_of_filter. intros [? ?]. split; [lia | done].
      - intros Hall. specialize (Hall n). rewrite !elem_of_filter in Hall.
        destruct Hall as [Hle _]; [split; [lia | by apply elem_of_dom] | lia]. }
    apply subset_size in Hsub. lia.
Qed.

Lemma new_fd_fresh (t : gmap Z fd_entry) : t !! new_fd t = None.
Proof.
  apply lowest_free_fresh. rewrite <- size_dom. apply subseteq_size.
  intros k. rewrite elem_of_filter. tauto.
Qed.

Lemma new_pipe_fresh (t : gmap nat (list byte)) : t !! new_pipe t = None.
Proof. unfold new_pipe. pose proof (is_fresh (dom t)) as Hf. by apply not_elem_of_dom in Hf. Qed.

Lemma has_end_true (e : pipe_end) (p : nat) (t : gmap Z fd_entry) :
  has_end e p t = true ↔ ∃ fd d, t !! fd = Some d ∧ fd_pipe d = p ∧ fd_end d = e.
Proof.
  unfold has_end. rewrite existsb_exists. split.
  - intros [[fd d] [Hin Hb]].
    apply list_elem_of_In, elem_of_map_to_list in Hin.
    apply andb_true_iff in Hb as [Hp He].
    apply bool_decide_eq_true in Hp, He. eauto.
  - intros (fd & d & Hfd & Hp & He). exists (fd, d). split.
    + by apply list_elem_of_In, elem_of_map_to_list.
    + simpl. rewrite !bool_decide_eq_true_2; done.
Qed.

(** ** Paths *)

Lemma rstrip_slashes_end (p : string) : ends_with_slash (rstrip_slashes p) = false.
Proof.
  induction p as [|c rest IH]; [done |]. cbn [rstrip_slashes].
  destruct (rstrip_slashes rest) as [|c' rest'] eqn:Hr.
  - cbn. destruct (Ascii.eqb c "/") eqn:Hc; cbn; [done | exact Hc].
  - rewrite andb_false_r. exact IH.
Qed.

Lemma rstrip_slashes_length (p : string) :
  (String.length (rstrip_slashes p) ≤ String.length p)%nat.
Proof.
  induction p as [|c rest IH]; [done |]. cbn [rstrip_slashes].
  destruct (Ascii.eqb c "/" && String.eqb (rstrip_slashes rest) ""); cbn; lia.
Qed.

Lemma upto_last_slash_shorter (p : string) :
  upto_last_slash p = p ∨ (String.length (upto_last_slash p) < String.length p)%nat.
Proof.
  induction p as [|c rest IH]; [by left |]. cbn [upto_last_slash].
  destruct (Ascii.eqb c "/" || has_slash rest).
  - destruct IH as [->|IH]; [by left | right; cbn; lia].
  - right. cbn. lia.
Qed.

Lemma upto_last_slash_end (p : string) :
  upto_last_slash p = "" ∨ ends_with_slash (upto_last_slash p) = true.
Proof.
  induction p as [|c rest IH]; [by left |]. cbn [upto_last_slash].
  destruct (Ascii.eqb c "/") eqn:Hc; cbn [orb].
  - right. destruct IH as [->|IH]; [exact Hc |].
    destruct (upto_last_slash rest); [done | exact IH].
  - destruct (has_slash rest) eqn:Hs; [| by left].
    right. destruct rest as [|c' rest']; [done |].
    destruct IH as [IH|IH].
    + cbn [upto_last_slash] in IH. cbn [has_slash] in Hs. rewrite Hs in IH. done.
    + destruct (upto_last_slash (String c' rest')); [done | exact IH].
Qed.

(** The directory part of a path that is looked up in the file system is
    not the path itself. *)
Lemma dirname_ne (path : string) :
  String.eqb (dirname path) "" || all_slashes (dirname path) = false →
  dirname path ≠ path.
Proof.
  unfold dirname.
  destruct (String.eqb (upto_last_slash path) "") eqn:He; cbn [negb andb].
  { by rewrite He. }
  destruct (all_slashes (upto_last_slash path)) eqn:Ha; cbn [negb].
  { by rewrite He, Ha. }
  intros _ Heq.
  destruct (upto_last_slash_shorter path) as [Hsame|Hlt].
  - destruct (upto_last_slash_end path) as [Hempty|Hend].
    + rewrite Hempty in He. done.
    + pose proof (rstrip_slashes_end (upto_last_slash path)) as Hno.
      rewrite Heq in Hno. rewrite Hsame in Hend. congruence.
  - pose proof (rstrip_slashes_length (upto_last_slash path)) as Hle.
    rewrite Heq in Hle. lia.
Qed.

(** Removing the entry at [path] does not change whether an entry can be
    created there. *)
Lemma parent_error_delete (path : string) (t : gmap string node) :
  parent_error path (delete path t) = parent_error path t.
Proof.
  unfold parent_error. destruct (String.eqb path ""); [done |].
  destruct (String.eqb (dirname path) "" || all_slashes (dirname path)) eqn:Hd; [done |].
  rewrite lookup_delete_ne; [done |]. intros Heq. by apply (dirname_ne path).
Qed.

Lemma PIPE_BUF_le_capacity : 0 < PIPE_BUF ∧ PIPE_BUF ≤ PIPE_CAPACITY.
Proof. unfold PIPE_BUF, PIPE_CAPACITY. lia. Qed.

(** ** Inversion of the monad operations *)

Lemma bind_Ok_inv {S A B} (m : M S A) (k : A → M S B) (s s' : S) (b : B) :
  bind m k s = (Ok b, s') → ∃ a s1, m s = (Ok a, s1) ∧ k a s1 = (Ok b, s').
Proof. unfold bind. destruct (m s) as [[a|e|] s1]; [eauto | done | done]. Qed.

Lemma try_finally_Ok_inv {S A} (body : M S A) (fin : M S unit) (s s' : S) (a : A) :
  try_finally body fin s = (Ok a, s') →
  ∃ s1, body s = (Ok a, s1) ∧ fin s1 = (Ok (), s').
Proof.
  unfold try_finally.
  destruct (body s) as [[a'|e|] s1]; [| | done].
  - destruct (fin s1) as [[[]|e|] s2] eqn:Hfin; [| done | done].
    intros [= <- <-]. eauto.
  - destruct (fin s1) as [[[]|e'|] s2]; done.
Qed.

Lemma lift_inv {L W A} (m : M W A) (l l' : L) (w w' : W) (r : outcome A) :
  lift m (l, w) = (r, (l', w')) → l' = l ∧ m w = (r, w').
Proof. unfold lift. destruct (m w) as [r0 w0]. by intros [= <- <- <-]. Qed.

(** ** The pipe and FIFO backends *)

Section PosixFacts.
Context {K : Type}.
Implicit Types (st : world K) (N : Z).

Lemma same_but_pipe_refl p st : same_but_pipe p st st.
Proof. by repeat split. Qed.

Lemma same_but_pipe_trans p st1 st2 st3 :
  same_but_pipe p st1 st2 → same_but_pipe p st2 st3 → same_but_pipe p st1 st3.
Proof.
  intros (?&?&?&?&?&?&H12) (?&?&?&?&?&?&H23).
  repeat split; try congruence.
  intros q Hq. rewrite H23, H12; done.
Qed.

(** [os.write] of [data] to an empty pipe that has a reader: all of it
    when it fits; otherwise a blocking descriptor never returns and a
    non-blocking one writes [PIPE_CAPACITY] bytes. *)
Lemma os_write_empty_pipe (fd : Z) (data : list byte) st (p : nat) (inh blk : bool) :
  fds st !! fd = Some (FdEntry p WriteEnd inh blk) →
  has_end ReadEnd p (fds st) = true →
  pipe_buffer p st = [] →
  ∃ st',
    same_but_pipe p st st' ∧
    os_write fd data st =
      (if Z.of_nat (length data) <=? PIPE_CAPACITY then Ok (Z.of_nat (length data))
       else if blk then Hang else Ok PIPE_CAPACITY, st') ∧
    (blk = false ∨ Z.of_nat (length data) ≤ PIPE_CAPACITY →
     pipe_buffer p st' = take (Z.to_nat PIPE_CAPACITY) data).
Proof.
  intros Hfd Hpeer Hbuf.
  pose proof PIPE_BUF_le_capacity as [Hpos Hle].
  assert (Hsame : ∀ l, same_but_pipe p st (set_pipes (<[p := l]> (pipes (kern st))) st)).
  { intros l. repeat split. intros q Hq. cbn. by rewrite lookup_insert_ne. }
  assert (Hget : ∀ l, pipe_buffer p (set_pipes (<[p := l]> (pipes (kern st))) st) = l).
  { intros l. unfold pipe_buffer. cbn. by rewrite lookup_insert_eq. }
  unfold os_write. rewrite Hfd, Hpeer, Hbuf. cbn [negb length app].
  change (Z.of_nat 0) with 0. rewrite Z.sub_0_r.
  destruct (Z.of_nat (length data) =? 0) eqn:Hz; [apply Z.eqb_eq in Hz | apply Z.eqb_neq in Hz].
  - exists st. split; [apply same_but_pipe_refl |].
    rewrite Hz. rewrite (proj2 (Z.leb_le 0 PIPE_CAPACITY)) by lia.
    split; [done |]. intros _. rewrite Hbuf.
    destruct data; [by rewrite take_nil | cbn in Hz; lia].
  - destruct (Z.of_nat (length data) <=? PIPE_CAPACITY) eqn:Hfit;
      [apply Z.leb_le in Hfit | apply Z.leb_gt in Hfit].
    + eexists. split; [apply Hsame |]. split; [reflexivity |].
      intros _. rewrite Hget, Nat2Z.id, !take_ge; [done | lia | lia].
    + rewrite (proj2 (Z.leb_gt _ PIPE_BUF)) by lia.
      destruct blk.
      * eexists. split; [apply Hsame |]. split; [reflexivity |].
        intros [|]; [done | lia].
      * rewrite (proj2 (Z.leb_gt PIPE_CAPACITY 0)) by lia. cbn [orb].
        eexists. split; [apply Hsame |]. split; [reflexivity |].
        intros _. by rewrite Hget.
Qed.

Lemma take_tokens (N : Z) :
  take (Z.to_nat PIPE_CAPACITY) (replicate (Z.to_nat (N - 1)) token) =
    replicate (Z.to_nat (Z.min (N - 1) PIPE_CAPACITY)) token.
Proof. rewrite take_replicate. f_equal. lia. Qed.

Lemma length_tokens (N : Z) :
  0 < N → Z.of_nat (length (replicate (Z.to_nat (N - 1)) token)) = N - 1.
Proof. intros HN. rewrite length_replicate. lia. Qed.

(** [create_pipe] for any job count: the pipe and its two descriptors
    are made first ([st1]); then the assertion raises, or the tokens are
    written, or, when they do not fit, the blocking write never returns. *)
Lemma create_pipe_eval N st :
  ∃ r w p st1 st2,
    r ≠ w ∧ fds st !! r = None ∧ fds st !! w = None ∧
    fds st1 !! r = Some (FdEntry p ReadEnd true true) ∧
    fds st1 !! w = Some (FdEntry p WriteEnd true true) ∧
    (∀ fd, fd ≠ r → fd ≠ w → fds st1 !! fd = fds st !! fd) ∧
    pipe_buffer p st1 = [] ∧
    environ st1 = environ st ∧ stdout st1 = stdout st ∧ stderr st1 = stderr st ∧
    fs (kern st1) = fs (kern st) ∧ win32 (kern st1) = win32 (kern st) ∧
    same_but_pipe p st1 st2 ∧
    (N - 1 ≤ PIPE_CAPACITY →
     pipe_buffer p st2 = replicate (Z.to_nat (Z.min (N - 1) PIPE_CAPACITY)) token) ∧
    create_pipe N st =
      if 0 <? N then
        (if N - 1 <=? PIPE_CAPACITY
         then Ok (r, w, <["MAKEFLAGS" :=
                            " -j" +:+ pretty N +:+
                            " --jobserver-fds=" +:+ pretty r +:+ "," +:+ pretty w +:+
                            " --jobserver-auth=" +:+ pretty r +:+ "," +:+ pretty w]>
                          (environ st))
         else Hang, st2)
      else (Exc (AssertionError "Token count must be strictly positive"), st1).
Proof.
  set (p := new_pipe (pipes (kern st))).
  set (r := new_fd (fds st)).
  set (t1 := <[r := FdEntry p ReadEnd false true]> (fds st)).
  set (w := new_fd t1).
  assert (Hr : fds st !! r = None) by apply new_fd_fresh.
  assert (Hw : t1 !! w = None) by apply new_fd_fresh.
  assert (Hrw : r ≠ w).
  { intros E. rewrite <- E in Hw. unfold t1 in Hw. by rewrite lookup_insert_eq in Hw. }
  assert (Hw' : fds st !! w = None).
  { unfold t1 in Hw. by rewrite lookup_insert_ne in Hw. }
  set (st1 := set_fds (<[w := FdEntry p WriteEnd true true]>
                         (<[r := FdEntry p ReadEnd true true]>
                            (<[w := FdEntry p WriteEnd false true]> t1)))
                (set_pipes (<[p := []]> (pipes (kern st))) st)).
  assert (Hr1 : fds st1 !! r = Some (FdEntry p ReadEnd true true)).
  { unfold st1. cbn. by rewrite lookup_insert_ne, lookup_insert_eq. }
  assert (Hw1 : fds st1 !! w = Some (FdEntry p WriteEnd true true)).
  { unfold st1. cbn. by rewrite lookup_insert_eq. }
  assert (Hbuf1 : pipe_buffer p st1 = []).
  { unfold st1, pipe_buffer. cbn. by rewrite lookup_insert_eq. }
  assert (Hpeer : has_end ReadEnd p (fds st1) = true).
  { apply has_end_true. by exists r, (FdEntry p ReadEnd true true). }
  destruct (os_write_empty_pipe w (replicate (Z.to_nat (N - 1)) token) st1 p true true
              Hw1 Hpeer Hbuf1) as (st2 & Hsame & Hwrite & Hbuf2).
  exists r, w, p, st1, st2.
  do 5 (split; [done |]).
  split.
  { intros fd Hfr Hfw. unfold st1, t1. cbn. by rewrite !lookup_insert_ne. }
  do 7 (split; [done |]).
  split.
  { intros Hfit. rewrite Hbuf2, take_tokens; [done |]. right.
    pose proof PIPE_BUF_le_capacity. rewrite length_replicate. lia. }
  unfold create_pipe.
  unfold bind at 1. unfold os_pipe. fold p r t1 w.
  unfold bind at 1. unfold os_set_inheritable at 1. cbn [fds set_fds set_pipes set_kern].
  rewrite lookup_insert_ne by done. unfold t1 at 1. rewrite lookup_insert_eq.
  cbn [fd_pipe fd_end fd_inheritable fd_blocking]. fold t1.
  unfold bind at 1. unfold os_set_inheritable at 1. cbn [fds set_fds set_pipes set_kern].
  rewrite lookup_insert_ne, lookup_insert_eq by done.
  cbn [fd_pipe fd_end fd_inheritable fd_blocking].
  change (set_fds _ (set_fds _ (set_fds _ (set_pipes _ st)))) with st1.
  unfold bind at 1.
  destruct (0 <? N) eqn:HN; cbn [assert pure raise]; [| reflexivity].
  apply Z.ltb_lt in HN.
  unfold bind at 1. rewrite Hwrite. rewrite length_tokens by done.
  destruct (N - 1 <=? PIPE_CAPACITY); [| reflexivity].
  unfold bind, os_environ, pure.
  destruct Hsame as (_ & -> & _). reflexivity.
Qed.

Lemma create_pipe_returns N st :
  0 < N → N - 1 ≤ PIPE_CAPACITY →
  ∃ r w p st',
    create_pipe N st =
      (Ok (r, w, <["MAKEFLAGS" :=
                     " -j" +:+ pretty N +:+
                     " --jobserver-fds=" +:+ pretty r +:+ "," +:+ pretty w +:+
                     " --jobserver-auth=" +:+ pretty r +:+ "," +:+ pretty w]> (environ st)),
       st') ∧
    pool_created N st r w p st' ∧ fs (kern st') = fs (kern st) ∧
    fds st' !! r = Some (FdEntry p ReadEnd true true) ∧
    fds st' !! w = Some (FdEntry p WriteEnd true true).
Proof.
  intros HN Hfit.
  destruct (create_pipe_eval N st)
    as (r & w & p & st1 & st2 & Hrw & Hr & Hw & Hr1 & Hw1 & Hother & _ & Henv & Hout & Herr
        & Hfs & Hwin & (Hfds2 & Henv2 & Hout2 & Herr2 & Hfs2 & Hwin2 & _) & Hbuf & Hrun).
  rewrite (proj2 (Z.ltb_lt 0 N) HN), (proj2 (Z.leb_le _ _) Hfit) in Hrun.
  exists r, w, p, st2. split; [exact Hrun |].
  rewrite <- Hfds2 in Hr1, Hw1, Hother.
  unfold pool_created. repeat split; eauto; congruence.
Qed.

(** With a positive job count [create_pipe] returns a pool, or its write
    of more tokens than the pipe takes never returns. *)
Lemma create_pipe_outcome N st :
  0 < N →
  (N - 1 ≤ PIPE_CAPACITY ∧
   ∃ r w p st',
     create_pipe N st =
       (Ok (r, w, <["MAKEFLAGS" :=
                      " -j" +:+ pretty N +:+
                      " --jobserver-fds=" +:+ pretty r +:+ "," +:+ pretty w +:+
                      " --jobserver-auth=" +:+ pretty r +:+ "," +:+ pretty w]> (environ st)),
        st') ∧
     pool_created N st r w p st' ∧ fs (kern st') = fs (kern st) ∧
     fds st' !! r = Some (FdEntry p ReadEnd true true) ∧
     fds st' !! w = Some (FdEntry p WriteEnd true true)) ∨
  (PIPE_CAPACITY < N - 1 ∧ ∃ st', create_pipe N st = (Hang, st')).
Proof.
  intros HN. destruct (decide (N - 1 ≤ PIPE_CAPACITY)) as [Hfit|Hover].
  - left. split; [done |]. by apply create_pipe_returns.
  - right. split; [lia |].
    destruct (create_pipe_eval N st)
      as (r & w & p & st1 & st2 & _ & _ & _ & _ & _ & _ & _ & _ & _ & _ & _ & _ & _ & _ & Hrun).
    rewrite (proj2 (Z.ltb_lt 0 N) HN), (proj2 (Z.leb_gt _ _)) in Hrun by lia.
    eauto.
Qed.

Lemma os_open_read_nonblock path p st :
  fs (kern st) !! path = Some (Fifo p) →
  os_open path [O_RDONLY; O_NONBLOCK] st =
    (Ok (new_fd (fds st)),
     set_fds (<[new_fd (fds st) := FdEntry p ReadEnd false false]> (fds st)) st).
Proof.
  intros Hp. unfold os_open. rewrite Hp.
  replace (bool_decide (O_WRONLY ∈ [O_RDONLY; O_NONBLOCK])) with false by done.
  replace (bool_decide (O_NONBLOCK ∈ [O_RDONLY; O_NONBLOCK])) with true by done.
  cbn. by destruct (has_end WriteEnd p (fds st)).
Qed.

Lemma os_open_write_nonblock path p st :
  fs (kern st) !! path = Some (Fifo p) →
  has_end ReadEnd p (fds st) = true →
  os_open path [O_WRONLY; O_NONBLOCK] st =
    (Ok (new_fd (fds st)),
     set_fds (<[new_fd (fds st) := FdEntry p WriteEnd false false]> (fds st)) st).
Proof.
  intros Hp Hpeer. unfold os_open. rewrite Hp.
  replace (bool_decide (O_WRONLY ∈ [O_WRONLY; O_NONBLOCK])) with true by done.
  replace (bool_decide (O_NONBLOCK ∈ [O_WRONLY; O_NONBLOCK])) with true by done.
  cbn. by rewrite Hpeer.
Qed.

(** [os.mkfifo], the two [os.open] calls, the assertion and the write of
    [create_fifo], on a free path in a directory that exists, for any job
    count: the FIFO and its two descriptors are made first ([st1]); then
    the assertion raises, or the tokens the pipe takes are written. *)
Lemma create_fifo_tail_eval (path : string) (N : Z) st :
  fs (kern st) !! path = None →
  parent_error path (fs (kern st)) = None →
  ∃ r w p st1 st2,
    r ≠ w ∧ fds st !! r = None ∧ fds st !! w = None ∧
    fds st1 !! r = Some (FdEntry p ReadEnd false false) ∧
    fds st1 !! w = Some (FdEntry p WriteEnd false false) ∧
    (∀ fd, fd ≠ r → fd ≠ w → fds st1 !! fd = fds st !! fd) ∧
    pipe_buffer p st1 = [] ∧
    environ st1 = environ st ∧ stdout st1 = stdout st ∧ stderr st1 = stderr st ∧
    fs (kern st1) = <[path := Fifo p]> (fs (kern st)) ∧ win32 (kern st1) = win32 (kern st) ∧
    same_but_pipe p st1 st2 ∧
    pipe_buffer p st2 = replicate (Z.to_nat (Z.min (N - 1) PIPE_CAPACITY)) token ∧
    (os_mkfifo path ;;
     let! read_fd := os_open path [O_RDONLY; O_NONBLOCK] in
     let! write_fd := os_open path [O_WRONLY; O_NONBLOCK] in
     assert (0 <? N) "Token count must be strictly positive" ;;
     let! _ := os_write write_fd (replicate (Z.to_nat (N - 1)) token) in
     let! env := os_environ in
     let env := <["MAKEFLAGS" := (" -j" +:+ pretty N +:+ " --jobserver-auth=fifo:") +:+ path]> env in
     pure (read_fd, write_fd, env)) st =
      if 0 <? N
      then (Ok (r, w, <["MAKEFLAGS" := (" -j" +:+ pretty N +:+ " --jobserver-auth=fifo:") +:+ path]>
                        (environ st)),
            st2)
      else (Exc (AssertionError "Token count must be strictly positive"), st1).
Proof.
  intros Hp Hparent.
  set (p := new_pipe (pipes (kern st))).
  set (r := new_fd (fds st)).
  set (t1 := <[r := FdEntry p ReadEnd false false]> (fds st)).
  set (w := new_fd t1).
  assert (Hr : fds st !! r = None) by apply new_fd_fresh.
  assert (Hw : t1 !! w = None) by apply new_fd_fresh.
  assert (Hrw : r ≠ w).
  { intros E. rewrite <- E in Hw. unfold t1 in Hw. by rewrite lookup_insert_eq in Hw. }
  assert (Hw' : fds st !! w = None).
  { unfold t1 in Hw. by rewrite lookup_insert_ne in Hw. }
  assert (Hpeer : has_end ReadEnd p t1 = true).
  { apply has_end_true. exists r, (FdEntry p ReadEnd false false).
    unfold t1. by rewrite lookup_insert_eq. }
  set (st1 := set_fds (<[w := FdEntry p WriteEnd false false]> t1)
                (set_kern (Kernel (<[path := Fifo p]> (fs (kern st)))
                                  (<[p := []]> (pipes (kern st))) (win32 (kern st))) st)).
  assert (Hr1 : fds st1 !! r = Some (FdEntry p ReadEnd false false)).
  { unfold st1, t1. cbn. by rewrite lookup_insert_ne, lookup_insert_eq. }
  assert (Hw1 : fds st1 !! w = Some (FdEntry p WriteEnd false false)).
  { unfold st1. cbn. by rewrite lookup_insert_eq. }
  assert (Hbuf1 : pipe_buffer p st1 = []).
  { unfold st1, pipe_buffer. cbn. by rewrite lookup_insert_eq. }
  assert (Hpeer1 : has_end ReadEnd p (fds st1) = true).
  { apply has_end_true. by exists r, (FdEntry p ReadEnd false false). }
  destruct (os_write_empty_pipe w (replicate (Z.to_nat (N - 1)) token) st1 p false false
              Hw1 Hpeer1 Hbuf1) as (st2 & Hsame & Hwrite & Hbuf2).
  exists r, w, p, st1, st2.
  do 5 (split; [done |]).
  split.
  { intros fd Hfr Hfw. unfold st1, t1. cbn. by rewrite !lookup_insert_ne. }
  do 7 (split; [done |]).
  split.
  { rewrite Hbuf2, take_tokens; [done | by left]. }
  unfold bind at 1. unfold os_mkfifo. rewrite Hparent, Hp. fold p.
  unfold bind at 1. erewrite os_open_read_nonblock by (cbn; apply lookup_insert_eq).
  cbn [fds set_kern]. fold r t1.
  unfold bind at 1.
  erewrite os_open_write_nonblock by (cbn; first [apply lookup_insert_eq | exact Hpeer]).
  cbn [fds set_fds]. fold w.
  change (set_fds _ (set_fds _ (set_kern _ st))) with st1.
  unfold bind at 1.
  destruct (0 <? N) eqn:HN; cbn [assert pure raise]; [| reflexivity].
  unfold bind at 1. rewrite Hwrite.
  destruct Hsame as (_ & Henv2 & _).
  destruct (Z.of_nat (length (replicate (Z.to_nat (N - 1)) token)) <=? PIPE_CAPACITY);
    unfold bind, os_environ, pure; rewrite Henv2; reflexivity.
Qed.

(** [create_fifo] on a path that is not a directory, in a directory that
    exists, for any job count. *)
Lemma create_fifo_eval (path : string) (N : Z) st :
  fs (kern st) !! path ≠ Some Directory →
  parent_error path (fs (kern st)) = None →
  ∃ r w p st1 st2,
    r ≠ w ∧ fds st !! r = None ∧ fds st !! w = None ∧
    fds st1 !! r = Some (FdEntry p ReadEnd false false) ∧
    fds st1 !! w = Some (FdEntry p WriteEnd false false) ∧
    (∀ fd, fd ≠ r → fd ≠ w → fds st1 !! fd = fds st !! fd) ∧
    pipe_buffer p st1 = [] ∧
    environ st1 = environ st ∧ stdout st1 = stdout st ∧ stderr st1 = stderr st ∧
    fs (kern st1) = <[path := Fifo p]> (fs (kern st)) ∧ win32 (kern st1) = win32 (kern st) ∧
    same_but_pipe p st1 st2 ∧
    pipe_buffer p st2 = replicate (Z.to_nat (Z.min (N - 1) PIPE_CAPACITY)) token ∧
    create_fifo path N st =
      if 0 <? N
      then (Ok (r, w, <["MAKEFLAGS" := (" -j" +:+ pretty N +:+ " --jobserver-auth=fifo:") +:+ path]>
                        (environ st)),
            st2)
      else (Exc (AssertionError "Token count must be strictly positive"), st1).
Proof.
  intros Hdir Hparent.
  unfold create_fifo. unfold bind at 1. unfold os_path_exists.
  destruct (fs (kern st) !! path) as [n|] eqn:Hp.
  - rewrite bool_decide_eq_true_2 by eauto.
    unfold bind at 1. unfold os_remove. rewrite Hp.
    destruct (create_fifo_tail_eval path N (set_fs (delete path (fs (kern st))) st))
      as (r & w & p & st1 & st2 & Hrw & Hr & Hw & Hr1 & Hw1 & Hother & Hbuf1 & Henv & Hout
          & Herr & Hfs & Hwin & Hsame & Hbuf2 & Hrun).
    { cbn. apply lookup_delete_eq. }
    { cbn. by rewrite parent_error_delete. }
    exists r, w, p, st1, st2.
    do 10 (split; [done |]).
    split; [rewrite Hfs; cbn; apply insert_delete_eq |].
    do 3 (split; [done |]).
    destruct n; [| done |]; exact Hrun.
  - rewrite bool_decide_eq_false_2 by (intros [? ?]; done).
    unfold bind at 1. cbn [pure].
    by apply create_fifo_tail_eval.
Qed.

Lemma create_fifo_returns path N st :
  0 < N →
  fs (kern st) !! path ≠ Some Directory →
  parent_error path (fs (kern st)) = None →
  ∃ r w p st',
    create_fifo path N st =
      (Ok (r, w, <["MAKEFLAGS" := (" -j" +:+ pretty N +:+ " --jobserver-auth=fifo:") +:+ path]>
                   (environ st)),
       st') ∧
    pool_created N st r w p st' ∧
    fs (kern st') = <[path := Fifo p]> (fs (kern st)) ∧
    fds st' !! r = Some (FdEntry p ReadEnd false false) ∧
    fds st' !! w = Some (FdEntry p WriteEnd false false).
Proof.
  intros HN Hdir Hparent.
  destruct (create_fifo_eval path N st Hdir Hparent)
    as (r & w & p & st1 & st2 & Hrw & Hr & Hw & Hr1 & Hw1 & Hother & _ & Henv & Hout & Herr
        & Hfs & Hwin & (Hfds2 & Henv2 & Hout2 & Herr2 & Hfs2 & Hwin2 & _) & Hbuf & Hrun).
  rewrite (proj2 (Z.ltb_lt 0 N) HN) in Hrun.
  exists r, w, p, st2. split; [exact Hrun |].
  rewrite <- Hfds2 in Hr1, Hw1, Hother.
  unfold pool_created. repeat split; eauto; congruence.
Qed.

Lemma create_fifo_directory (path : string) N st :
  fs (kern st) !! path = Some Directory →
  create_fifo path N st = (Exc (IsADirectoryError path), st).
Proof.
  intros Hp. unfold create_fifo, bind, os_path_exists, os_remove.
  rewrite Hp. rewrite bool_decide_eq_true_2 by eauto. by rewrite Hp.
Qed.

(** In a directory that does not exist [os.mkfifo] raises, after a stale
    file at the path, if there was one, has been removed. *)
Lemma create_fifo_no_parent (path : string) N st (e : exn) :
  fs (kern st) !! path ≠ Some Directory →
  parent_error path (fs (kern st)) = Some e →
  ∃ st', create_fifo path N st = (Exc e, st') ∧ fds st' = fds st ∧
         pipes (kern st') = pipes (kern st) ∧ fs (kern st') !! path = None.
Proof.
  intros Hdir Hparent.
  unfold create_fifo. unfold bind at 1. unfold os_path_exists.
  destruct (fs (kern st) !! path) as [n|] eqn:Hp.
  - rewrite bool_decide_eq_true_2 by eauto.
    unfold bind at 1. unfold os_remove. rewrite Hp.
    exists (set_fs (delete path (fs (kern st))) st).
    split; [| by (repeat split; cbn; try apply lookup_delete_eq)].
    destruct n; [| done |]; unfold bind at 1, os_mkfifo; cbn [kern set_fs set_kern fs];
      by rewrite parent_error_delete, Hparent.
  - rewrite bool_decide_eq_false_2 by (intros [? ?]; done).
    exists st. split; [| done].
    unfold bind at 1. cbn [pure]. unfold bind at 1, os_mkfifo. by rewrite Hparent.
Qed.

(** With a positive job count [create_fifo] returns a pool, or raises
    before it has opened a descriptor. *)
Lemma create_fifo_outcome (path : string) N st :
  0 < N →
  (fs (kern st) !! path ≠ Some Directory ∧ parent_error path (fs (kern st)) = None ∧
   ∃ r w p st',
     create_fifo path N st =
       (Ok (r, w, <["MAKEFLAGS" := (" -j" +:+ pretty N +:+ " --jobserver-auth=fifo:") +:+ path]>
                    (environ st)),
        st') ∧
     pool_created N st r w p st' ∧
     fs (kern st') = <[path := Fifo p]> (fs (kern st)) ∧
     fds st' !! r = Some (FdEntry p ReadEnd false false) ∧
     fds st' !! w = Some (FdEntry p WriteEnd false false)) ∨
  (∃ e st', create_fifo path N st = (Exc e, st') ∧ fds st' = fds st).
Proof.
  intros HN.
  destruct (decide (fs (kern st) !! path = Some Directory)) as [Hdir|Hdir].
  { right. rewrite (create_fifo_directory path N st Hdir). eauto. }
  destruct (parent_error path (fs (kern st))) as [e|] eqn:Hparent.
  - right. destruct (create_fifo_no_parent path N st e Hdir Hparent) as (st' & Hrun & Hfds & _).
    eauto.
  - left. do 2 (split; [done |]). by apply create_fifo_returns.
Qed.


(** ** The drain *)

(** With enough fuel the loop returns, having counted every buffered byte
    and emptied the buffer. *)
Lemma drain_loop_counts (buf : list byte) :
  ∀ (fuel : nat) (fd c : Z) st (p : nat) (inh : bool),
    fds st !! fd = Some (FdEntry p ReadEnd inh false) →
    pipe_buffer p st = buf →
    (length buf < fuel)%nat →
    ∃ st', drain_loop fuel fd c st = (Ok (c + Z.of_nat (length buf)), st') ∧
           same_but_pipe p st st' ∧ pipe_buffer p st' = [].
Proof.
  induction buf as [|b rest IH]; intros fuel fd c st p inh Hfd Hbuf Hfuel.
  - destruct fuel as [|fuel]; [simpl in Hfuel; lia |].
    exists st. cbn [drain_loop].
    unfold bind, drain_step, except_BlockingIOError, bind, os_read.
    rewrite Hfd, Hbuf. cbn [length Z.of_nat]. rewrite Z.add_0_r.
    split; [| split; [apply same_but_pipe_refl | done]].
    by destruct (has_end WriteEnd p (fds st)).
  - destruct fuel as [|fuel]; [simpl in Hfuel; lia |].
    set (st1 := set_pipes (<[p := rest]> (pipes (kern st))) st).
    destruct (IH fuel fd (c + 1) st1 p inh) as (st' & Hrun & Hsame & Hempty).
    { exact Hfd. }
    { unfold pipe_buffer, st1. cbn. by rewrite lookup_insert_eq. }
    { simpl in Hfuel. lia. }
    exists st'. split; [| split; [| exact Hempty]].
    + cbn [drain_loop].
      unfold bind at 1. unfold drain_step, except_BlockingIOError, bind, os_read.
      rewrite Hfd, Hbuf. cbn [take drop length bool_decide pure].
      rewrite bool_decide_eq_false_2 by done.
      unfold pure. rewrite drop_0. fold st1.
      rewrite Hrun. f_equal. f_equal. cbn [length]. lia.
    + eapply same_but_pipe_trans; [| exact Hsame].
      unfold st1. repeat split. intros q Hq. cbn. by rewrite lookup_insert_ne.
Qed.

Lemma drain_and_count_spec (fd : Z) st (p : nat) (inh blk : bool) :
  fds st !! fd = Some (FdEntry p ReadEnd inh blk) →
  ∃ st', drain_and_count fd st = (Ok (Z.of_nat (length (pipe_buffer p st))), st') ∧
         same_but_pipe p (set_fds (<[fd := FdEntry p ReadEnd inh false]> (fds st)) st) st' ∧
         pipe_buffer p st' = [].
Proof.
  intros Hfd.
  set (st0 := set_fds (<[fd := FdEntry p ReadEnd inh false]> (fds st)) st).
  assert (Hfd0 : fds st0 !! fd = Some (FdEntry p ReadEnd inh false)).
  { unfold st0. cbn. apply lookup_insert_eq. }
  destruct (drain_loop_counts (pipe_buffer p st0) (drain_fuel fd st0) fd 0 st0 p inh)
    as (st' & Hrun & Hsame & Hempty); [done | done | |].
  { unfold drain_fuel. rewrite Hfd0. cbn. lia. }
  exists st'. split; [| done].
  unfold drain_and_count, bind, os_set_blocking. rewrite Hfd. cbn [fd_pipe fd_end fd_inheritable].
  fold st0. by rewrite Hrun.
Qed.

Lemma check_pipe_tokens_spec (fd N : Z) st (p : nat) (inh blk : bool) :
  1 < N →
  fds st !! fd = Some (FdEntry p ReadEnd inh blk) →
  let actual := Z.of_nat (length (pipe_buffer p st)) in
  ∃ st', check_pipe_tokens fd N st = (Ok (if actual =? N - 1 then 0 else 1), st') ∧
         stderr st' = stderr st ++ verification_report N actual ∧
         fds st' = <[fd := FdEntry p ReadEnd inh false]> (fds st) ∧
         environ st' = environ st ∧ stdout st' = stdout st ∧
         fs (kern st') = fs (kern st) ∧ win32 (kern st') = win32 (kern st) ∧
         pipe_buffer p st' = [].
Proof.
  intros HN Hfd actual.
  destruct (drain_and_count_spec fd st p inh blk Hfd)
    as (st' & Hrun & (Hfds & Henv & Hout & Herr & Hfs & Hwin & _) & Hempty).
  cbn in Hfds, Henv, Hout, Herr, Hfs, Hwin. fold actual in Hrun.
  unfold check_pipe_tokens, verification_report.
  rewrite (proj2 (Z.leb_gt N 1) HN).
  unfold bind at 1. rewrite Hrun.
  destruct (actual <? N - 1) eqn:Hlt.
  - apply Z.ltb_lt in Hlt. rewrite (proj2 (Z.eqb_neq actual (N - 1))) by lia.
    eexists. split; [reflexivity |]. cbn. rewrite Herr. done.
  - apply Z.ltb_ge in Hlt. destruct (N - 1 <? actual) eqn:Hgt.
    + apply Z.ltb_lt in Hgt. rewrite (proj2 (Z.eqb_neq actual (N - 1))) by lia.
      eexists. split; [reflexivity |]. cbn. rewrite Herr. done.
    + apply Z.ltb_ge in Hgt. rewrite (proj2 (Z.eqb_eq actual (N - 1))) by lia.
      exists st'. split; [reflexivity |]. rewrite app_nil_r. done.
Qed.

End PosixFacts.

(** ** The semaphore backend and the launcher *)

Section ManagerFacts.
Context {K : Type} {W32 : Win32API K}.
Variable _IS_WINDOWS : bool.
Variable child :
  list string → gmap string string → gmap Z fd_entry → kernel K → outcome Z * kernel K.
Implicit Types (st : world K) (N : Z).

(** The child changes the shared kernel objects and nothing else. *)
Lemma subprocess_run_frame command env pass_fds st r st' :
  subprocess_run child command env pass_fds st = (r, st') →
  fds st' = fds st ∧ environ st' = environ st ∧
  stdout st' = stdout st ∧ stderr st' = stderr st.
Proof.
  unfold subprocess_run.
  destruct (child _ _ _ _) as [o k]. intros [= <- <-]. done.
Qed.

(** Whenever [create_sem] returns, it has passed [job_count] as
    [InitialCount] and [job_count - 1] as [MaximumCount], and the
    environment it returns is [os.environ] with [MAKEFLAGS] set to a string
    that was never formatted. *)
Lemma create_sem_returns sem_name N st h env st' :
  create_sem sem_name N st = (Ok (h, env), st') →
  0 < N ∧ h ≠ 0 ∧
  env = <["MAKEFLAGS" := " -j{job_count} --jobserver-auth=" +:+ sem_name]> (environ st) ∧
  (∃ k', CreateSemaphore None N (N - 1) sem_name (win32 (kern st)) = (Ok h, k') ∧
         st' = set_kern (Kernel (fs (kern st)) (pipes (kern st)) k') st).
Proof.
  unfold create_sem. unfold bind at 1.
  destruct (0 <? N) eqn:HN; cbn [assert pure raise]; [| done].
  apply Z.ltb_lt in HN.
  unfold bind at 1. unfold win32_call.
  destruct (CreateSemaphore None N (N - 1) sem_name (win32 (kern st))) as [[h'| |] k'] eqn:Hc;
    [| done | done].
  unfold bind at 1.
  destruct (h' =? 0) eqn:Hh; cbn [negb assert pure raise]; [done |].
  apply Z.eqb_neq in Hh.
  unfold bind, os_environ, pure. cbn.
  intros [= <- <- <-]. eauto 10.
Qed.

Lemma check_sem_count_spec (h N : Z) st (actual : Z) (k' : K) :
  1 < N →
  ReleaseSemaphore h 1 (win32 (kern st)) = (Ok actual, k') →
  ∃ st', check_sem_count h N st = (Ok (if actual =? N - 1 then 0 else 1), st') ∧
         stderr st' = stderr st ++ verification_report N actual ∧
         fds st' = fds st ∧ environ st' = environ st ∧ stdout st' = stdout st ∧
         kern st' = Kernel (fs (kern st)) (pipes (kern st)) k'.
Proof.
  intros HN Hrel.
  unfold check_sem_count, verification_report.
  rewrite (proj2 (Z.leb_gt N 1) HN).
  unfold bind at 1. unfold win32_call. rewrite Hrel.
  destruct (actual <? N - 1) eqn:Hlt.
  - apply Z.ltb_lt in Hlt. rewrite (proj2 (Z.eqb_neq actual (N - 1))) by lia.
    eexists. split; [reflexivity |]. done.
  - apply Z.ltb_ge in Hlt. destruct (N - 1 <? actual) eqn:Hgt.
    + apply Z.ltb_lt in Hgt. rewrite (proj2 (Z.eqb_neq actual (N - 1))) by lia.
      eexists. split; [reflexivity |]. done.
    + apply Z.ltb_ge in Hgt. rewrite (proj2 (Z.eqb_eq actual (N - 1))) by lia.
      eexists. split; [reflexivity |]. cbn. by rewrite app_nil_r.
Qed.

(** ** The lifecycle manager *)

(** The [finally] clause of the POSIX branch, once [read_fd] and
    [write_fd] are assigned and still open. *)
Lemma main_posix_finally_runs (l : locals) st (r w : Z) :
  var_read_fd l = Some r → var_write_fd l = Some w → r ≠ w →
  is_Some (fds st !! r) → is_Some (fds st !! w) →
  main_posix_finally (l, st) =
    if String.eqb (var_delete_fifo l) "" then (Ok (), (l, closed r w st))
    else let '(o, s) := os_remove (var_delete_fifo l) (closed r w st) in (o, (l, s)).
Proof.
  intros Hr Hw Hrw [dr Hdr] [dw Hdw].
  unfold main_posix_finally.
  unfold bind at 1. unfold load at 1. rewrite Hr.
  unfold bind at 1. unfold lift at 1, os_close at 1. rewrite Hdr.
  unfold bind at 1. unfold load at 1. rewrite Hw.
  unfold bind at 1. unfold lift at 1, os_close at 1. cbn [fds set_fds].
  rewrite lookup_delete_ne, Hdw by done.
  unfold bind at 1. unfold load at 1.
  destruct (String.eqb (var_delete_fifo l) ""); cbn [negb]; reflexivity.
Qed.

Lemma verified_frame (chk : bool) (N c r w : Z) (p : nat) st1 (code : Z) stV :
  verified chk N c r p st1 code stV →
  is_Some (fds st1 !! r) → is_Some (fds st1 !! w) →
  is_Some (fds stV !! r) ∧ is_Some (fds stV !! w) ∧ fs (kern stV) = fs (kern st1).
Proof.
  unfold verified. intros Hv Hr Hw.
  destruct ((c =? 0) && chk && (1 <? N)).
  - destruct Hv as (_ & _ & [inh Hfds] & Hfs & _). rewrite Hfds.
    repeat split; [| | done].
    + rewrite lookup_insert_eq. eauto.
    + destruct (decide (r = w)) as [->|Hne].
      * rewrite lookup_insert_eq. eauto.
      * by rewrite lookup_insert_ne.
  - by destruct Hv as [_ ->].
Qed.

(** The end of the [try] block, from [exit_code = ret.returncode] on. *)
Lemma verification_block (args : arguments) (r w c : Z) (d : string) st1
    (p : nat) (inh blk : bool) :
  fds st1 !! r = Some (FdEntry p ReadEnd inh blk) →
  ∃ code stV,
    (if (c =? 0) && check args
     then
       let! read_fd := load "read_fd" var_read_fd in
       let! exit_code := lift (check_pipe_tokens read_fd (job_count args)) in
       store (λ l, Locals (var_read_fd l) (var_write_fd l) (var_ret l)
                          exit_code (var_delete_fifo l))
     else pure ()) (Locals (Some r) (Some w) (Some c) c d, st1) =
      (Ok (), (Locals (Some r) (Some w) (Some c) code d, stV)) ∧
    verified (check args) (job_count args) c r p st1 code stV.
Proof.
  intros Hr. unfold verified.
  destruct ((c =? 0) && check args) eqn:Hgo; cbn [andb].
  - unfold bind at 1. unfold load at 1. cbn [var_read_fd].
    unfold bind at 1. unfold lift at 1.
    destruct (1 <? job_count args) eqn:HN.
    + apply Z.ltb_lt in HN.
      destruct (check_pipe_tokens_spec r (job_count args) st1 p inh blk HN Hr)
        as (stV & Hrun & Herr & Hfds & _ & _ & Hfs & Hwin & Hempty).
      rewrite Hrun. unfold store. cbn.
      eexists _, stV. split; [reflexivity |]. eauto 10.
    + apply Z.ltb_ge in HN.
      unfold check_pipe_tokens. rewrite (proj2 (Z.leb_le _ _) HN).
      unfold pure, store. cbn.
      apply andb_true_iff in Hgo as [Hc _]. apply Z.eqb_eq in Hc. subst c.
      eexists _, st1. split; [reflexivity |]. done.
  - unfold pure. eexists c, st1. done.
Qed.

Lemma main_pipe_runs (args : arguments) st (r w : Z) env st0 (c : Z) st1 (p : nat) :
  help_usage args = false → command args ≠ [] →
  0 < job_count args → _IS_WINDOWS = false → pipe args = true →
  create_pipe (job_count args) st = (Ok (r, w, env), st0) →
  pool_created (job_count args) st r w p st0 →
  subprocess_run child (command args) (Some env) [r; w] st0 = (Ok c, st1) →
  ∃ code stV,
    main _IS_WINDOWS child args st = (Ok code, closed r w stV) ∧
    verified (check args) (job_count args) c r p st1 code stV.
Proof.
  intros Hhelp Hcmd HN Hwin Hpipe Hcreate Hpool Hrun.
  pose proof (subprocess_run_frame _ _ _ _ _ _ Hrun) as (Hfds1 & Henv1 & Hout1 & Herr1).
  unfold main. rewrite Hhelp, bool_decide_eq_false_2, (proj2 (Z.leb_gt _ _) HN), Hwin by done.
  unfold with_locals, bind at 1. unfold try_finally.
  unfold main_posix_try. rewrite Hpipe.
  unfold bind at 1. unfold bind at 1. unfold lift at 1. rewrite Hcreate.
  unfold bind at 1. unfold store at 1.
  unfold bind at 1. unfold lift at 1. rewrite Hrun.
  unfold store at 1. cbn [var_read_fd var_write_fd var_ret var_exit_code var_delete_fifo].
  unfold bind at 1. unfold load at 1. cbn [var_read_fd var_write_fd var_ret var_exit_code var_delete_fifo].
  unfold bind at 1. unfold store at 1. cbn [var_read_fd var_write_fd var_ret var_exit_code var_delete_fifo].
  destruct Hpool as (Hrw & _ & _ & (inh & blk & Hr0) & [inhw [blkw Hw0]] & _).
  rewrite <- Hfds1 in Hr0, Hw0.
  destruct (verification_block args r w c "" st1 p inh blk Hr0) as (code & stV & Hblock & Hver).
  rewrite Hblock.
  destruct (verified_frame _ _ _ r w _ _ _ _ Hver) as (HrV & HwV & _); [eauto | eauto |].
  rewrite (main_posix_finally_runs _ stV r w) by done.
  cbn. eauto.
Qed.

Lemma main_fifo_runs (args : arguments) st (r w : Z) env st0 (c : Z) st1 (p : nat) :
  help_usage args = false → command args ≠ [] →
  0 < job_count args → _IS_WINDOWS = false → pipe args = false → fifo args ≠ "" →
  create_fifo (fifo args) (job_count args) st = (Ok (r, w, env), st0) →
  pool_created (job_count args) st r w p st0 →
  subprocess_run child (command args) (Some env) [] st0 = (Ok c, st1) →
  ∃ code stV,
    main _IS_WINDOWS child args st =
      (let '(o, s) := os_remove (fifo args) (closed r w stV) in
       (match o with Ok _ => Ok code | Exc e => Exc e | Hang => Hang end, s)) ∧
    verified (check args) (job_count args) c r p st1 code stV.
Proof.
  intros Hhelp Hcmd HN Hwin Hpipe Hfifo Hcreate Hpool Hrun.
  pose proof (subprocess_run_frame _ _ _ _ _ _ Hrun) as (Hfds1 & Henv1 & Hout1 & Herr1).
  apply String.eqb_neq in Hfifo.
  unfold main. rewrite Hhelp, bool_decide_eq_false_2, (proj2 (Z.leb_gt _ _) HN), Hwin by done.
  unfold with_locals, bind at 1. unfold try_finally.
  unfold main_posix_try. rewrite Hpipe, Hfifo. cbn [negb].
  unfold bind at 1. unfold bind at 1. unfold lift at 1. rewrite Hcreate.
  unfold bind at 1. unfold store at 1.
  unfold bind at 1. unfold lift at 1. rewrite Hrun.
  unfold bind at 1. unfold store at 1. unfold store at 1.
  cbn [var_read_fd var_write_fd var_ret var_exit_code var_delete_fifo].
  unfold bind at 1. unfold load at 1.
  cbn [var_read_fd var_write_fd var_ret var_exit_code var_delete_fifo].
  unfold bind at 1. unfold store at 1.
  cbn [var_read_fd var_write_fd var_ret var_exit_code var_delete_fifo].
  destruct Hpool as (Hrw & _ & _ & (inh & blk & Hr0) & [inhw [blkw Hw0]] & _).
  rewrite <- Hfds1 in Hr0, Hw0.
  destruct (verification_block args r w c (fifo args) st1 p inh blk Hr0)
    as (code & stV & Hblock & Hver).
  rewrite Hblock.
  destruct (verified_frame _ _ _ r w _ _ _ _ Hver) as (HrV & HwV & _); [eauto | eauto |].
  rewrite (main_posix_finally_runs _ stV r w) by done.
  cbn [var_delete_fifo]. rewrite Hfifo.
  exists code, stV. split; [| done].
  destruct (os_remove (fifo args) (closed r w stV)) as [[[]| |] s]; reflexivity.
Qed.

(** When the launch itself raises, the [finally] clause closes the two
    descriptors and removes nothing: [delete_fifo] is still empty. *)
Lemma main_fifo_launch_raises (args : arguments) st (r w : Z) env st0 (e : exn) st1 (p : nat) :
  help_usage args = false → command args ≠ [] →
  0 < job_count args → _IS_WINDOWS = false → pipe args = false → fifo args ≠ "" →
  create_fifo (fifo args) (job_count args) st = (Ok (r, w, env), st0) →
  pool_created (job_count args) st r w p st0 →
  subprocess_run child (command args) (Some env) [] st0 = (Exc e, st1) →
  main _IS_WINDOWS child args st = (Exc e, closed r w st1).
Proof.
  intros Hhelp Hcmd HN Hwin Hpipe Hfifo Hcreate Hpool Hrun.
  pose proof (subprocess_run_frame _ _ _ _ _ _ Hrun) as (Hfds1 & Henv1 & Hout1 & Herr1).
  apply String.eqb_neq in Hfifo.
  unfold main. rewrite Hhelp, bool_decide_eq_false_2, (proj2 (Z.leb_gt _ _) HN), Hwin by done.
  unfold with_locals, bind at 1. unfold try_finally.
  unfold main_posix_try. rewrite Hpipe, Hfifo. cbn [negb].
  unfold bind at 1. unfold bind at 1. unfold lift at 1. rewrite Hcreate.
  unfold bind at 1. unfold store at 1.
  unfold bind at 1. unfold lift at 1. rewrite Hrun.
  destruct Hpool as (Hrw & _ & _ & (inh & blk & Hr0) & [inhw [blkw Hw0]] & _).
  rewrite <- Hfds1 in Hr0, Hw0.
  rewrite (main_posix_finally_runs _ st1 r w) by (cbn; eauto).
  reflexivity.
Qed.

(** A [try] block that returns has created a backend and launched the
    child, and the child has exited. *)
Lemma main_posix_try_Ok_inv (args : arguments) st (u : unit) (s' : locals * world K) :
  main_posix_try child args (Locals None None None 0 "", st) = (Ok u, s') →
  (pipe args = true ∧ ∃ r w env st0 c st1,
      create_pipe (job_count args) st = (Ok (r, w, env), st0) ∧
      subprocess_run child (command args) (Some env) [r; w] st0 = (Ok c, st1)) ∨
  (pipe args = false ∧ fifo args ≠ "" ∧ ∃ r w env st0 c st1,
      create_fifo (fifo args) (job_count args) st = (Ok (r, w, env), st0) ∧
      subprocess_run child (command args) (Some env) [] st0 = (Ok c, st1)).
Proof.
  unfold main_posix_try. intros Htry.
  apply bind_Ok_inv in Htry as (u1 & [l1 s1] & Hfirst & Hrest).
  destruct (pipe args).
  - left. split; [done |].
    apply bind_Ok_inv in Hfirst as ([[r w] env] & [l0 st0] & Hcreate & Hfirst).
    apply lift_inv in Hcreate as [-> Hcreate].
    apply bind_Ok_inv in Hfirst as (u2 & [l2 s2] & Hstore & Hfirst).
    unfold store in Hstore. injection Hstore as _ <- <-.
    apply bind_Ok_inv in Hfirst as (c & [l3 st1] & Hrun & _).
    apply lift_inv in Hrun as [_ Hrun]. eauto 10.
  - destruct (String.eqb (fifo args) "") eqn:Hfifo; cbn [negb] in Hfirst.
    + unfold pure in Hfirst. injection Hfirst as _ <- <-.
      unfold bind, load in Hrest. cbn in Hrest. done.
    + right. apply String.eqb_neq in Hfifo. split; [done | split; [done |]].
      apply bind_Ok_inv in Hfirst as ([[r w] env] & [l0 st0] & Hcreate & Hfirst).
      apply lift_inv in Hcreate as [-> Hcreate].
      apply bind_Ok_inv in Hfirst as (u2 & [l2 s2] & Hstore & Hfirst).
      unfold store in Hstore. injection Hstore as _ <- <-.
      apply bind_Ok_inv in Hfirst as (c & [l3 st1] & Hrun & _).
      apply lift_inv in Hrun as [_ Hrun]. eauto 10.
Qed.

(** A backend that was created is a pool. *)
Lemma create_pipe_pool N st (r w : Z) env st0 :
  0 < N →
  create_pipe N st = (Ok (r, w, env), st0) →
  ∃ p, pool_created N st r w p st0 ∧ fs (kern st0) = fs (kern st) ∧
       N - 1 ≤ PIPE_CAPACITY ∧
       env = <["MAKEFLAGS" :=
                 " -j" +:+ pretty N +:+
                 " --jobserver-fds=" +:+ pretty r +:+ "," +:+ pretty w +:+
                 " --jobserver-auth=" +:+ pretty r +:+ "," +:+ pretty w]> (environ st) ∧
       fds st0 !! r = Some (FdEntry p ReadEnd true true) ∧
       fds st0 !! w = Some (FdEntry p WriteEnd true true).
Proof.
  intros HN Hcreate.
  destruct (create_pipe_outcome N st HN)
    as [(Hfit & r' & w' & p & st' & Hrun & Hpool & Hfs & Hr & Hw)|(_ & st' & Hrun)];
    rewrite Hrun in Hcreate; [| done].
  injection Hcreate as -> -> <- ->. eauto 10.
Qed.

Lemma create_fifo_pool (path : string) N st (r w : Z) env st0 :
  0 < N →
  create_fifo path N st = (Ok (r, w, env), st0) →
  ∃ p, pool_created N st r w p st0 ∧ fs (kern st0) = <[path := Fifo p]> (fs (kern st)) ∧
       fifo_creatable path st ∧
       env = <["MAKEFLAGS" := (" -j" +:+ pretty N +:+ " --jobserver-auth=fifo:") +:+ path]>
               (environ st) ∧
       fds st0 !! r = Some (FdEntry p ReadEnd false false) ∧
       fds st0 !! w = Some (FdEntry p WriteEnd false false).
Proof.
  intros HN Hcreate.
  destruct (create_fifo_outcome path N st HN)
    as [(Hdir & Hparent & r' & w' & p & st' & Hrun & Hpool & Hfs & Hr & Hw)|(e & st' & Hrun & _)];
    rewrite Hrun in Hcreate; [| done].
  injection Hcreate as -> -> <- ->. exists p.
  do 2 (split; [done |]). split; [by split | done].
Qed.

(** While [create_pipe] waits in its write, [main] waits. *)
Lemma main_create_pipe_hangs (args : arguments) st st' :
  help_usage args = false → command args ≠ [] →
  0 < job_count args → _IS_WINDOWS = false → pipe args = true →
  create_pipe (job_count args) st = (Hang, st') →
  main _IS_WINDOWS child args st = (Hang, st').
Proof.
  intros Hhelp Hcmd HN Hwin Hpipe Hcreate.
  unfold main. rewrite Hhelp, bool_decide_eq_false_2, (proj2 (Z.leb_gt _ _) HN), Hwin by done.
  unfold with_locals, bind at 1. unfold try_finally.
  unfold main_posix_try. rewrite Hpipe.
  unfold bind at 1. unfold bind at 1. unfold lift at 1. rewrite Hcreate.
  reflexivity.
Qed.

(** The Windows branch of [main], once the semaphore is there and the
    child has exited. *)
Lemma main_sem_runs (args : arguments) st (h : Z) env st0 (c : Z) st1 :
  help_usage args = false → command args ≠ [] →
  0 < job_count args → _IS_WINDOWS = true →
  create_sem (name args) (job_count args) st = (Ok (h, env), st0) →
  subprocess_run child (command args) (Some env) [] st0 = (Ok c, st1) →
  if (c =? 0) && check args && (1 <? job_count args) then
    ∀ actual k' st2,
      ReleaseSemaphore h 1 (win32 (kern st1)) = (Ok actual, k') →
      win32_call (CloseHandle h) (sem_verified (job_count args) actual k' st1) = (Ok (), st2) →
      main _IS_WINDOWS child args st =
        (Ok (if actual =? job_count args - 1 then 0 else 1), st2)
  else
    ∀ st2,
      win32_call (CloseHandle h) st1 = (Ok (), st2) →
      main _IS_WINDOWS child args st = (Ok c, st2).
Proof.
  intros Hhelp Hcmd HN Hwin Hcreate Hrun.
  assert (Hmain : main _IS_WINDOWS child args st =
            try_finally
              (if (c =? 0) && check args then check_sem_count h (job_count args) else pure c)
              (win32_call (CloseHandle h)) st1).
  { unfold main.
    rewrite Hhelp, bool_decide_eq_false_2, (proj2 (Z.leb_gt _ _) HN), Hwin by done.
    unfold bind at 1. rewrite Hcreate.
    unfold try_finally, bind. rewrite Hrun. reflexivity. }
  rewrite Hmain. clear Hmain.
  destruct ((c =? 0) && check args) eqn:Hgo; cbn [andb].
  - destruct (1 <? job_count args) eqn:HN1.
    + apply Z.ltb_lt in HN1. intros actual k' st2 Hrel Hclose.
      destruct (check_sem_count_spec h (job_count args) st1 actual k' HN1 Hrel)
        as (stV & Hspec & Herr & Hfds & Henv & Hout & Hkern).
      assert (HstV : stV = sem_verified (job_count args) actual k' st1).
      { destruct stV. cbn in *. unfold sem_verified. congruence. }
      subst stV. unfold try_finally. rewrite Hspec, Hclose. reflexivity.
    + apply Z.ltb_ge in HN1. intros st2 Hclose.
      apply andb_true_iff in Hgo as [Hc _]. apply Z.eqb_eq in Hc. subst c.
      unfold try_finally, check_sem_count.
      rewrite (proj2 (Z.leb_le _ _) HN1). unfold pure. rewrite Hclose. reflexivity.
  - intros st2 Hclose. unfold try_finally, pure. rewrite Hclose. reflexivity.
Qed.

Lemma verified_rule (chk : bool) (N c r : Z) (p : nat) st1 (code : Z) stV :
  verified chk N c r p st1 code stV →
  exit_code_rule chk c (1 < N ∧ Z.of_nat (length (pipe_buffer p st1)) ≠ N - 1) code ∧
  (c ≠ 0 → stV = st1).
Proof.
  unfold verified, exit_code_rule. intros Hv.
  destruct ((c =? 0) && chk && (1 <? N)) eqn:Hgo.
  - apply andb_true_iff in Hgo as [Hgo HN]. apply andb_true_iff in Hgo as [Hc ->].
    apply Z.eqb_eq in Hc. apply Z.ltb_lt in HN. subst c.
    destruct Hv as (-> & _). split; [| done].
    destruct (Z.of_nat (length (pipe_buffer p st1)) =? N - 1) eqn:He;
      [apply Z.eqb_eq in He | apply Z.eqb_neq in He].
    + repeat split; try done. intros _ _ [_ Hne]. done.
    + repeat split; try done. intros _ _ Hno. destruct Hno. done.
  - destruct Hv as [-> ->]. split; [| done].
    repeat split; try done.
    intros -> -> [HN _]. apply Z.ltb_lt in HN. rewrite HN in Hgo. done.
Qed.

(** Whenever [main] returns an exit code, it has launched the child
    command once and the child has exited with some code [c]; the exit code
    of [main] is [c], except when [--check] was given, [c] is 0 and the
    verification found a token mismatch, and then it is not 0.  When [c] is
    not 0 the verification is not run: the state [main] leaves is the state
    the child left, with the pool closed and nothing drained or released. *)
Lemma main_returned_code (args : arguments) st (code : Z) st2 :
  help_usage args = false →
  main _IS_WINDOWS child args st = (Ok code, st2) →
  run_accounts_for_exit_code _IS_WINDOWS child args st code st2.
Proof.
  intros Hhelp Hmain. unfold run_accounts_for_exit_code.
  set (N := job_count args). pose proof Hmain as Hmain0.
  unfold main in Hmain. rewrite Hhelp in Hmain.
  destruct (bool_decide (command args = [])) eqn:Hcmd; [done |].
  apply bool_decide_eq_false in Hcmd.
  fold N in Hmain.
  destruct (N <=? 0) eqn:HN; [apply Z.leb_le in HN | apply Z.leb_gt in HN].
  { left. done. }
  right. destruct _IS_WINDOWS eqn:Hwin.
  - left. split; [done | split; [done |]].
    apply bind_Ok_inv in Hmain as ([h env] & st0 & Hcreate & Htf).
    apply try_finally_Ok_inv in Htf as (sB & Hbody & Hfin).
    apply bind_Ok_inv in Hbody as (c & st1 & Hrun & Hver).
    exists h, env, st0, c, st1. split; [done | split; [done |]].
    destruct ((c =? 0) && check args) eqn:Hgo.
    + apply andb_true_iff in Hgo as [Hc Hchk]. apply Z.eqb_eq in Hc.
      split; [| done]. unfold exit_code_rule. rewrite Hchk.
      destruct (decide (1 < N)) as [HN1|HN1].
      * unfold check_sem_count in Hver. fold N in Hver.
        rewrite (proj2 (Z.leb_gt N 1) HN1) in Hver.
        pose proof Hver as Hver0.
        apply bind_Ok_inv in Hver0 as (actual & s & Hrel & _).
        unfold win32_call in Hrel.
        destruct (ReleaseSemaphore h 1 (win32 (kern st1))) as [[a| |] k'] eqn:Hk;
          [| done | done].
        injection Hrel as -> _.
        destruct (check_sem_count_spec h N st1 actual k' HN1 Hk) as (st' & Hspec & _).
        unfold check_sem_count in Hspec. rewrite (proj2 (Z.leb_gt N 1) HN1) in Hspec.
        rewrite Hspec in Hver. injection Hver as <- _.
        destruct (actual =? N - 1) eqn:He;
          [apply Z.eqb_eq in He | apply Z.eqb_neq in He].
        -- repeat split; try done. intros _ _ (_ & a' & k'' & Hk' & Hne).
           injection Hk' as <- _. done.
        -- repeat split; try done; try lia. intros _ _ Hno. destruct Hno. eauto 10.
      * unfold check_sem_count in Hver. fold N in Hver.
        rewrite (proj2 (Z.leb_le N 1)) in Hver by lia.
        injection Hver as <- _.
        repeat split; try done; try lia.
    + unfold pure in Hver. injection Hver as -> ->.
      split; [| done]. unfold exit_code_rule.
      apply andb_false_iff in Hgo as [Hc|Hchk]; [apply Z.eqb_neq in Hc | rewrite Hchk];
        repeat split; done.
  - right.
    unfold with_locals in Hmain.
    destruct (bind _ _ _) as [rr [ll ww]] eqn:Hb in Hmain. injection Hmain as -> ->.
    apply bind_Ok_inv in Hb as (u & s1 & Htf & _).
    apply try_finally_Ok_inv in Htf as (sB & Htry & _).
    apply main_posix_try_Ok_inv in Htry
      as [(Hpipe & r & w & env & st0 & c & st1 & Hcreate & Hrun)
         |(Hpipe & Hfifo & r & w & env & st0 & c & st1 & Hcreate & Hrun)].
    + left. do 3 (split; [done |]).
      destruct (create_pipe_pool N st r w env st0 HN Hcreate) as (p & Hpool & _).
      exists r, w, env, st0, c, st1, p. do 3 (split; [done |]).
      destruct (main_pipe_runs args st r w env st0 c st1 p) as (code' & stV & Hval & Hver);
        try done.
      rewrite Hwin in Hval. rewrite Hval in Hmain0. injection Hmain0 as -> <-.
      apply verified_rule in Hver as [Hrule Hst]. split; [done |].
      intros Hc. by rewrite (Hst Hc).
    + right. do 4 (split; [done |]).
      destruct (create_fifo_pool (fifo args) N st r w env st0 HN Hcreate) as (p & Hpool & _).
      exists r, w, env, st0, c, st1, p. do 3 (split; [done |]).
      destruct (main_fifo_runs args st r w env st0 c st1 p) as (code' & stV & Hval & Hver);
        try done.
      rewrite Hwin in Hval. rewrite Hval in Hmain0.
      destruct (os_remove (fifo args) (closed r w stV)) as [[[]| |] s] eqn:Hrm;
        [| done | done].
      injection Hmain0 as -> <-.
      apply verified_rule in Hver as [Hrule Hst]. split; [done |].
      intros Hc. by rewrite <- (Hst Hc).
Qed.

(** The runs that return: the other direction. *)
Lemma main_returns_after_cleanup (args : arguments) st :
  help_usage args = false → command args ≠ [] →
  run_returns_exit_code _IS_WINDOWS child args st.
Proof.
  intros Hhelp Hcmd. unfold run_returns_exit_code.
  split; [| split; [| split]].
  - intros HN. unfold main.
    by rewrite Hhelp, bool_decide_eq_false_2, (proj2 (Z.leb_le _ _) HN).
  - intros HN Hwin h env st0 c st1 Hcreate Hrun.
    by apply (main_sem_runs args st h env st0 c st1).
  - intros HN Hwin Hpipe r w env st0 c st1 Hcreate Hrun.
    destruct (create_pipe_pool _ st r w env st0 HN Hcreate) as (p & Hpool & _).
    destruct (main_pipe_runs args st r w env st0 c st1 p) as (code & stV & Hval & Hver);
      try done.
    eauto.
  - intros HN Hwin Hpipe Hfifo r w env st0 c st1 Hcreate Hrun (n & Hn & Hdir).
    destruct (create_fifo_pool _ _ st r w env st0 HN Hcreate) as (p & Hpool & _).
    destruct (main_fifo_runs args st r w env st0 c st1 p) as (code & stV & Hval & Hver);
      try done.
    exists p, code, stV. split; [| done].
    pose proof (subprocess_run_frame _ _ _ _ _ _ Hrun) as (Hfds1 & _).
    destruct Hpool as (_ & _ & _ & (inh & blk & Hr0) & [inhw [blkw Hw0]] & _).
    rewrite <- Hfds1 in Hr0, Hw0.
    destruct (verified_frame _ _ _ r w _ _ _ _ Hver) as (_ & _ & Hfs); [eauto | eauto |].
    rewrite Hval. unfold os_remove. cbn [kern closed set_fds]. rewrite Hfs, Hn.
    by destruct n.
Qed.

(** C5. The exit code of [main], in the runs in which it returns one.
    Whenever [main] returns, it has launched the child once, the child
    has exited with some code [c], and the exit code of [main] is [c],
    except when [--check] was given, [c] is 0 and the verification found a
    token mismatch, and then it is not 0; with [c] not 0 the verification
    is not run.  And [main] does return in this way once the child has
    exited and the cleanup does not raise: it returns [c], or, where the
    verification runs, 0 when the tokens read back are [job_count - 1] and
    1 when they are not. *)
Theorem main_exit_code (args : arguments) st :
  help_usage args = false → command args ≠ [] →
  (∀ code st2,
     main _IS_WINDOWS child args st = (Ok code, st2) →
     run_accounts_for_exit_code _IS_WINDOWS child args st code st2) ∧
  run_returns_exit_code _IS_WINDOWS child args st.
Proof.
  intros Hhelp Hcmd. split.
  - intros code st2. by apply main_returned_code.
  - by apply main_returns_after_cleanup.
Qed.

(** C6. With a job count that is not positive, [main] is the child
    command and nothing else: the child runs with [os.environ] as it is, on
    the kernel objects as they are (no backend was created), and [main]
    returns what the child returns, leaving the manager's own state
    untouched. *)
Theorem main_pass_through (args : arguments) st :
  help_usage args = false → command args ≠ [] → job_count args ≤ 0 →
  main _IS_WINDOWS child args st =
    (let '(r, k) := child (command args) (environ st)
                      (filter (λ kv, kv.1 ∈ [0; 1; 2]) (fds st)) (kern st) in
     (r, set_kern k st)).
Proof.
  intros Hhelp Hcmd HN. unfold main.
  rewrite Hhelp, bool_decide_eq_false_2, (proj2 (Z.leb_le _ _) HN) by done.
  reflexivity.
Qed.

(** C7. For a pool of more than one slot and [actual] tokens read back,
    both verifications return, and they agree: fewer tokens than
    [job_count - 1] is reported as that many missing and gives a result
    that is not 0, more is reported as that many extra and gives a result
    that is not 0, and exactly [job_count - 1] reports nothing and gives 0. *)
Theorem verification_classifies (N actual : Z) :
  1 < N →
  (∀ (fd : Z) st (p : nat) (inh blk : bool),
     fds st !! fd = Some (FdEntry p ReadEnd inh blk) →
     Z.of_nat (length (pipe_buffer p st)) = actual →
     ∃ code report st',
       check_pipe_tokens fd N st = (Ok code, st') ∧
       stderr st' = stderr st ++ report ∧
       classified N actual code report) ∧
  (∀ (handle : Z) st (k' : K),
     ReleaseSemaphore handle 1 (win32 (kern st)) = (Ok actual, k') →
     ∃ code report st',
       check_sem_count handle N st = (Ok code, st') ∧
       stderr st' = stderr st ++ report ∧
       classified N actual code report).
Proof.
  intros HN.
  assert (Hclass : classified N actual (if actual =? N - 1 then 0 else 1)
                     (verification_report N actual)).
  { unfold classified, verification_report, missing_message, extra_message.
    destruct (actual =? N - 1) eqn:He; [apply Z.eqb_eq in He | apply Z.eqb_neq in He];
      destruct (actual <? N - 1) eqn:Hlt; [apply Z.ltb_lt in Hlt | apply Z.ltb_ge in Hlt | ..];
      destruct (N - 1 <? actual) eqn:Hgt; try apply Z.ltb_lt in Hgt; try apply Z.ltb_ge in Hgt;
      repeat split; intros; try lia; try done. }
  split.
  - intros fd st p inh blk Hfd Hlen.
    destruct (check_pipe_tokens_spec fd N st p inh blk HN Hfd) as (st' & Hrun & Herr & _).
    rewrite Hlen in Hrun, Herr. eauto 10.
  - intros handle st k' Hrel.
    destruct (check_sem_count_spec handle N st actual k' HN Hrel) as (st' & Hrun & Herr & _).
    eauto 10.
Qed.

(** C8. With a pool of exactly one slot both verifications return 0 and
    leave every state as it is: nothing is drained, released or looked at,
    whatever the pool holds. *)
Theorem verification_single_slot (fd handle : Z) st :
  check_pipe_tokens fd 1 st = (Ok 0, st) ∧
  check_sem_count handle 1 st = (Ok 0, st).
Proof. split; reflexivity. Qed.

(** C9. The environment a create operation returns is [os.environ] of the
    parent with [MAKEFLAGS] set to the protocol string of the backend,
    whatever [MAKEFLAGS] was before, and every other variable as the parent
    has it.  This holds of every call that returns; [create_pipe] does
    return when its tokens fit into the pipe, and [create_fifo] when the
    FIFO can be made at its path. *)
Theorem create_env_only_sets_MAKEFLAGS (N : Z) st :
  0 < N →
  ((N - 1 ≤ PIPE_CAPACITY → returns (create_pipe N) st) ∧
   ∀ (r w : Z) env st',
     create_pipe N st = (Ok (r, w, env), st') →
     only_MAKEFLAGS_set (environ st) env
       (" -j" +:+ pretty N +:+
        " --jobserver-fds=" +:+ pretty r +:+ "," +:+ pretty w +:+
        " --jobserver-auth=" +:+ pretty r +:+ "," +:+ pretty w)) ∧
  (∀ path : string,
     (fifo_creatable path st → returns (create_fifo path N) st) ∧
     ∀ (r w : Z) env st',
       create_fifo path N st = (Ok (r, w, env), st') →
       only_MAKEFLAGS_set (environ st) env
         ((" -j" +:+ pretty N +:+ " --jobserver-auth=fifo:") +:+ path)) ∧
  (∀ (sem_name : string) (handle : Z) env st',
     create_sem sem_name N st = (Ok (handle, env), st') →
     only_MAKEFLAGS_set (environ st) env
       (" -j{job_count} --jobserver-auth=" +:+ sem_name)).
Proof.
  intros HN.
  assert (Hset : ∀ (parent : gmap string string) (v : string),
             only_MAKEFLAGS_set parent (<["MAKEFLAGS" := v]> parent) v).
  { intros parent v. split; [apply lookup_insert_eq |].
    intros k Hk. by apply lookup_insert_ne. }
  split; [| split].
  - split.
    + intros Hfit.
      destruct (create_pipe_returns N st HN Hfit) as (r & w & p & st' & Hrun & _).
      by eexists _, st'.
    + intros r w env st' Hrun.
      destruct (create_pipe_pool N st r w env st' HN Hrun) as (p & _ & _ & _ & -> & _).
      apply Hset.
  - intros path. split.
    + intros [Hdir Hparent].
      destruct (create_fifo_returns path N st HN Hdir Hparent) as (r & w & p & st' & Hrun & _).
      by eexists _, st'.
    + intros r w env st' Hrun.
      destruct (create_fifo_pool path N st r w env st' HN Hrun) as (p & _ & _ & _ & -> & _).
      apply Hset.
  - intros sem_name handle env st' Hrun.
    apply create_sem_returns in Hrun as (_ & _ & -> & _). apply Hset.
Qed.

End ManagerFacts.

Section BackendFacts.
Context {K : Type}.
Implicit Types (st : world K) (N : Z).

(** What a pool holds after its creation, and what a drain counts. *)
Lemma pool_created_drain (N : Z) st (r w : Z) (p : nat) st' :
  1 < N →
  pool_created N st r w p st' →
  pipe_buffer p st' = replicate (Z.to_nat (Z.min (N - 1) PIPE_CAPACITY)) token ∧
  ∃ st'', drain_and_count r st' = (Ok (Z.min (N - 1) PIPE_CAPACITY), st'').
Proof.
  intros HN (_ & _ & _ & (inh & blk & Hr) & Hw & _ & Hbuf & _).
  split; [done |].
  destruct (drain_and_count_spec r st' p inh blk Hr) as (st'' & Hrun & _).
  pose proof PIPE_BUF_le_capacity as [? ?].
  rewrite Hbuf, length_replicate, Z2Nat.id in Hrun by lia. eauto.
Qed.


(** C10. The [MAKEFLAGS] value of the pipe backend names the descriptor
    pair twice, after [--jobserver-fds=] and after [--jobserver-auth=], and
    both times it is the pair [create_pipe] returns: the read end and the
    write end of the pool.  This holds of every call that returns, and
    [create_pipe] does return when its tokens fit into the pipe. *)
Theorem create_pipe_advertises_fds_twice (N : Z) st :
  0 < N →
  (N - 1 ≤ PIPE_CAPACITY → returns (create_pipe N) st) ∧
  ∀ (r w : Z) env st',
    create_pipe N st = (Ok (r, w, env), st') →
    env !! "MAKEFLAGS" =
      Some (" -j" +:+ pretty N +:+
            " --jobserver-fds=" +:+ pretty r +:+ "," +:+ pretty w +:+
            " --jobserver-auth=" +:+ pretty r +:+ "," +:+ pretty w) ∧
    ∃ p,
      (∃ inh blk, fds st' !! r = Some (FdEntry p ReadEnd inh blk)) ∧
      (∃ inh blk, fds st' !! w = Some (FdEntry p WriteEnd inh blk)).
Proof.
  intros HN. split.
  - intros Hfit.
    destruct (create_pipe_returns N st HN Hfit) as (r & w & p & st' & Hrun & _).
    by eexists _, st'.
  - intros r w env st' Hrun.
    destruct (create_pipe_pool N st r w env st' HN Hrun) as (p & _ & _ & _ & -> & Hr & Hw).
    split; [apply lookup_insert_eq |]. eauto 10.
Qed.

End BackendFacts.

(** * Concrete runs *)

(** C1. [create_sem("jobserver_tokens", 4)], on a kernel that lets the
    call through: the [MAKEFLAGS] value it returns is the string literal
    with its placeholder, [{job_count}] was never replaced, and the job
    count [-j4] is nowhere in it. *)
Theorem create_sem_makeflags_unformatted :
  ∃ handle env st',
    create_sem (W32 := win32_unchecked) "jobserver_tokens" 4 (shell_world no_win32)
      = (Ok (handle, env), st') ∧
    env !! "MAKEFLAGS" = Some " -j{job_count} --jobserver-auth=jobserver_tokens" ∧
    is_substring "-j4" " -j{job_count} --jobserver-auth=jobserver_tokens" = false ∧
    is_substring "{job_count}" " -j{job_count} --jobserver-auth=jobserver_tokens" = true.
Proof.
  destruct (create_sem (W32 := win32_unchecked) "jobserver_tokens" 4 (shell_world no_win32))
    as [[[handle env]| |] st'] eqn:Hrun; [| by vm_compute in Hrun | by vm_compute in Hrun].
  exists handle, env, st'. split; [reflexivity |].
  apply create_sem_returns in Hrun as (_ & _ & -> & _).
  split; [apply lookup_insert_eq |]. split; reflexivity.
Qed.

(** C2. [create_sem("jobserver_tokens", 4)]: the call it makes is
    [CreateSemaphore(None, 4, 3, name)], initial count 4 and maximum count
    3.  A kernel that lets the call through holds a semaphore whose count
    is above its maximum; Win32 as documented rejects the call, so that
    [create_sem], and [main] with it, raises before any child is run. *)
Theorem create_sem_counts_swapped :
  let lenient :=
    create_sem (W32 := win32_unchecked) "jobserver_tokens" 4 (shell_world no_win32) in
  let strict :=
    create_sem (W32 := win32_documented) "jobserver_tokens" 4 (shell_world no_win32) in
  calls (win32 (kern lenient.2)) = [CreateSemaphore_call None 4 3 "jobserver_tokens"] ∧
  semaphores (win32 (kern lenient.2)) !! "jobserver_tokens" = Some (Semaphore 4 3) ∧
  calls (win32 (kern strict.2)) = [CreateSemaphore_call None 4 3 "jobserver_tokens"] ∧
  strict.1 = Exc (pywintypes_error 87) ∧
  (main (W32 := win32_documented) true (child_exit 0) args_fifo_check
        (shell_world no_win32)).1 = Exc (pywintypes_error 87).
Proof. vm_compute. repeat split; reflexivity. Qed.

(** C3. [main] on a FIFO with a command that cannot be started:
    [subprocess.run] raises, the [finally] clause closes both descriptors,
    and the FIFO that [create_fifo] made is still in the file system when
    [main] is left.  With a child that runs and exits, the same command
    line leaves no FIFO behind. *)
Theorem main_leaves_fifo_when_launch_raises :
  let failed :=
    main (W32 := win32_documented) false child_not_found args_fifo_check
         (shell_world no_win32) in
  let finished :=
    main (W32 := win32_documented) false (child_exit 0) args_fifo_check
         (shell_world no_win32) in
  failed.1 = Exc (FileNotFoundError "ninja") ∧
  fs (kern failed.2) !! "/build/jobserver_tokens" = Some (Fifo 2) ∧
  fds failed.2 !! 3 = None ∧ fds failed.2 !! 4 = None ∧
  finished.1 = Ok 0 ∧
  fs (kern finished.2) !! "/build/jobserver_tokens" = None.
Proof. vm_compute. repeat split; reflexivity. Qed.


(** C5, when the cleanup raises.  [main -j4 ninja] on the default FIFO
    with a child that removes the FIFO and exits with 3: the child has
    exited with 3, [os.remove] in the [finally] clause raises, and [main]
    raises [FileNotFoundError] where the exit code 3 was due. *)
Lemma main_raises_after_child_exit :
  let path := "/build/jobserver_tokens" in
  let st := shell_world no_win32 in
  let run := main (W32 := win32_documented) false (child_removes path 3) args_fifo st in
  check args_fifo = false ∧
  (∃ r w env st0 st1,
     create_fifo path 4 st = (Ok (r, w, env), st0) ∧
     subprocess_run (child_removes path 3) (command args_fifo) (Some env) [] st0
       = (Ok 3, st1)) ∧
  run.1 = Exc (FileNotFoundError path) ∧
  run.1 ≠ Ok 3.
Proof.
  intros path st run. split; [reflexivity |]. split.
  - destruct (create_fifo path 4 st) as [[[[r w] env]| |] st0] eqn:Hcreate;
      [| vm_compute in Hcreate; discriminate | vm_compute in Hcreate; discriminate].
    exists r, w, env, st0. eexists. split; [reflexivity |].
    unfold subprocess_run, child_removes. reflexivity.
  - assert (Hrun : run.1 = Exc (FileNotFoundError path)) by (vm_compute; reflexivity).
    split; [exact Hrun |]. rewrite Hrun. discriminate.
Qed.

(** ** Scenarios *)

(** Capacity 4, no [--check], the child exits with 0: exit code 0, nothing
    verified, nothing reported, the FIFO gone. *)
Example run_without_check :
  let run :=
    main (W32 := win32_documented) false (child_exit 0)
         (Namespace _DEFAULT_NAME false "/build/jobserver_tokens" false false 4 ["ninja"])
         (shell_world no_win32) in
  run.1 = Ok 0 ∧ stderr run.2 = [] ∧
  fs (kern run.2) !! "/build/jobserver_tokens" = None ∧
  environ run.2 = environ (shell_world no_win32).
Proof. vm_compute. repeat split; reflexivity. Qed.

(** A child that takes one token and never gives it back, and exits with
    0: one missing token is reported and the exit code is 1. *)
Example run_with_leaked_token :
  let run :=
    main (W32 := win32_documented) false (child_leak 1 0) args_fifo_check
         (shell_world no_win32) in
  run.1 = Ok 1 ∧
  stderr run.2 = ["ERROR: 1 were missing from the token pool (got 2, expected 3)"].
Proof. vm_compute. split; reflexivity. Qed.

(** A child that gives back a token it never took. *)
Example run_with_extra_token :
  let run :=
    main (W32 := win32_documented) false (child_extra 1 0) args_pipe_check
         (shell_world no_win32) in
  run.1 = Ok 1 ∧
  stderr run.2 =
    ["ERROR: 1 extra tokens were released to the token pool (got 4, expected 3)"].
Proof. vm_compute. split; reflexivity. Qed.

(** A child that fails is not verified, whatever it did to the pool. *)
Example run_with_failing_child :
  let run :=
    main (W32 := win32_documented) false (child_leak 2 3) args_pipe_check
         (shell_world no_win32) in
  run.1 = Ok 3 ∧ stderr run.2 = [].
Proof. vm_compute. split; reflexivity. Qed.

(** A FIFO left over by an earlier run, with tokens in it, is replaced by
    a new one holding [job_count - 1] tokens. *)
Example create_fifo_replaces_stale_fifo :
  let stale :=
    set_kern (Kernel (<["/build/jobserver_tokens" := Fifo 1]> (<["/build" := Directory]> ∅))
                     (<[1%nat := replicate 7 token]> (<[0%nat := []]> ∅)) no_win32)
             (shell_world no_win32) in
  let run := create_fifo "/build/jobserver_tokens" 4 stale in
  fs (kern run.2) !! "/build/jobserver_tokens" = Some (Fifo 2) ∧
  pipe_buffer 2 run.2 = [token; token; token] ∧
  (drain_and_count 3 run.2).1 = Ok 3.
Proof. vm_compute. repeat split; reflexivity. Qed.

(** ** The theorems above at concrete inputs *)


Lemma main_exit_code_witness :
  let st := shell_world no_win32 in
  let posix :=
    main (W32 := win32_documented) false (child_leak 1 0) args_pipe_check st in
  help_usage args_pipe_check = false ∧ command args_pipe_check ≠ [] ∧
  posix = (Ok 1, posix.2) ∧
  run_accounts_for_exit_code (W32 := win32_documented) false (child_leak 1 0)
    args_pipe_check st 1 posix.2 ∧
  ∃ st2,
    main (W32 := win32_unchecked) true (child_acquires 2 0) args_fifo_check st = (Ok 1, st2) ∧
    stderr st2 = ["ERROR: 1 were missing from the token pool (got 2, expected 3)"].
Proof.
  intros st posix.
  split; [reflexivity |]. split; [discriminate |]. split; [vm_compute; reflexivity |].
  split.
  - destruct (main_exit_code (W32 := win32_documented) false (child_leak 1 0)
                args_pipe_check st) as [Hback _]; [reflexivity | discriminate |].
    apply Hback. vm_compute. reflexivity.
  - destruct (main_exit_code (W32 := win32_unchecked) true (child_acquires 2 0)
                args_fifo_check st) as [_ (_ & Hwindows & _)]; [reflexivity | discriminate |].
    set (created := create_sem (W32 := win32_unchecked) (name args_fifo_check)
                      (job_count args_fifo_check) st).
    set (env := <["MAKEFLAGS" := " -j{job_count} --jobserver-auth=jobserver_tokens"]>
                  (environ st)).
    set (ran := subprocess_run (child_acquires 2 0) (command args_fifo_check) (Some env) []
                  created.2).
    assert (Hcreate : created = (Ok (1, env), created.2)) by (vm_compute; reflexivity).
    assert (Hrun : ran = (Ok 0, ran.2)) by (vm_compute; reflexivity).
    pose proof (Hwindows ltac:(vm_compute; reflexivity) eq_refl 1 env created.2 0 ran.2
                  Hcreate Hrun) as Hverify.
    assert (Hgo : (0 =? 0) && check args_fifo_check && (1 <? job_count args_fifo_check)
                  = true) by reflexivity.
    rewrite Hgo in Hverify.
    eexists. split.
    + eapply (Hverify 2); vm_compute; reflexivity.
    + vm_compute. reflexivity.
Defined.

Lemma main_pass_through_witness :
  help_usage args_disabled = false ∧ command args_disabled ≠ [] ∧
  job_count args_disabled ≤ 0 ∧
  main (W32 := win32_documented) false (child_exit 3) args_disabled (shell_world no_win32) =
    (let '(r, k) :=
       child_exit 3 (command args_disabled) (environ (shell_world no_win32))
         (filter (λ kv, kv.1 ∈ [0; 1; 2]) (fds (shell_world no_win32)))
         (kern (shell_world no_win32)) in
     (r, set_kern k (shell_world no_win32))).
Proof.
  split; [reflexivity |]. split; [discriminate |]. split; [vm_compute; discriminate |].
  apply (main_pass_through (W32 := win32_documented));
    [reflexivity | discriminate | vm_compute; discriminate].
Defined.

Lemma verification_classifies_witness :
  1 < 4 ∧
  (∃ code report st',
     check_pipe_tokens 3 4 (pool_world 2) = (Ok code, st') ∧
     stderr st' = stderr (pool_world 2) ++ report ∧
     classified 4 2 code report) ∧
  (∃ code report st',
     check_sem_count (W32 := win32_documented) 1 4 (pool_world 2) = (Ok code, st') ∧
     stderr st' = stderr (pool_world 2) ++ report ∧
     classified 4 2 code report).
Proof.
  split; [lia |].
  destruct (verification_classifies (W32 := win32_documented) 4 2) as [Hpipe Hsem]; [lia |].
  split.
  - apply (Hpipe 3 (pool_world 2) 2%nat true true); reflexivity.
  - eapply Hsem. vm_compute. reflexivity.
Defined.

Lemma create_env_only_sets_MAKEFLAGS_witness :
  0 < 4 ∧ 4 - 1 ≤ PIPE_CAPACITY ∧
  fifo_creatable "/build/jobserver_tokens" (shell_world no_win32) ∧
  (∃ r w env st',
     create_pipe 4 (shell_world no_win32) = (Ok (r, w, env), st') ∧
     only_MAKEFLAGS_set (environ (shell_world no_win32)) env
       (" -j" +:+ pretty 4 +:+
        " --jobserver-fds=" +:+ pretty r +:+ "," +:+ pretty w +:+
        " --jobserver-auth=" +:+ pretty r +:+ "," +:+ pretty w)) ∧
  (∃ r w env st',
     create_fifo "/build/jobserver_tokens" 4 (shell_world no_win32) = (Ok (r, w, env), st') ∧
     only_MAKEFLAGS_set (environ (shell_world no_win32)) env
       ((" -j" +:+ pretty 4 +:+ " --jobserver-auth=fifo:") +:+ "/build/jobserver_tokens")) ∧
  (∃ handle env st',
     create_sem (W32 := win32_unchecked) "jobserver_tokens" 4 (shell_world no_win32)
       = (Ok (handle, env), st') ∧
     only_MAKEFLAGS_set (environ (shell_world no_win32)) env
       (" -j{job_count} --jobserver-auth=" +:+ "jobserver_tokens")).
Proof.
  assert (Hfit : 4 - 1 ≤ PIPE_CAPACITY) by (vm_compute; discriminate).
  assert (Hpath : fifo_creatable "/build/jobserver_tokens" (shell_world no_win32)).
  { split; [vm_compute; discriminate | vm_compute; reflexivity]. }
  split; [lia |]. split; [exact Hfit |]. split; [exact Hpath |].
  destruct (create_env_only_sets_MAKEFLAGS (W32 := win32_unchecked) 4 (shell_world no_win32))
    as ([Hpipe Hpipe_env] & Hfifo & Hsem); [lia |].
  split; [| split].
  - destruct (Hpipe Hfit) as ([[r w] env] & st' & Hrun).
    exists r, w, env, st'. split; [exact Hrun |]. by apply (Hpipe_env r w env st').
  - destruct (Hfifo "/build/jobserver_tokens") as [Hret Hfifo_env].
    destruct (Hret Hpath) as ([[r w] env] & st' & Hrun).
    exists r, w, env, st'. split; [exact Hrun |]. by apply (Hfifo_env r w env st').
  - destruct (create_sem (W32 := win32_unchecked) "jobserver_tokens" 4 (shell_world no_win32))
      as [[[handle env]| |] st'] eqn:Hrun;
      [| vm_compute in Hrun; discriminate | vm_compute in Hrun; discriminate].
    exists handle, env, st'. split; [reflexivity |]. eapply Hsem. exact Hrun.
Defined.

Lemma create_pipe_advertises_fds_twice_witness :
  0 < 4 ∧ 4 - 1 ≤ PIPE_CAPACITY ∧
  ∃ r w env p st',
    create_pipe 4 (shell_world no_win32) = (Ok (r, w, env), st') ∧
    env !! "MAKEFLAGS" =
      Some (" -j" +:+ pretty 4 +:+
            " --jobserver-fds=" +:+ pretty r +:+ "," +:+ pretty w +:+
            " --jobserver-auth=" +:+ pretty r +:+ "," +:+ pretty w) ∧
    (∃ inh blk, fds st' !! r = Some (FdEntry p ReadEnd inh blk)) ∧
    (∃ inh blk, fds st' !! w = Some (FdEntry p WriteEnd inh blk)).
Proof.
  assert (Hfit : 4 - 1 ≤ PIPE_CAPACITY) by (vm_compute; discriminate).
  split; [lia |]. split; [exact Hfit |].
  destruct (create_pipe_advertises_fds_twice 4 (shell_world no_win32)) as [Hret Hflags];
    [lia |].
  destruct (Hret Hfit) as ([[r w] env] & st' & Hrun).
  destruct (Hflags r w env st' Hrun) as (Hmake & p & Hr & Hw).
  by exists r, w, env, p, st'.
Defined.

(** * Further properties of the token pool *)

Section BackendEdges.
Context {K : Type}.
Implicit Types (st : world K) (N : Z).

(** X1. [create_pipe] checks the job count after it has made the pipe:
    with a job count that is not positive it raises [AssertionError] and
    leaves the two new descriptors open, inheritable, on an empty pipe. *)
Theorem create_pipe_rejects_nonpositive (N : Z) st :
  N ≤ 0 →
  ∃ r w p st',
    create_pipe N st =
      (Exc (AssertionError "Token count must be strictly positive"), st') ∧
    r ≠ w ∧ fds st !! r = None ∧ fds st !! w = None ∧
    fds st' !! r = Some (FdEntry p ReadEnd true true) ∧
    fds st' !! w = Some (FdEntry p WriteEnd true true) ∧
    pipe_buffer p st' = [].
Proof.
  intros HN.
  set (p := new_pipe (pipes (kern st))).
  set (r := new_fd (fds st)).
  set (t1 := <[r := FdEntry p ReadEnd false true]> (fds st)).
  set (w := new_fd t1).
  assert (Hr : fds st !! r = None) by apply new_fd_fresh.
  assert (Hw : t1 !! w = None) by apply new_fd_fresh.
  assert (Hrw : r ≠ w).
  { intros E. rewrite <- E in Hw. unfold t1 in Hw. by rewrite lookup_insert_eq in Hw. }
  exists r, w, p.
  unfold create_pipe, bind, os_pipe. fold p r t1 w. cbn.
  unfold os_set_inheritable at 1. cbn.
  rewrite lookup_insert_ne by done. unfold t1 at 1. rewrite lookup_insert_eq. cbn.
  unfold os_set_inheritable at 1. cbn.
  rewrite lookup_insert_ne by done. rewrite lookup_insert_eq. cbn.
  rewrite (proj2 (Z.ltb_ge 0 N)) by lia. cbn.
  eexists. split; [reflexivity |].
  unfold pipe_buffer. cbn.
  rewrite lookup_insert_eq, lookup_insert_ne, lookup_insert_eq by done.
  rewrite lookup_insert_eq.
  repeat split; try done.
  unfold t1 in Hw. by rewrite lookup_insert_ne in Hw.
Qed.

(** X2. [create_fifo] checks the job count after it has made and opened
    the FIFO: with a job count that is not positive, on a path where a
    FIFO can be made, it raises [AssertionError] and leaves the FIFO in the
    file system, empty, with both descriptors open on it. *)
Theorem create_fifo_rejects_nonpositive (path : string) (N : Z) st :
  N ≤ 0 →
  fifo_creatable path st →
  ∃ r w p st',
    create_fifo path N st =
      (Exc (AssertionError "Token count must be strictly positive"), st') ∧
    fs (kern st') !! path = Some (Fifo p) ∧
    r ≠ w ∧ fds st !! r = None ∧ fds st !! w = None ∧
    fds st' !! r = Some (FdEntry p ReadEnd false false) ∧
    fds st' !! w = Some (FdEntry p WriteEnd false false) ∧
    pipe_buffer p st' = [].
Proof.
  intros HN [Hdir Hparent].
  destruct (create_fifo_eval path N st Hdir Hparent)
    as (r & w & p & st1 & st2 & Hrw & Hr & Hw & Hr1 & Hw1 & _ & Hbuf & _ & _ & _ & Hfs & _
        & _ & _ & Hrun).
  rewrite (proj2 (Z.ltb_ge 0 N)) in Hrun by lia.
  exists r, w, p, st1. split; [done |].
  split; [rewrite Hfs; apply lookup_insert_eq |]. done.
Qed.

(** X3. How the two POSIX backends leave their descriptors: [create_pipe]
    makes both ends inheritable and leaves them blocking; [create_fifo]
    opens both ends non-blocking and does not make them inheritable (the
    child finds the FIFO by its path).  This holds of every call that
    returns; [create_pipe] does return when its tokens fit into the pipe,
    and [create_fifo] where the FIFO can be made. *)
Theorem create_descriptor_flags (path : string) (N : Z) st :
  0 < N →
  ((N - 1 ≤ PIPE_CAPACITY → returns (create_pipe N) st) ∧
   ∀ (r w : Z) env st',
     create_pipe N st = (Ok (r, w, env), st') →
     ∃ p, fds st' !! r = Some (FdEntry p ReadEnd true true) ∧
          fds st' !! w = Some (FdEntry p WriteEnd true true)) ∧
  ((fifo_creatable path st → returns (create_fifo path N) st) ∧
   ∀ (r w : Z) env st',
     create_fifo path N st = (Ok (r, w, env), st') →
     ∃ p, fds st' !! r = Some (FdEntry p ReadEnd false false) ∧
          fds st' !! w = Some (FdEntry p WriteEnd false false)).
Proof.
  intros HN. split; split.
  - intros Hfit.
    destruct (create_pipe_returns N st HN Hfit) as (r & w & p & st' & Hrun & _).
    by eexists _, st'.
  - intros r w env st' Hrun.
    destruct (create_pipe_pool N st r w env st' HN Hrun) as (p & _ & _ & _ & _ & Hr & Hw).
    eauto.
  - intros [Hdir Hparent].
    destruct (create_fifo_returns path N st HN Hdir Hparent) as (r & w & p & st' & Hrun & _).
    by eexists _, st'.
  - intros r w env st' Hrun.
    destruct (create_fifo_pool path N st r w env st' HN Hrun) as (p & _ & _ & _ & _ & Hr & Hw).
    eauto.
Qed.

End BackendEdges.

(** ** What a run never changes *)

Lemma keeps_pure {S X A} (f : S → X) (a : A) : keeps f (pure a).
Proof. by intros s. Qed.

Lemma keeps_raise {S X A} (f : S → X) (e : exn) : keeps f (raise (A := A) e).
Proof. by intros s. Qed.

Lemma keeps_assert {S X} (f : S → X) (cond : bool) (msg : string) :
  keeps f (assert cond msg).
Proof. intros s. by destruct cond. Qed.

Lemma keeps_bind {S X A B} (f : S → X) (m : M S A) (k : A → M S B) :
  keeps f m → (∀ a, keeps f (k a)) → keeps f (bind m k).
Proof.
  intros Hm Hk s. unfold bind. specialize (Hm s).
  destruct (m s) as [[a|e|] s1]; cbn in *; [| done | done].
  by rewrite Hk.
Qed.

Lemma keeps_try_finally {S X A} (f : S → X) (body : M S A) (fin : M S unit) :
  keeps f body → keeps f fin → keeps f (try_finally body fin).
Proof.
  intros Hb Hf s. unfold try_finally. specialize (Hb s).
  destruct (body s) as [[a|e|] s1]; cbn in *; [| | done].
  all: specialize (Hf s1); destruct (fin s1) as [[[]|e'|] s2]; cbn in *; congruence.
Qed.

Lemma keeps_except_BlockingIOError {S X A} (f : S → X) (body handler : M S A) :
  keeps f body → keeps f handler → keeps f (except_BlockingIOError body handler).
Proof.
  intros Hb Hh s. unfold except_BlockingIOError. specialize (Hb s).
  destruct (body s) as [[a|e|] s1]; cbn in *; [done | | done].
  destruct e; cbn; try done. by rewrite Hh.
Qed.

Lemma keeps_lift {L W X A} (f : W → X) (m : M W A) :
  keeps f m → keeps (λ s : L * W, f s.2) (lift m).
Proof.
  intros Hm [l w]. unfold lift. specialize (Hm w).
  by destruct (m w) as [r w'].
Qed.

Lemma keeps_load {L W X A} (f : W → X) (var : string) (proj : L → option A) :
  keeps (λ s : L * W, f s.2) (load var proj).
Proof. intros [l w]. unfold load. by destruct (proj l). Qed.

Lemma keeps_store {L W X} (f : W → X) (upd : L → L) :
  keeps (λ s : L * W, f s.2) (store upd).
Proof. by intros [l w]. Qed.

Lemma keeps_with_locals {L W X A} (f : W → X) (l0 : L) (m : M (L * W) A) :
  keeps (λ s : L * W, f s.2) m → keeps f (with_locals l0 m).
Proof.
  intros Hm w. unfold with_locals. specialize (Hm (l0, w)).
  by destruct (m (l0, w)) as [r [l w']].
Qed.

Section Environ.
Context {K : Type} {W32 : Win32API K}.
Variable _IS_WINDOWS : bool.
Variable child :
  list string → gmap string string → gmap Z fd_entry → kernel K → outcome Z * kernel K.

Ltac keeps_prim :=
  let s := fresh "s" in
  intros s; repeat (cbn; try done; case_match).

Lemma keeps_environ_os_pipe : keeps (environ (K := K)) (os_pipe).
Proof. unfold os_pipe. keeps_prim. Qed.

Lemma keeps_environ_os_set_inheritable fd b : keeps (environ (K := K)) (os_set_inheritable fd b).
Proof. unfold os_set_inheritable. keeps_prim. Qed.

Lemma keeps_environ_os_set_blocking fd b : keeps (environ (K := K)) (os_set_blocking fd b).
Proof. unfold os_set_blocking. keeps_prim. Qed.

Lemma keeps_environ_os_write fd data : keeps (environ (K := K)) (os_write fd data).
Proof. unfold os_write. keeps_prim. Qed.

Lemma keeps_environ_os_read fd n : keeps (environ (K := K)) (os_read fd n).
Proof. unfold os_read. keeps_prim. Qed.

Lemma keeps_environ_os_close fd : keeps (environ (K := K)) (os_close fd).
Proof. unfold os_close. keeps_prim. Qed.

Lemma keeps_environ_os_path_exists path : keeps (environ (K := K)) (os_path_exists path).
Proof. unfold os_path_exists. keeps_prim. Qed.

Lemma keeps_environ_os_remove path : keeps (environ (K := K)) (os_remove path).
Proof. unfold os_remove. keeps_prim. Qed.

Lemma keeps_environ_os_mkfifo path : keeps (environ (K := K)) (os_mkfifo path).
Proof. unfold os_mkfifo. keeps_prim. Qed.

Lemma keeps_environ_os_open path flags : keeps (environ (K := K)) (os_open path flags).
Proof. unfold os_open. keeps_prim. Qed.

Lemma keeps_environ_os_environ : keeps (environ (K := K)) (os_environ).
Proof. unfold os_environ. keeps_prim. Qed.

Lemma keeps_environ_print_stderr msg : keeps (environ (K := K)) (print_stderr msg).
Proof. unfold print_stderr. keeps_prim. Qed.

Lemma keeps_environ_print msg : keeps (environ (K := K)) (print msg).
Proof. unfold print. keeps_prim. Qed.

Lemma keeps_environ_win32_call {A} (m : M K A) :
  keeps (environ (K := K)) (win32_call m).
Proof. intros s. unfold win32_call. by destruct (m (win32 (kern s))). Qed.

Lemma keeps_environ_subprocess_run command env pass_fds :
  keeps (environ (K := K)) (subprocess_run child command env pass_fds).
Proof. intros s. unfold subprocess_run. by destruct (child _ _ _ _). Qed.

Create HintDb keeps_db.
#[local] Hint Resolve keeps_environ_os_pipe keeps_environ_os_set_inheritable keeps_environ_os_set_blocking keeps_environ_os_write keeps_environ_os_read keeps_environ_os_close keeps_environ_os_path_exists keeps_environ_os_remove keeps_environ_os_mkfifo keeps_environ_os_open keeps_environ_os_environ keeps_environ_print_stderr keeps_environ_print keeps_environ_win32_call
  keeps_environ_subprocess_run : keeps_db.

Ltac keeps_auto :=
  repeat first
    [ progress intros
    | apply keeps_pure | apply keeps_raise | apply keeps_assert
    | apply keeps_bind | apply keeps_try_finally | apply keeps_except_BlockingIOError
    | apply keeps_lift | apply keeps_load | apply keeps_store | apply keeps_with_locals
    | solve [eauto with keeps_db]
    | match goal with
      | |- keeps _ (if ?b then _ else _) => destruct b
      | |- keeps _ (match ?x with _ => _ end) => destruct x
      end ].

Lemma keeps_environ_create_pipe N : keeps (environ (K := K)) (create_pipe N).
Proof. unfold create_pipe. keeps_auto. Qed.

Lemma keeps_environ_create_fifo path N : keeps (environ (K := K)) (create_fifo path N).
Proof. unfold create_fifo. keeps_auto. Qed.

Lemma keeps_environ_drain_loop fuel fd c :
  keeps (environ (K := K)) (drain_loop fuel fd c).
Proof.
  revert c. induction fuel as [|fuel IH]; intros c; [by intros s |].
  cbn [drain_loop]. unfold drain_step. keeps_auto.
Qed.

Lemma keeps_environ_check_pipe_tokens fd N :
  keeps (environ (K := K)) (check_pipe_tokens fd N).
Proof.
  unfold check_pipe_tokens, drain_and_count. keeps_auto.
  intros s. apply keeps_environ_drain_loop.
Qed.

Lemma keeps_environ_create_sem sem_name N :
  keeps (environ (K := K)) (create_sem sem_name N).
Proof. unfold create_sem. keeps_auto. Qed.

Lemma keeps_environ_check_sem_count handle N :
  keeps (environ (K := K)) (check_sem_count handle N).
Proof. unfold check_sem_count. keeps_auto. Qed.

#[local] Hint Resolve keeps_environ_create_pipe keeps_environ_create_fifo
  keeps_environ_check_pipe_tokens keeps_environ_create_sem
  keeps_environ_check_sem_count : keeps_db.

(** X4. [main] never changes [os.environ]: whatever the arguments, the
    platform, the child and the outcome (an exit code, an exception, a
    child that never exits), the environment of the manager afterwards is
    the one it started with.  [MAKEFLAGS] is only ever set in the copy
    handed to the child. *)
Theorem main_keeps_environ (args : arguments) (st : world K) :
  environ (main _IS_WINDOWS child args st).2 = environ st.
Proof.
  revert st. change (keeps (environ (K := K)) (main _IS_WINDOWS child args)).
  unfold main, print_usage, main_posix_try, main_posix_finally.
  keeps_auto.
Qed.

(** The calls that never touch the descriptor table. *)
Lemma keeps_fds_print msg : keeps (fds (K := K)) (print msg).
Proof. by intros s. Qed.

Lemma keeps_fds_print_stderr msg : keeps (fds (K := K)) (print_stderr msg).
Proof. by intros s. Qed.

Lemma keeps_fds_os_environ : keeps (fds (K := K)) os_environ.
Proof. by intros s. Qed.

Lemma keeps_fds_os_remove path : keeps (fds (K := K)) (os_remove path).
Proof. unfold os_remove. keeps_prim. Qed.

Lemma keeps_fds_win32_call {A} (m : M K A) : keeps (fds (K := K)) (win32_call m).
Proof. intros s. unfold win32_call. by destruct (m (win32 (kern s))). Qed.

Lemma keeps_fds_subprocess_run command env pass_fds :
  keeps (fds (K := K)) (subprocess_run child command env pass_fds).
Proof. intros s. unfold subprocess_run. by destruct (child _ _ _ _). Qed.

#[local] Hint Resolve keeps_fds_print keeps_fds_print_stderr keeps_fds_os_environ
  keeps_fds_os_remove keeps_fds_win32_call keeps_fds_subprocess_run : keeps_db.

Lemma keeps_fds_create_sem sem_name N : keeps (fds (K := K)) (create_sem sem_name N).
Proof. unfold create_sem. keeps_auto. Qed.

Lemma keeps_fds_check_sem_count handle N :
  keeps (fds (K := K)) (check_sem_count handle N).
Proof. unfold check_sem_count. keeps_auto. Qed.

#[local] Hint Resolve keeps_fds_create_sem keeps_fds_check_sem_count : keeps_db.

(** ** The POSIX branch of [main], path by path *)

Implicit Types (st : world K) (N : Z).

Lemma main_pipe_launch_fails (args : arguments) st (r w : Z) env st0
    (o : outcome Z) st1 (p : nat) :
  help_usage args = false → command args ≠ [] →
  0 < job_count args → _IS_WINDOWS = false → pipe args = true →
  create_pipe (job_count args) st = (Ok (r, w, env), st0) →
  pool_created (job_count args) st r w p st0 →
  subprocess_run child (command args) (Some env) [r; w] st0 = (o, st1) →
  match o with
  | Ok _ => True
  | Exc e => main _IS_WINDOWS child args st = (Exc e, closed r w st1)
  | Hang => main _IS_WINDOWS child args st = (Hang, st1)
  end.
Proof.
  intros Hhelp Hcmd HN Hwin Hpipe Hcreate Hpool Hrun.
  destruct o as [c|e|]; [done | |].
  all: pose proof (subprocess_run_frame _ _ _ _ _ _ _ Hrun) as (Hfds1 & _).
  all: unfold main;
    rewrite Hhelp, bool_decide_eq_false_2, (proj2 (Z.leb_gt _ _) HN), Hwin by done.
  all: unfold with_locals, bind at 1; unfold try_finally.
  all: unfold main_posix_try; rewrite Hpipe.
  all: unfold bind at 1; unfold bind at 1; unfold lift at 1; rewrite Hcreate.
  all: unfold bind at 1; unfold store at 1.
  all: unfold bind at 1; unfold lift at 1; rewrite Hrun.
  2: reflexivity.
  destruct Hpool as (Hrw & _ & _ & (inh & blk & Hr0) & [inhw [blkw Hw0]] & _).
  rewrite <- Hfds1 in Hr0, Hw0.
  rewrite (main_posix_finally_runs _ st1 r w) by (cbn; eauto).
  reflexivity.
Qed.

Lemma main_fifo_launch_hangs (args : arguments) st (r w : Z) env st0 st1 :
  help_usage args = false → command args ≠ [] →
  0 < job_count args → _IS_WINDOWS = false → pipe args = false → fifo args ≠ "" →
  create_fifo (fifo args) (job_count args) st = (Ok (r, w, env), st0) →
  subprocess_run child (command args) (Some env) [] st0 = (Hang, st1) →
  main _IS_WINDOWS child args st = (Hang, st1).
Proof.
  intros Hhelp Hcmd HN Hwin Hpipe Hfifo Hcreate Hrun.
  apply String.eqb_neq in Hfifo.
  unfold main. rewrite Hhelp, bool_decide_eq_false_2, (proj2 (Z.leb_gt _ _) HN), Hwin by done.
  unfold with_locals, bind at 1. unfold try_finally.
  unfold main_posix_try. rewrite Hpipe, Hfifo. cbn [negb].
  unfold bind at 1. unfold bind at 1. unfold lift at 1. rewrite Hcreate.
  unfold bind at 1. unfold store at 1.
  unfold bind at 1. unfold lift at 1. rewrite Hrun.
  reflexivity.
Qed.

(** [main] with neither backend selected. *)
Lemma main_no_backend_raises (args : arguments) st :
  help_usage args = false → command args ≠ [] →
  0 < job_count args → _IS_WINDOWS = false → pipe args = false → fifo args = "" →
  main _IS_WINDOWS child args st = (Exc (UnboundLocalError "read_fd"), st).
Proof.
  intros Hhelp Hcmd HN Hwin Hpipe Hfifo.
  unfold main. rewrite Hhelp, bool_decide_eq_false_2, (proj2 (Z.leb_gt _ _) HN), Hwin by done.
  unfold main_posix_try. rewrite Hpipe, Hfifo. reflexivity.
Qed.

(** X5. With neither [--pipe] nor a FIFO path (an empty [--fifo]), the
    POSIX branch creates no pool and launches no child: [main] raises
    [UnboundLocalError], from its [finally] clause that reads [read_fd],
    and leaves the state as it was. *)
Theorem main_without_backend (args : arguments) st :
  help_usage args = false → command args ≠ [] →
  0 < job_count args → _IS_WINDOWS = false → pipe args = false → fifo args = "" →
  main _IS_WINDOWS child args st = (Exc (UnboundLocalError "read_fd"), st).
Proof. exact (main_no_backend_raises args st). Qed.

(** [main] when [create_fifo] raises. *)
Lemma main_create_fifo_raises (args : arguments) st (e : exn) st' :
  help_usage args = false → command args ≠ [] →
  0 < job_count args → _IS_WINDOWS = false → pipe args = false → fifo args ≠ "" →
  create_fifo (fifo args) (job_count args) st = (Exc e, st') →
  main _IS_WINDOWS child args st = (Exc (UnboundLocalError "read_fd"), st').
Proof.
  intros Hhelp Hcmd HN Hwin Hpipe Hfifo Hcreate.
  apply String.eqb_neq in Hfifo.
  unfold main. rewrite Hhelp, bool_decide_eq_false_2, (proj2 (Z.leb_gt _ _) HN), Hwin by done.
  unfold with_locals, bind at 1. unfold try_finally.
  unfold main_posix_try. rewrite Hpipe, Hfifo. cbn [negb].
  unfold bind at 1. unfold bind at 1. unfold lift at 1. rewrite Hcreate.
  reflexivity.
Qed.

(** X6. When [create_fifo] raises, the [finally] clause of [main] fails
    in its turn on the unassigned [read_fd]: [main] raises
    [UnboundLocalError] in place of the error of [create_fifo], and the
    child is never launched. *)
Theorem main_masks_create_fifo_error (args : arguments) st (e : exn) st' :
  help_usage args = false → command args ≠ [] →
  0 < job_count args → _IS_WINDOWS = false → pipe args = false → fifo args ≠ "" →
  create_fifo (fifo args) (job_count args) st = (Exc e, st') →
  main _IS_WINDOWS child args st = (Exc (UnboundLocalError "read_fd"), st').
Proof. exact (main_create_fifo_raises args st e st'). Qed.

Lemma closed_restores N st (r w : Z) (p : nat) st0 (stV : world K) :
  pool_created N st r w p st0 →
  (∀ fd, fd ≠ r → fd ≠ w → fds stV !! fd = fds st0 !! fd) →
  fds (closed r w stV) = fds st.
Proof.
  intros (Hrw & Hr & Hw & _ & _ & Hother & _) Hsame.
  apply map_eq. intros fd. unfold closed. cbn.
  destruct (decide (fd = w)) as [->|Hfw]; [by rewrite lookup_delete_eq |].
  rewrite lookup_delete_ne by done.
  destruct (decide (fd = r)) as [->|Hfr]; [by rewrite lookup_delete_eq |].
  rewrite lookup_delete_ne by done.
  rewrite Hsame, Hother; done.
Qed.

Lemma verified_other_descriptors (chk : bool) (N c r : Z) (p : nat) st1 (code : Z)
    (stV : world K) :
  verified chk N c r p st1 code stV →
  ∀ fd, fd ≠ r → fds stV !! fd = fds st1 !! fd.
Proof.
  unfold verified. intros Hv fd Hfd.
  destruct ((c =? 0) && chk && (1 <? N)).
  - destruct Hv as (_ & _ & [inh ->] & _). by rewrite lookup_insert_ne.
  - by destruct Hv as [_ ->].
Qed.


(** X8. On the FIFO backend, whenever [main] returns an exit code, the
    path of the FIFO names nothing any more. *)
Theorem main_fifo_removed_on_return (args : arguments) st (code : Z) st2 :
  help_usage args = false → 0 < job_count args →
  _IS_WINDOWS = false → pipe args = false →
  main _IS_WINDOWS child args st = (Ok code, st2) →
  fs (kern st2) !! fifo args = None.
Proof.
  intros Hhelp HN Hwin Hpipe Hmain.
  destruct (decide (command args = [])) as [Hcmd|Hcmd].
  { unfold main in Hmain. by rewrite Hhelp, bool_decide_eq_true_2 in Hmain. }
  destruct (decide (fifo args = "")) as [Hfifo|Hfifo].
  { by rewrite (main_no_backend_raises args st) in Hmain. }
  destruct (create_fifo_outcome (fifo args) (job_count args) st HN)
    as [(_ & _ & r & w & p & st0 & Hcreate & Hpool & _)|(e & st' & Hcreate & _)].
  2: { by rewrite (main_create_fifo_raises args st e st') in Hmain. }
  match type of Hcreate with _ = (Ok (_, _, ?e), _) => set (env := e) in * end.
  destruct (subprocess_run child (command args) (Some env) [] st0) as [o st1] eqn:Hrun.
  destruct o as [c|e|].
  - destruct (main_fifo_runs _IS_WINDOWS child args st r w env st0 c st1 p)
      as (code' & stV & Hval & Hver); try done.
    rewrite Hval in Hmain. unfold os_remove in Hmain.
    destruct (fs (kern (closed r w stV)) !! fifo args) as [[| |q]|]; try done.
    all: injection Hmain as _ <-; cbn; apply lookup_delete_eq.
  - by rewrite (main_fifo_launch_raises _IS_WINDOWS child args st r w env st0 e st1 p)
      in Hmain.
  - by rewrite (main_fifo_launch_hangs args st r w env st0 st1) in Hmain.
Qed.

(** X9. A failing cleanup hides the exit code of the child: when the
    child has exited and the FIFO is no longer at its path, [os.remove] in
    the [finally] clause raises and [main] raises [FileNotFoundError],
    whatever the code of the child was. *)
Theorem main_fails_when_fifo_vanished (args : arguments) st (r w : Z) env st0 (c : Z) st1 :
  help_usage args = false → command args ≠ [] →
  0 < job_count args → _IS_WINDOWS = false → pipe args = false → fifo args ≠ "" →
  create_fifo (fifo args) (job_count args) st = (Ok (r, w, env), st0) →
  subprocess_run child (command args) (Some env) [] st0 = (Ok c, st1) →
  fs (kern st1) !! fifo args = None →
  (main _IS_WINDOWS child args st).1 = Exc (FileNotFoundError (fifo args)).
Proof.
  intros Hhelp Hcmd HN Hwin Hpipe Hfifo Hcreate Hrun Hgone.
  destruct (create_fifo_pool (fifo args) (job_count args) st r w env st0 HN Hcreate)
    as (p & Hpool & _).
  destruct (main_fifo_runs _IS_WINDOWS child args st r w env st0 c st1 p)
    as (code & stV & Hval & Hver); try done.
  rewrite Hval.
  pose proof (subprocess_run_frame _ _ _ _ _ _ _ Hrun) as (Hfds1 & _).
  destruct Hpool as (_ & _ & _ & (inh & blk & Hr0) & [inhw [blkw Hw0]] & _).
  rewrite <- Hfds1 in Hr0, Hw0.
  destruct (verified_frame _ _ _ r w _ _ _ _ Hver) as (_ & _ & Hfs); [eauto | eauto |].
  unfold os_remove. cbn [kern closed set_fds]. rewrite Hfs, Hgone. reflexivity.
Qed.

(** X10. A child that exits with 0 and leaves the shared objects alone
    passes the verification: with a job count whose [job_count - 1] tokens
    fit into a pipe buffer, on the pipe backend and on the FIFO backend
    where the FIFO can be made, [main] returns 0 and writes nothing to
    [stderr], with or without [--check]. *)
Theorem main_passes_idle_child (args : arguments) st :
  (∀ command env inherited k, child command env inherited k = (Ok 0, k)) →
  help_usage args = false → command args ≠ [] →
  0 < job_count args → job_count args - 1 ≤ PIPE_CAPACITY → _IS_WINDOWS = false →
  pipe args = true ∨ (fifo args ≠ "" ∧ fifo_creatable (fifo args) st) →
  ∃ st2, main _IS_WINDOWS child args st = (Ok 0, st2) ∧ stderr st2 = stderr st.
Proof.
  intros Hidle Hhelp Hcmd HN Hfit Hwin Hbackend.
  assert (Hrun : ∀ env pass_fds (st0 : world K),
             subprocess_run child (command args) env pass_fds st0 =
               (Ok 0, set_kern (kern st0) st0)).
  { intros env pass_fds st0. unfold subprocess_run. by rewrite Hidle. }
  assert (Hquiet : ∀ (r : Z) (p : nat) (st0 : world K) (code : Z) (stV : world K),
             pipe_buffer p st0 =
               replicate (Z.to_nat (Z.min (job_count args - 1) PIPE_CAPACITY)) token →
             verified (check args) (job_count args) 0 r p (set_kern (kern st0) st0) code stV →
             code = 0 ∧ stderr stV = stderr st0).
  { intros r p st0 code stV Hbuf Hver. unfold verified in Hver.
    change (pipe_buffer p (set_kern (kern st0) st0)) with (pipe_buffer p st0) in Hver.
    rewrite Hbuf, Z.min_l, length_replicate, Z2Nat.id in Hver by lia.
    destruct ((0 =? 0) && check args && (1 <? job_count args)).
    - destruct Hver as (-> & Herr & _). rewrite Z.eqb_refl. split; [done |].
      rewrite Herr. unfold verification_report.
      rewrite !Z.ltb_irrefl. cbn. by rewrite app_nil_r.
    - by destruct Hver as [-> ->]. }
  destruct (pipe args) eqn:Hpipe.
  - destruct (create_pipe_returns (job_count args) st HN Hfit)
      as (r & w & p & st0 & Hcreate & Hpool & _).
    destruct (main_pipe_runs _IS_WINDOWS child args st r w _ st0 0 _ p
                Hhelp Hcmd HN Hwin Hpipe Hcreate Hpool (Hrun _ _ _))
      as (code & stV & Hval & Hver).
    destruct Hpool as (_ & _ & _ & _ & _ & _ & Hbuf & _ & _ & Herr & _).
    destruct (Hquiet r p st0 code stV Hbuf Hver) as [-> HerrV].
    eexists. split; [exact Hval |]. cbn. congruence.
  - destruct Hbackend as [|[Hfifo [Hdir Hparent]]]; [done |].
    destruct (create_fifo_returns (fifo args) (job_count args) st HN Hdir Hparent)
      as (r & w & p & st0 & Hcreate & Hpool & Hfs0 & _).
    destruct (main_fifo_runs _IS_WINDOWS child args st r w _ st0 0 _ p
                Hhelp Hcmd HN Hwin Hpipe Hfifo Hcreate Hpool (Hrun _ _ _))
      as (code & stV & Hval & Hver).
    destruct Hpool as (_ & _ & _ & (inh & blk & Hr0) & [inhw [blkw Hw0]] & _ & Hbuf
                       & _ & _ & Herr & _).
    destruct (Hquiet r p st0 code stV Hbuf Hver) as [-> HerrV].
    destruct (verified_frame _ _ _ r w _ _ _ _ Hver) as (_ & _ & Hfs); [eauto | eauto |].
    rewrite Hval. unfold os_remove. cbn [kern closed set_fds].
    rewrite Hfs. cbn [kern set_kern fs]. rewrite Hfs0, lookup_insert_eq.
    eexists. split; [reflexivity |]. cbn. congruence.
Qed.



(** X11. The verification uses the pool up: after [check_pipe_tokens] on
    a pool of more than one slot the pipe is empty and its read end is
    non-blocking, so that a second verification right after it reads
    nothing and reports all [job_count - 1] tokens as missing. *)
Theorem check_pipe_tokens_drains_pool (fd N : Z) st (p : nat) (inh blk : bool) :
  1 < N →
  fds st !! fd = Some (FdEntry p ReadEnd inh blk) →
  ∃ code st' st'',
    check_pipe_tokens fd N st = (Ok code, st') ∧
    pipe_buffer p st' = [] ∧
    fds st' !! fd = Some (FdEntry p ReadEnd inh false) ∧
    check_pipe_tokens fd N st' = (Ok 1, st'') ∧
    stderr st'' = stderr st' ++ [missing_message (N - 1) 0].
Proof.
  intros HN Hfd.
  destruct (check_pipe_tokens_spec fd N st p inh blk HN Hfd)
    as (st' & Hrun & _ & Hfds & _ & _ & _ & _ & Hempty).
  assert (Hfd' : fds st' !! fd = Some (FdEntry p ReadEnd inh false)).
  { rewrite Hfds. apply lookup_insert_eq. }
  destruct (check_pipe_tokens_spec fd N st' p inh false HN Hfd')
    as (st'' & Hrun' & Herr' & _).
  rewrite Hempty in Hrun', Herr'.
  change (Z.of_nat (length (@nil byte))) with 0 in Hrun', Herr'.
  destruct (0 =? N - 1) eqn:He; [apply Z.eqb_eq in He; lia |].
  unfold verification_report in Herr'.
  destruct (0 <? N - 1) eqn:Hlt; [| apply Z.ltb_ge in Hlt; lia].
  eauto 10.
Qed.

End Environ.

(** * Properties of the trace generator *)

(** ** [Threads.alloc] *)

(** What [Threads.alloc] returns and how it changes [workers]. *)
Lemma Threads_alloc_spec (workers : list Z) (target : Target) :
  let '(worker, workers') := Threads_alloc workers target in
  workers' !! worker = Some (end_ target) ∧
  (∀ i, i ≠ worker → workers' !! i = workers !! i) ∧
  (∀ i busy, (i < worker)%nat → workers !! i = Some busy → start target < busy) ∧
  match workers !! worker with
  | Some busy => busy ≤ start target
  | None => worker = length workers
  end.
Proof.
  unfold Threads_alloc.
  destruct (list_find (λ busy, busy ≤ start target) workers) as [[worker busy]|] eqn:Hfind.
  - apply list_find_Some in Hfind as (Hw & Hfree & Hbefore).
    repeat split.
    + apply list_lookup_insert_eq. by eapply lookup_lt_Some.
    + intros i Hi. by apply list_lookup_insert_ne.
    + intros i b Hi Hb. specialize (Hbefore i b Hb Hi). lia.
    + by rewrite Hw.
  - apply list_find_None in Hfind.
    repeat split.
    + rewrite lookup_app_r by done. by rewrite Nat.sub_diag.
    + intros i Hi. destruct (decide (i < length workers)%nat) as [Hlt|Hge].
      * by rewrite lookup_app_l.
      * rewrite !lookup_ge_None_2; [done | lia |].
        rewrite length_app. cbn. lia.
    + intros i b _ Hb. rewrite Forall_forall in Hfind.
      pose proof (Hfind b (list_elem_of_lookup_2 _ _ _ Hb)). lia.
    + by rewrite lookup_ge_None_2.
Qed.

(** X12. [Threads.alloc] is first fit: the worker it returns is the
    first one that is free at the start of the target (busy until a time
    at or before it), every worker before it is busy past that start, and
    when none is free the worker is a new one at the end of the list.  The
    worker is then busy until the end of the target and no other worker
    changes. *)
Theorem Threads_alloc_first_fit (workers : list Z) (target : Target) :
  let '(worker, workers') := Threads_alloc workers target in
  workers' !! worker = Some (end_ target) ∧
  (∀ i, i ≠ worker → workers' !! i = workers !! i) ∧
  (∀ i busy, (i < worker)%nat → workers !! i = Some busy → start target < busy) ∧
  match workers !! worker with
  | Some busy => busy ≤ start target
  | None => worker = length workers
  end.
Proof. exact (Threads_alloc_spec workers target). Qed.

Lemma Threads_alloc_size (workers : list Z) (target : Target) :
  (fst (Threads_alloc workers target) ≤ length workers)%nat ∧
  (length (snd (Threads_alloc workers target)) ≤ S (length workers))%nat.
Proof.
  unfold Threads_alloc.
  destruct (list_find (λ busy, busy ≤ start target) workers) as [[worker busy]|] eqn:Hfind.
  - apply list_find_Some in Hfind as (Hw & _). apply lookup_lt_Some in Hw.
    cbn. rewrite length_insert. lia.
  - cbn. rewrite length_app. cbn. lia.
Qed.

(** ** [sorted] *)

Lemma insert_by_start_perm (job : Target) (l : list Target) :
  insert_by_start job l ≡ₚ job :: l.
Proof.
  induction l as [|x l IH]; cbn; [done |].
  destruct (start job <=? start x); [done |].
  rewrite IH. apply Permutation_swap.
Qed.

Lemma sorted_by_start_perm (l : list Target) : sorted_by_start l ≡ₚ l.
Proof.
  induction l as [|x l IH]; cbn; [done |].
  by rewrite insert_by_start_perm, IH.
Qed.

Lemma insert_by_start_sorted (job : Target) (l : list Target) :
  StronglySorted (λ a b, start a ≤ start b) l →
  StronglySorted (λ a b, start a ≤ start b) (insert_by_start job l).
Proof.
  induction 1 as [|x l Hl IH Hx]; cbn.
  - repeat constructor.
  - destruct (start job <=? start x) eqn:Hle.
    + apply Z.leb_le in Hle. constructor; [by constructor |].
      constructor; [done |].
      eapply Forall_impl; [exact Hx |]. cbn. intros y Hy. lia.
    + apply Z.leb_gt in Hle. constructor; [done |].
      rewrite insert_by_start_perm. constructor; [lia | done].
Qed.

Lemma sorted_by_start_sorted (l : list Target) :
  StronglySorted (λ a b, start a ≤ start b) (sorted_by_start l).
Proof.
  induction l as [|x l IH]; cbn; [constructor |].
  by apply insert_by_start_sorted.
Qed.

Lemma insert_by_start_stable (k : Z) (job : Target) (l : list Target) :
  filter (λ t, start t = k) (insert_by_start job l) = filter (λ t, start t = k) (job :: l).
Proof.
  induction l as [|x l IH]; cbn; [done |].
  destruct (start job <=? start x) eqn:Hle; [done |].
  apply Z.leb_gt in Hle.
  rewrite !filter_cons in *. rewrite IH.
  repeat case_decide; try done; lia.
Qed.

Lemma sorted_by_start_stable (k : Z) (l : list Target) :
  filter (λ t, start t = k) (sorted_by_start l) = filter (λ t, start t = k) l.
Proof.
  induction l as [|x l IH]; [done |].
  change (sorted_by_start (x :: l)) with (insert_by_start x (sorted_by_start l)).
  rewrite insert_by_start_stable, !filter_cons, IH. done.
Qed.

(** ** [read_targets] *)

Lemma setdefault_append_keys (h : string) (fresh : Target) (name : string)
    (d : list (string * Target)) :
  (setdefault_append h fresh name d).*1 = if decide (h ∈ d.*1) then d.*1 else d.*1 ++ [h].
Proof.
  induction d as [|[k t] d IH]; cbn.
  - rewrite decide_False; [done | apply not_elem_of_nil].
  - destruct (decide (k = h)) as [->|Hk]; cbn.
    + rewrite decide_True; [done | apply elem_of_cons; by left].
    + rewrite IH. destruct (decide (h ∈ d.*1)) as [Hin|Hin].
      * rewrite decide_True; [done | apply elem_of_cons; by right].
      * rewrite decide_False; [done |]. rewrite elem_of_cons. naive_solver.
Qed.

Lemma setdefault_append_elem (h : string) (fresh : Target) (name : string)
    (d : list (string * Target)) (h' : string) (t' : Target) :
  NoDup d.*1 →
  (h', t') ∈ setdefault_append h fresh name d ↔
    (h' ≠ h ∧ (h', t') ∈ d) ∨
    (h' = h ∧
     ((∃ t, (h, t) ∈ d ∧ t' = mkTarget (start t) (end_ t) (targets t ++ [name])) ∨
      ((h ∉ d.*1) ∧ t' = mkTarget (start fresh) (end_ fresh) (targets fresh ++ [name])))).
Proof.
  induction d as [|[k t] d IH]; cbn; intros Hnd.
  - rewrite list_elem_of_singleton. split.
    + intros [= -> ->]. right. split; [done |]. right. split; [apply not_elem_of_nil | done].
    + intros [[_ Hin]|[-> [(t & Hin & _)|[_ ->]]]]; [| | done].
      * by apply not_elem_of_nil in Hin.
      * by apply not_elem_of_nil in Hin.
  - apply NoDup_cons in Hnd as [Hk Hnd]. specialize (IH Hnd).
    assert (Hkey : ∀ a b, (a, b) ∈ d → a ∈ d.*1).
    { intros a b Hab. apply list_elem_of_fmap. by exists (a, b). }
    assert (Hkey' : ∀ b, (k, b) ∈ d → False).
    { intros b Hb. apply Hk. by eapply Hkey. }
    destruct (decide (k = h)) as [->|Hne].
    + rewrite !elem_of_cons. split.
      * intros [Heq|Hin].
        -- simplify_eq. right. split; [done |]. left. exists t.
           split; [by left | done].
        -- left. split; [| by right]. intros ->. by eapply Hkey'.
      * intros [[Hh [Heq|Hin]]|[-> [(t0 & Hin0 & ->)|[Hno _]]]].
        -- by simplify_eq.
        -- by right.
        -- apply elem_of_cons in Hin0 as [Heq|Hin].
           ++ simplify_eq. by left.
           ++ exfalso. by eapply Hkey'.
        -- destruct Hno. apply elem_of_cons. by left.
    + rewrite elem_of_cons, IH. split.
      * intros [Heq|[[Hh Hin]|[-> [(t0 & Hin & ->)|[Hno ->]]]]].
        -- simplify_eq. left. split; [done | by left].
        -- left. split; [done | by right].
        -- right. split; [done |]. left. exists t0. split; [by right | done].
        -- right. split; [done |]. right. split; [| done].
           rewrite elem_of_cons. naive_solver.
      * intros [[Hh Hin]|[-> [(t0 & Hin & ->)|[Hno ->]]]].
        -- apply elem_of_cons in Hin as [Heq|Hin]; [by left |].
           right. left. done.
        -- apply elem_of_cons in Hin as [Heq|Hin]; [by simplify_eq |].
           right. right. split; [done |]. left. by exists t0.
        -- right. right. split; [done |]. right. split; [| done].
           intros Hin. apply Hno. by right.
Qed.

(** The [dict] of [read_targets] after the loop: one entry per command
    hash, made of the lines with that hash. *)
Lemma read_targets_dict_spec (lines : list log_line) (delta : Z) :
  NoDup (read_targets_dict lines delta).*1 ∧
  ∀ h t, (h, t) ∈ read_targets_dict lines delta ↔
         ∃ first rest, filter (λ l, line_cmdhash l = h) lines = first :: rest ∧
                       t = target_of_lines delta first rest.
Proof.
  unfold read_targets_dict.
  induction lines as [|x lines [Hnd IH]] using rev_ind.
  { split; [constructor |]. intros h t. split.
    - intros Hin. by apply not_elem_of_nil in Hin.
    - intros (first & rest & Hf & _). done. }
  rewrite foldl_app. cbn [foldl].
  set (d := foldl _ [] lines) in *.
  assert (Hkeys : ∀ h, h ∈ d.*1 ↔ ∃ t, (h, t) ∈ d).
  { intros h. rewrite list_elem_of_fmap. split.
    - intros ([h' t] & -> & Hin). eauto.
    - intros [t Hin]. by exists (h, t). }
  split.
  - rewrite setdefault_append_keys. case_decide as Hin; [done |].
    apply NoDup_app. split; [done |]. split; [| apply NoDup_singleton].
    intros y Hy ->%list_elem_of_singleton. done.
  - intros h t. rewrite setdefault_append_elem by done.
    rewrite filter_app, filter_cons, filter_nil.
    destruct (decide (h = line_cmdhash x)) as [->|Hne].
    + rewrite decide_True by done. split.
      * intros [[Hh _]|[_ [(t0 & Hin & ->)|[Hno ->]]]]; [done | |].
        -- apply IH in Hin as (first & rest & Hf & ->).
           exists first, (rest ++ [x]). rewrite Hf. split; [done |].
           unfold target_of_lines. cbn. by rewrite fmap_app.
        -- exists x, []. split; [| done].
           destruct (filter _ lines) as [|f r] eqn:Hf; [done |].
           destruct Hno. apply Hkeys. exists (target_of_lines delta f r).
           apply IH. eauto.
      * intros (first & rest & Hf & ->). right. split; [done |].
        destruct (filter _ lines) as [|f r] eqn:Hfl; cbn in Hf.
        -- injection Hf as <- <-. right. split; [| done].
           intros [t0 Hin]%Hkeys. apply IH in Hin as (f & r & Hf' & _).
           rewrite Hfl in Hf'. done.
        -- injection Hf as <- <-. left. exists (target_of_lines delta f r). split.
           ++ apply IH. eauto.
           ++ unfold target_of_lines. cbn. by rewrite fmap_app.
    + rewrite decide_False by done. rewrite app_nil_r, <- IH. naive_solver.
Qed.

(** The targets of [read_targets] and their number. *)
Lemma read_targets_contents (lines : list log_line) (delta : Z) :
  (∀ t, t ∈ read_targets lines delta ↔
        ∃ h first rest,
          filter (λ l, line_cmdhash l = h) lines = first :: rest ∧
          t = target_of_lines delta first rest) ∧
  length (read_targets lines delta) = length (remove_dups (line_cmdhash <$> lines)).
Proof.
  destruct (read_targets_dict_spec lines delta) as [Hnd Hspec].
  unfold read_targets. split.
  - intros t. rewrite sorted_by_start_perm, list_elem_of_fmap. split.
    + intros ([h t'] & -> & Hin). apply Hspec in Hin. naive_solver.
    + intros (h & first & rest & Hf & ->). exists (h, target_of_lines delta first rest).
      split; [done |]. apply Hspec. eauto.
  - rewrite sorted_by_start_perm, length_fmap.
    rewrite <- (length_fmap fst).
    apply Permutation_length, NoDup_Permutation; [done | apply NoDup_remove_dups |].
    intros h. rewrite elem_of_remove_dups, !list_elem_of_fmap. split.
    + intros ([h' t] & -> & Hin). apply Hspec in Hin as (first & rest & Hf & _).
      exists first. cbn.
      assert (Hin : first ∈ filter (λ l, line_cmdhash l = h') lines)
        by (rewrite Hf; apply elem_of_cons; by left).
      apply list_elem_of_filter in Hin as [-> Hin]. done.
    + intros (l & -> & Hin).
      destruct (filter (λ l', line_cmdhash l' = line_cmdhash l) lines) as [|f r] eqn:Hf.
      * assert (Hl : l ∈ filter (λ l', line_cmdhash l' = line_cmdhash l) lines)
          by (by apply list_elem_of_filter).
        rewrite Hf in Hl. by apply not_elem_of_nil in Hl.
      * exists (line_cmdhash l, target_of_lines delta f r). split; [done |].
        apply Hspec. eauto.
Qed.

(** X13. [read_targets] makes one target of every command hash in the
    log: its times are those of the first line with that hash, shifted by
    [timestamp_delta] (the times of the later lines are ignored), and its
    names are the names of all the lines with that hash, in log order.
    There are as many targets as distinct hashes. *)
Theorem read_targets_groups_by_hash (lines : list log_line) (delta : Z) :
  (∀ t, t ∈ read_targets lines delta ↔
        ∃ h first rest,
          filter (λ l, line_cmdhash l = h) lines = first :: rest ∧
          t = target_of_lines delta first rest) ∧
  length (read_targets lines delta) = length (remove_dups (line_cmdhash <$> lines)).
Proof. exact (read_targets_contents lines delta). Qed.

(** X14. [read_targets] returns the targets in the order of their start
    times, and targets that start at the same time keep the order in which
    their command hashes first appear in the log: the sort is stable. *)
Theorem read_targets_sorted (lines : list log_line) (delta : Z) :
  StronglySorted (λ a b, start a ≤ start b) (read_targets lines delta) ∧
  read_targets lines delta ≡ₚ (read_targets_dict lines delta).*2 ∧
  ∀ k, filter (λ t, start t = k) (read_targets lines delta) =
       filter (λ t, start t = k) (read_targets_dict lines delta).*2.
Proof.
  unfold read_targets. split; [apply sorted_by_start_sorted |].
  split; [apply sorted_by_start_perm |]. intros k. apply sorted_by_start_stable.
Qed.

(** ** [log_to_dicts] *)

Lemma log_to_dicts_loop_cons (pid : Z) (workers : list Z) (target : Target)
    (rest : list Target) :
  log_to_dicts_loop pid workers (target :: rest) =
    TraceEvent (String.concat ", " (targets target)) "targets" "X"
               (start target * 1000) ((end_ target - start target) * 1000) pid
               (pid + Z.of_nat (Threads_alloc workers target).1)
      :: log_to_dicts_loop pid (Threads_alloc workers target).2 rest.
Proof. cbn. by destruct (Threads_alloc workers target). Qed.

(** An event on a worker that was busy until [busy] starts at [busy] or
    later. *)
Lemma log_to_dicts_loop_after_busy (pid : Z) (ts : list Target) :
  Forall (λ t, start t ≤ end_ t) ts →
  ∀ (workers : list Z) (j : nat) (e : trace_event) (w : nat) (busy : Z),
    log_to_dicts_loop pid workers ts !! j = Some e →
    ev_tid e = pid + Z.of_nat w →
    workers !! w = Some busy →
    busy * 1000 ≤ ev_ts e.
Proof.
  induction 1 as [|t ts Ht Hts IH]; intros workers j e w busy Hj Htid Hw; [done |].
  rewrite log_to_dicts_loop_cons in Hj.
  pose proof (Threads_alloc_spec workers t) as Hfit.
  destruct (Threads_alloc workers t) as [w0 workers'].
  destruct Hfit as (Hnew & Hother & _ & Hfree). cbn [fst snd] in Hj.
  destruct j as [|j]; cbn in Hj.
  - injection Hj as <-. cbn in *. assert (w = w0) as -> by lia.
    rewrite Hw in Hfree. lia.
  - destruct (decide (w = w0)) as [->|Hne].
    + rewrite Hw in Hfree.
      pose proof (IH workers' j e w0 (end_ t) Hj Htid Hnew). lia.
    + apply (IH workers' j e w busy Hj Htid). by rewrite Hother.
Qed.

Lemma log_to_dicts_loop_no_overlap (pid : Z) (ts : list Target) :
  Forall (λ t, start t ≤ end_ t) ts →
  ∀ (workers : list Z) (i j : nat) (ei ej : trace_event),
    (i < j)%nat →
    log_to_dicts_loop pid workers ts !! i = Some ei →
    log_to_dicts_loop pid workers ts !! j = Some ej →
    ev_tid ei = ev_tid ej →
    ev_ts ei + ev_dur ei ≤ ev_ts ej.
Proof.
  induction 1 as [|t ts Ht Hts IH]; intros workers i j ei ej Hij Hi Hj Htid; [done |].
  rewrite log_to_dicts_loop_cons in Hi, Hj.
  pose proof (Threads_alloc_spec workers t) as Hfit.
  destruct (Threads_alloc workers t) as [w0 workers'].
  destruct Hfit as (Hnew & _). cbn [fst snd] in Hi, Hj.
  destruct j as [|j]; [lia |]. cbn in Hj.
  destruct i as [|i]; cbn in Hi.
  - injection Hi as <-. cbn in *.
    pose proof (log_to_dicts_loop_after_busy pid ts Hts workers' j ej w0 (end_ t) Hj
                  (eq_sym Htid) Hnew).
    lia.
  - apply (IH workers' i j ei ej); [lia | done | done | done].
Qed.

(** A target of [read_targets] is made of a line of the log. *)
Lemma read_targets_times (lines : list log_line) (delta : Z) (t : Target) :
  t ∈ read_targets lines delta →
  ∃ l, l ∈ lines ∧ start t = line_start l + delta ∧ end_ t = line_end l + delta.
Proof.
  intros Hin. apply (proj1 (read_targets_contents lines delta)) in Hin
    as (h & first & rest & Hf & ->).
  exists first. split; [| done].
  assert (Hin : first ∈ filter (λ l, line_cmdhash l = h) lines)
    by (rewrite Hf; apply elem_of_cons; by left).
  by apply list_elem_of_filter in Hin as [_ Hin].
Qed.

(** X15. In a log whose lines end no earlier than they start, two events
    of [log_to_dicts] with the same [tid] do not overlap: the one yielded
    first is over ([ts + dur]) when the other one starts. *)
Theorem log_to_dicts_no_overlap (lines : list log_line) (pid delta : Z)
    (i j : nat) (ei ej : trace_event) :
  (∀ l, l ∈ lines → line_start l ≤ line_end l) →
  (i < j)%nat →
  log_to_dicts lines pid delta !! i = Some ei →
  log_to_dicts lines pid delta !! j = Some ej →
  ev_tid ei = ev_tid ej →
  ev_ts ei + ev_dur ei ≤ ev_ts ej.
Proof.
  intros Hlines Hij Hi Hj Htid.
  eapply (log_to_dicts_loop_no_overlap (pid * 1000) (read_targets lines delta)); try done.
  apply Forall_forall. intros t Ht.
  apply read_targets_times in Ht as (l & Hl & -> & ->).
  specialize (Hlines l Hl). lia.
Qed.

(** [workers] as the end times of the last target of each worker. *)
Lemma Threads_alloc_last (last : list Target) (t : Target) :
  ∃ last',
    (Threads_alloc (end_ <$> last) t).2 = end_ <$> last' ∧
    last' !! (Threads_alloc (end_ <$> last) t).1 = Some t ∧
    ∀ i, i ≠ (Threads_alloc (end_ <$> last) t).1 → last' !! i = last !! i.
Proof.
  unfold Threads_alloc.
  destruct (list_find (λ busy, busy ≤ start t) (end_ <$> last)) as [[w busy]|] eqn:Hfind; cbn.
  - apply list_find_Some in Hfind as (Hw & _).
    apply lookup_lt_Some in Hw. rewrite length_fmap in Hw.
    exists (<[w := t]> last). split; [by rewrite list_fmap_insert |].
    split; [by apply list_lookup_insert_eq |].
    intros i Hi. by apply list_lookup_insert_ne.
  - exists (last ++ [t]). split; [by rewrite fmap_app |].
    rewrite length_fmap. split.
    + rewrite lookup_app_r by done. by rewrite Nat.sub_diag.
    + intros i Hi. destruct (decide (i < length last)%nat) as [Hlt|Hge].
      * by rewrite lookup_app_l.
      * rewrite !lookup_ge_None_2; [done | lia |]. rewrite length_app. cbn. lia.
Qed.

Lemma log_to_dicts_loop_lower_busy (pid : Z) (ts : list Target) :
  StronglySorted (λ a b, start a ≤ start b) ts →
  ∀ (last : list Target) (j : nat) (e : trace_event) (w : nat),
    (∀ x t, x ∈ last → t ∈ ts → start x ≤ start t) →
    log_to_dicts_loop pid (end_ <$> last) ts !! j = Some e →
    pid + Z.of_nat w < ev_tid e →
    (∃ i ei, (i < j)%nat ∧
             log_to_dicts_loop pid (end_ <$> last) ts !! i = Some ei ∧
             ev_tid ei = pid + Z.of_nat w ∧
             ev_ts ei ≤ ev_ts e < ev_ts ei + ev_dur ei) ∨
    (∃ x, last !! w = Some x ∧ start x * 1000 ≤ ev_ts e < end_ x * 1000).
Proof.
  induction 1 as [|t ts Hsorted IH Hle]; intros last j e w Hlast Hj Hw; [done |].
  rewrite log_to_dicts_loop_cons in *.
  pose proof (Threads_alloc_spec (end_ <$> last) t) as Hfit.
  pose proof (Threads_alloc_size (end_ <$> last) t) as [Hsize _].
  destruct (Threads_alloc_last last t) as (last' & Hws' & Hnew & Hother).
  destruct (Threads_alloc (end_ <$> last) t) as [w0 workers'].
  cbn [fst snd] in *. subst workers'.
  destruct Hfit as (_ & _ & Hbefore & _).
  destruct j as [|j]; cbn in Hj.
  - injection Hj as <-. cbn in *. right.
    assert (Hlt : (w < w0)%nat) by lia.
    destruct (lookup_lt_is_Some_2 (end_ <$> last) w) as [busy Hbusy]; [lia |].
    specialize (Hbefore w busy Hlt Hbusy).
    rewrite list_lookup_fmap in Hbusy.
    destruct (last !! w) as [x|] eqn:Hx; [| done]. injection Hbusy as <-.
    exists x. split; [done |].
    assert (start x ≤ start t).
    { apply Hlast; [by eapply list_elem_of_lookup_2 | apply elem_of_cons; by left]. }
    lia.
  - destruct (IH last' j e w) as [(i & ei & Hi & Hei & Htid & Hrun)|(x & Hx & Hrun)];
      [| done | done | |].
    + intros x t' Hx Ht'. apply list_elem_of_lookup in Hx as [i Hi].
      destruct (decide (i = w0)) as [->|Hne].
      * rewrite Hnew in Hi. injection Hi as <-.
        rewrite Forall_forall in Hle. by apply Hle.
      * rewrite Hother in Hi by done.
        apply Hlast; [by eapply list_elem_of_lookup_2 | apply elem_of_cons; by right].
    + left. exists (S i), ei. split; [lia |]. done.
    + destruct (decide (w = w0)) as [->|Hne].
      * rewrite Hnew in Hx. injection Hx as <-.
        left. eexists 0%nat, _. split; [lia |]. split; [reflexivity |]. cbn. lia.
      * right. exists x. rewrite Hother in Hx by done. done.
Qed.

(** X16. [log_to_dicts] opens a thread only when it has to: an event is
    on thread [k] of its log only if, on every lower thread of that log, an
    event yielded before it is still running when it starts.  So the number
    of threads is the number of commands that the log shows running at the
    same time. *)
Theorem log_to_dicts_lower_threads_busy (lines : list log_line) (pid delta : Z)
    (j : nat) (e : trace_event) (w : nat) :
  log_to_dicts lines pid delta !! j = Some e →
  pid * 1000 + Z.of_nat w < ev_tid e →
  ∃ i ei, (i < j)%nat ∧
          log_to_dicts lines pid delta !! i = Some ei ∧
          ev_tid ei = pid * 1000 + Z.of_nat w ∧
          ev_ts ei ≤ ev_ts e < ev_ts ei + ev_dur ei.
Proof.
  intros Hj Hw. unfold log_to_dicts in *. cbn zeta in *.
  destruct (log_to_dicts_loop_lower_busy (pid * 1000) (read_targets lines delta)
              (sorted_by_start_sorted _) [] j e w)
    as [Hleft|(x & Hx & _)]; [| done | done | done | done].
  intros x t Hx. by apply not_elem_of_nil in Hx.
Qed.

Lemma log_to_dicts_loop_tids (pid : Z) (ts : list Target) :
  ∀ (workers : list Z) (j : nat) (e : trace_event),
    log_to_dicts_loop pid workers ts !! j = Some e →
    ev_pid e = pid ∧ pid ≤ ev_tid e ≤ pid + Z.of_nat (length workers) + Z.of_nat j.
Proof.
  induction ts as [|t ts IH]; intros workers j e Hj; [done |].
  rewrite log_to_dicts_loop_cons in Hj.
  pose proof (Threads_alloc_size workers t) as [Hfst Hsnd].
  destruct j as [|j]; cbn in Hj.
  - injection Hj as <-. cbn. lia.
  - apply IH in Hj as [Hpid Htid]. split; [done |]. lia.
Qed.

Lemma log_to_dicts_loop_ts (pid : Z) (ts : list Target) (workers : list Z) :
  ev_ts <$> log_to_dicts_loop pid workers ts = (λ t, start t * 1000) <$> ts.
Proof.
  revert workers. induction ts as [|t ts IH]; intros workers; [done |].
  rewrite log_to_dicts_loop_cons. cbn. by rewrite IH.
Qed.

(** Number, order, [pid] and [tid] range of the events. *)
Lemma log_to_dicts_shape (lines : list log_line) (pid delta : Z) :
  length (log_to_dicts lines pid delta) = length (remove_dups (line_cmdhash <$> lines)) ∧
  StronglySorted Z.le (ev_ts <$> log_to_dicts lines pid delta) ∧
  ∀ e, e ∈ log_to_dicts lines pid delta →
       ev_pid e = pid * 1000 ∧
       pid * 1000 ≤ ev_tid e < pid * 1000 + Z.of_nat (length (log_to_dicts lines pid delta)).
Proof.
  unfold log_to_dicts. cbn zeta.
  assert (Hlen : length (log_to_dicts_loop (pid * 1000) [] (read_targets lines delta)) =
                 length (read_targets lines delta)).
  { rewrite <- (length_fmap ev_ts), log_to_dicts_loop_ts. apply length_fmap. }
  split; [| split].
  - rewrite Hlen. apply read_targets_contents.
  - rewrite log_to_dicts_loop_ts.
    assert (Hsorted : StronglySorted (λ a b, start a ≤ start b) (read_targets lines delta))
      by apply sorted_by_start_sorted.
    clear Hlen. induction Hsorted as [|t ts Hs IH Hle]; cbn; [constructor |].
    constructor; [done |].
    rewrite Forall_fmap. eapply Forall_impl; [exact Hle |]. cbn. intros y Hy. lia.
  - intros e He. apply list_elem_of_lookup in He as [j Hj].
    pose proof (lookup_lt_Some _ _ _ Hj) as Hlt.
    apply log_to_dicts_loop_tids in Hj as [Hpid Htid]. cbn in Htid. lia.
Qed.

(** X17. [log_to_dicts] yields one event for every command hash of the
    log, in the order of their start times, all with [pid * 1000] as
    [pid], and with a [tid] from [pid * 1000] up to, but not including,
    [pid * 1000] plus the number of events. *)
Theorem log_to_dicts_events (lines : list log_line) (pid delta : Z) :
  length (log_to_dicts lines pid delta) = length (remove_dups (line_cmdhash <$> lines)) ∧
  StronglySorted Z.le (ev_ts <$> log_to_dicts lines pid delta) ∧
  ∀ e, e ∈ log_to_dicts lines pid delta →
       ev_pid e = pid * 1000 ∧
       pid * 1000 ≤ ev_tid e < pid * 1000 + Z.of_nat (length (log_to_dicts lines pid delta)).
Proof. exact (log_to_dicts_shape lines pid delta). Qed.

(** X18. Two logs of at most 1000 commands each, converted under
    different process numbers, share no [tid]. *)
Theorem log_to_dicts_tids_disjoint (lines1 lines2 : list log_line)
    (pid1 pid2 delta1 delta2 : Z) (e1 e2 : trace_event) :
  pid1 ≠ pid2 →
  (length (remove_dups (line_cmdhash <$> lines1)) ≤ 1000)%nat →
  (length (remove_dups (line_cmdhash <$> lines2)) ≤ 1000)%nat →
  e1 ∈ log_to_dicts lines1 pid1 delta1 →
  e2 ∈ log_to_dicts lines2 pid2 delta2 →
  ev_tid e1 ≠ ev_tid e2.
Proof.
  intros Hpid Hn1 Hn2 He1 He2.
  destruct (log_to_dicts_shape lines1 pid1 delta1) as (Hlen1 & _ & Htid1).
  destruct (log_to_dicts_shape lines2 pid2 delta2) as (Hlen2 & _ & Htid2).
  apply Htid1 in He1 as [_ He1]. apply Htid2 in He2 as [_ He2].
  rewrite Hlen1 in He1. rewrite Hlen2 in He2. lia.
Qed.

(** * The further properties at concrete inputs *)

Lemma create_pipe_rejects_nonpositive_witness :
  0 ≤ 0 ∧
  ∃ r w p st',
    create_pipe 0 (shell_world no_win32) =
      (Exc (AssertionError "Token count must be strictly positive"), st') ∧
    r ≠ w ∧ fds (shell_world no_win32) !! r = None ∧ fds (shell_world no_win32) !! w = None ∧
    fds st' !! r = Some (FdEntry p ReadEnd true true) ∧
    fds st' !! w = Some (FdEntry p WriteEnd true true) ∧
    pipe_buffer p st' = [].
Proof. split; [lia |]. apply create_pipe_rejects_nonpositive. lia. Defined.

Lemma create_fifo_rejects_nonpositive_witness :
  -1 ≤ 0 ∧
  fifo_creatable "/build/jobserver_tokens" (shell_world no_win32) ∧
  ∃ r w p st',
    create_fifo "/build/jobserver_tokens" (-1) (shell_world no_win32) =
      (Exc (AssertionError "Token count must be strictly positive"), st') ∧
    fs (kern st') !! "/build/jobserver_tokens" = Some (Fifo p) ∧
    r ≠ w ∧ fds (shell_world no_win32) !! r = None ∧ fds (shell_world no_win32) !! w = None ∧
    fds st' !! r = Some (FdEntry p ReadEnd false false) ∧
    fds st' !! w = Some (FdEntry p WriteEnd false false) ∧
    pipe_buffer p st' = [].
Proof.
  assert (Hpath : fifo_creatable "/build/jobserver_tokens" (shell_world no_win32)).
  { split; [vm_compute; discriminate | vm_compute; reflexivity]. }
  split; [lia |]. split; [exact Hpath |].
  apply create_fifo_rejects_nonpositive; [lia | exact Hpath].
Defined.

Lemma create_descriptor_flags_witness :
  0 < 4 ∧ 4 - 1 ≤ PIPE_CAPACITY ∧
  fifo_creatable "/build/jobserver_tokens" (shell_world no_win32) ∧
  (∃ r w env p st',
     create_pipe 4 (shell_world no_win32) = (Ok (r, w, env), st') ∧
     fds st' !! r = Some (FdEntry p ReadEnd true true) ∧
     fds st' !! w = Some (FdEntry p WriteEnd true true)) ∧
  (∃ r w env p st',
     create_fifo "/build/jobserver_tokens" 4 (shell_world no_win32) = (Ok (r, w, env), st') ∧
     fds st' !! r = Some (FdEntry p ReadEnd false false) ∧
     fds st' !! w = Some (FdEntry p WriteEnd false false)).
Proof.
  assert (Hfit : 4 - 1 ≤ PIPE_CAPACITY) by (vm_compute; discriminate).
  assert (Hpath : fifo_creatable "/build/jobserver_tokens" (shell_world no_win32)).
  { split; [vm_compute; discriminate | vm_compute; reflexivity]. }
  split; [lia |]. split; [exact Hfit |]. split; [exact Hpath |].
  destruct (create_descriptor_flags "/build/jobserver_tokens" 4 (shell_world no_win32))
    as [[Hpipe Hpipe_flags] [Hfifo Hfifo_flags]]; [lia |].
  split.
  - destruct (Hpipe Hfit) as ([[r w] env] & st' & Hrun).
    destruct (Hpipe_flags r w env st' Hrun) as (p & Hr & Hw). by exists r, w, env, p, st'.
  - destruct (Hfifo Hpath) as ([[r w] env] & st' & Hrun).
    destruct (Hfifo_flags r w env st' Hrun) as (p & Hr & Hw). by exists r, w, env, p, st'.
Defined.

Lemma main_without_backend_witness :
  main (W32 := win32_documented) false (child_exit 0)
       (Namespace _DEFAULT_NAME false "" true false 4 ["ninja"]) (shell_world no_win32) =
    (Exc (UnboundLocalError "read_fd"), shell_world no_win32).
Proof.
  apply (main_without_backend (W32 := win32_documented));
    [reflexivity | discriminate | reflexivity | reflexivity | reflexivity | reflexivity].
Defined.

Lemma main_masks_create_fifo_error_witness :
  create_fifo (fifo args_fifo_check) (job_count args_fifo_check) dir_world =
    (Exc (IsADirectoryError "/build/jobserver_tokens"), dir_world) ∧
  main (W32 := win32_documented) false (child_exit 0) args_fifo_check dir_world =
    (Exc (UnboundLocalError "read_fd"), dir_world).
Proof.
  split; [vm_compute; reflexivity |].
  apply (main_masks_create_fifo_error (W32 := win32_documented) false (child_exit 0)
           args_fifo_check dir_world (IsADirectoryError "/build/jobserver_tokens"));
    [reflexivity | discriminate | reflexivity | reflexivity | reflexivity | discriminate
    | vm_compute; reflexivity].
Defined.


Lemma main_fifo_removed_on_return_witness :
  let run :=
    main (W32 := win32_documented) false (child_leak 1 0) args_fifo_check
         (shell_world no_win32) in
  run = (Ok 1, run.2) ∧ fs (kern run.2) !! fifo args_fifo_check = None.
Proof.
  split; [vm_compute; reflexivity |].
  eapply (main_fifo_removed_on_return (W32 := win32_documented) false (child_leak 1 0)
            args_fifo_check (shell_world no_win32) 1);
    [reflexivity | reflexivity | reflexivity | reflexivity | vm_compute; reflexivity].
Defined.

Lemma main_fails_when_fifo_vanished_witness :
  (main (W32 := win32_documented) false (child_removes "/build/jobserver_tokens" 0)
        args_fifo_check (shell_world no_win32)).1 =
    Exc (FileNotFoundError "/build/jobserver_tokens").
Proof.
  eapply (main_fails_when_fifo_vanished (W32 := win32_documented) false
            (child_removes "/build/jobserver_tokens" 0) args_fifo_check
            (shell_world no_win32));
    [reflexivity | discriminate | reflexivity | reflexivity | reflexivity | discriminate
    | vm_compute; reflexivity | vm_compute; reflexivity | vm_compute; reflexivity].
Defined.

Lemma main_passes_idle_child_witness :
  job_count args_fifo_check - 1 ≤ PIPE_CAPACITY ∧
  fifo_creatable (fifo args_fifo_check) (shell_world no_win32) ∧
  ∃ st2,
    main (W32 := win32_documented) false (child_exit 0) args_fifo_check
         (shell_world no_win32) = (Ok 0, st2) ∧
    stderr st2 = stderr (shell_world no_win32).
Proof.
  assert (Hfit : job_count args_fifo_check - 1 ≤ PIPE_CAPACITY)
    by (vm_compute; discriminate).
  assert (Hpath : fifo_creatable (fifo args_fifo_check) (shell_world no_win32)).
  { split; [vm_compute; discriminate | vm_compute; reflexivity]. }
  split; [exact Hfit |]. split; [exact Hpath |].
  apply (main_passes_idle_child (W32 := win32_documented));
    [reflexivity | reflexivity | discriminate | reflexivity | exact Hfit | reflexivity |].
  right. split; [discriminate | exact Hpath].
Defined.



Lemma check_pipe_tokens_drains_pool_witness :
  1 < 4 ∧
  ∃ code st' st'',
    check_pipe_tokens 3 4 (pool_world 3) = (Ok code, st') ∧
    pipe_buffer 2 st' = [] ∧
    fds st' !! 3 = Some (FdEntry 2 ReadEnd true false) ∧
    check_pipe_tokens 3 4 st' = (Ok 1, st'') ∧
    stderr st'' = stderr st' ++ [missing_message (4 - 1) 0].
Proof.
  split; [lia |].
  apply (check_pipe_tokens_drains_pool 3 4 (pool_world 3) 2%nat true true);
    [lia | reflexivity].
Defined.

Lemma Threads_alloc_first_fit_witness :
  Threads_alloc [45; 35] (mkTarget 40 65 ["c.o"]) = (1%nat, [45; 65]) ∧
  [45; 65] !! 1%nat = Some 65 ∧
  (∀ i, i ≠ 1%nat → [45; 65] !! i = [45; 35] !! i) ∧
  (∀ i busy, (i < 1)%nat → [45; 35] !! i = Some busy → 40 < busy) ∧
  35 ≤ 40.
Proof. split; [reflexivity |]. exact (Threads_alloc_first_fit [45; 35] (mkTarget 40 65 ["c.o"])). Defined.

Lemma log_to_dicts_no_overlap_witness :
  15000 + 20000 ≤ 40000.
Proof.
  apply (log_to_dicts_no_overlap sample_log 2 5 1 2
           (TraceEvent "b.o" "targets" "X" 15000 20000 2000 2001)
           (TraceEvent "c.o" "targets" "X" 40000 25000 2000 2001));
    [| lia | reflexivity | reflexivity | reflexivity].
  intros l Hl. unfold sample_log in Hl.
  repeat (apply elem_of_cons in Hl as [->|Hl]; [cbn; lia |]).
  by apply not_elem_of_nil in Hl.
Defined.

Lemma log_to_dicts_lower_threads_busy_witness :
  ∃ i ei, (i < 1)%nat ∧
          log_to_dicts sample_log 2 5 !! i = Some ei ∧
          ev_tid ei = 2 * 1000 + Z.of_nat 0 ∧
          ev_ts ei ≤ 15000 < ev_ts ei + ev_dur ei.
Proof.
  apply (log_to_dicts_lower_threads_busy sample_log 2 5 1
           (TraceEvent "b.o" "targets" "X" 15000 20000 2000 2001) 0);
    [reflexivity | cbn; lia].
Defined.

Lemma log_to_dicts_events_witness :
  length (log_to_dicts sample_log 2 5) = 3%nat ∧
  ev_pid (TraceEvent "c.o" "targets" "X" 40000 25000 2000 2001) = 2 * 1000 ∧
  2 * 1000 ≤ ev_tid (TraceEvent "c.o" "targets" "X" 40000 25000 2000 2001)
    < 2 * 1000 + Z.of_nat (length (log_to_dicts sample_log 2 5)).
Proof.
  destruct (log_to_dicts_events sample_log 2 5) as (Hlen & _ & Htid).
  split; [exact Hlen |].
  apply Htid. apply list_elem_of_lookup. exists 2%nat. reflexivity.
Defined.

Lemma log_to_dicts_tids_disjoint_witness :
  ev_tid (TraceEvent "b.o" "targets" "X" 15000 20000 2000 2001) ≠
  ev_tid (TraceEvent "b.o" "targets" "X" 10000 20000 3000 3001).
Proof.
  apply (log_to_dicts_tids_disjoint sample_log sample_log 2 3 5 0);
    [lia | vm_compute; lia | vm_compute; lia | |].
  - apply list_elem_of_lookup. exists 1%nat. reflexivity.
  - apply list_elem_of_lookup. exists 1%nat. reflexivity.
Defined.
